(** * ACTS-Core: propagation steppers and the gain-matrix updater

    A shallow embedding of

    - [Acts::GainMatrixUpdater::operator()]
      (Core/include/Acts/Fitter/GainMatrixUpdater.hpp),
    - [Acts::EigenStepper] (EigenStepper.ipp),
    - [Acts::StraightLineStepper] (StraightLineStepper.hpp) and
    - the numerical derivatives of the covariance validation
      ([wiggleDimension], [fitLinear]),

    together with the small part of Eigen's dense linear algebra these
    functions use.

    Numbers.  The C++ code computes with [double].  The embedding keeps
    the IEEE-754 special values (the two infinities and NaN) and the way
    they arise and propagate, but computes finite values exactly, as
    canonical rationals: rounding, overflow and the sign of zero are not
    modelled.  [sqrt], [pow] and [hypot] come from libm and are taken as
    parameters of the sections that use them. *)

From Stdlib Require Import QArith Qcanon ZArith List Bool Lia Lqa.
Import ListNotations.

Set Implicit Arguments.

(* ================================================================== *)
(** * Doubles: exact rationals with infinities and NaN *)
(* ================================================================== *)

Module Dbl.

Inductive dbl : Type :=
| Fin (q : Qc)
| PInf
| NInf
| NaN.

Definition dlit (q : Q) : dbl := Fin (Q2Qc q).

Definition d0 : dbl := dlit 0.
Definition d1 : dbl := dlit 1.

Definition is_finite (a : dbl) : bool :=
  match a with Fin _ => true | _ => false end.

Definition is_nan (a : dbl) : bool :=
  match a with NaN => true | _ => false end.

Definition dopp (a : dbl) : dbl :=
  match a with
  | Fin x => Fin (- x)
  | PInf => NInf
  | NInf => PInf
  | NaN => NaN
  end.

Definition dadd (a b : dbl) : dbl :=
  match a, b with
  | NaN, _ | _, NaN => NaN
  | Fin x, Fin y => Fin (x + y)
  | PInf, NInf | NInf, PInf => NaN
  | PInf, _ | _, PInf => PInf
  | NInf, _ | _, NInf => NInf
  end.

Definition dsub (a b : dbl) : dbl := dadd a (dopp b).

(** An infinity whose sign is the sign of [x] times [s]; [0 * inf] is NaN. *)
Definition inf_signed (x : Qc) (positive : bool) : dbl :=
  match (x ?= 0)%Qc with
  | Eq => NaN
  | Gt => if positive then PInf else NInf
  | Lt => if positive then NInf else PInf
  end.

Definition dmul (a b : dbl) : dbl :=
  match a, b with
  | NaN, _ | _, NaN => NaN
  | Fin x, Fin y => Fin (x * y)
  | Fin x, PInf | PInf, Fin x => inf_signed x true
  | Fin x, NInf | NInf, Fin x => inf_signed x false
  | PInf, PInf | NInf, NInf => PInf
  | PInf, NInf | NInf, PInf => NInf
  end.

(** Division.  A finite non-zero value over zero is an infinity, [0/0]
    and [inf/inf] are NaN, a finite value over an infinity is zero. *)
Definition ddiv (a b : dbl) : dbl :=
  match a, b with
  | NaN, _ | _, NaN => NaN
  | Fin x, Fin y =>
      if Qc_eq_bool y 0 then inf_signed x true else Fin (x / y)
  | Fin _, PInf | Fin _, NInf => d0
  | PInf, Fin y =>
      match (y ?= 0)%Qc with Lt => NInf | _ => PInf end
  | NInf, Fin y =>
      match (y ?= 0)%Qc with Lt => PInf | _ => NInf end
  | _, _ => NaN
  end.

Definition dabs (a : dbl) : dbl :=
  match a with
  | Fin x => match (x ?= 0)%Qc with Lt => Fin (- x) | _ => Fin x end
  | PInf | NInf => PInf
  | NaN => NaN
  end.

(** Comparisons: every comparison with NaN is false. *)
Definition dltb (a b : dbl) : bool :=
  match a, b with
  | Fin x, Fin y => match (x ?= y)%Qc with Lt => true | _ => false end
  | NInf, Fin _ | NInf, PInf | Fin _, PInf => true
  | _, _ => false
  end.

Definition deqb (a b : dbl) : bool :=
  match a, b with
  | Fin x, Fin y => Qc_eq_bool x y
  | PInf, PInf | NInf, NInf => true
  | _, _ => false
  end.

Definition dleb (a b : dbl) : bool := dltb a b || deqb a b.

(** [std::max(a, b)] is [(a < b) ? b : a]; [std::min(a, b)] is
    [(b < a) ? b : a]. *)
Definition dmax (a b : dbl) : dbl := if dltb a b then b else a.
Definition dmin (a b : dbl) : dbl := if dltb b a then b else a.

(** Sum of a list, left to right, starting from its first element. *)
Definition dsum (l : list dbl) : dbl :=
  match l with
  | [] => d0
  | x :: xs => fold_left dadd xs x
  end.

(** [|a - b| <= tol], the test behind [CHECK_CLOSE_ABS]. *)
Definition close_abs (a b tol : dbl) : bool := dleb (dabs (dsub a b)) tol.

End Dbl.

Export Dbl.

Declare Scope dbl_scope.
Delimit Scope dbl_scope with D.
Bind Scope dbl_scope with dbl.
Infix "+" := dadd : dbl_scope.
Infix "-" := dsub : dbl_scope.
Infix "*" := dmul : dbl_scope.
Infix "/" := ddiv : dbl_scope.
Notation "- x" := (dopp x) : dbl_scope.

(** Equality on finite values is decided by [deqb]. *)
Lemma deqb_eq (a b : dbl) : deqb a b = true -> a = b.
Proof.
  destruct a, b; simpl; try discriminate; try reflexivity.
  intros H. apply Qc_eq_bool_correct in H. now subst.
Qed.

Lemma Qc_eq_bool_refl (x : Qc) : Qc_eq_bool x x = true.
Proof.
  unfold Qc_eq_bool. destruct (Qc_eq_dec x x); [reflexivity | congruence].
Qed.

Lemma Qc_eq_bool_false (x y : Qc) : x <> y -> Qc_eq_bool x y = false.
Proof.
  intros H. unfold Qc_eq_bool. destruct (Qc_eq_dec x y); [contradiction | reflexivity].
Qed.

Lemma Qc_eq_bool_true_iff (x y : Qc) : Qc_eq_bool x y = true <-> x = y.
Proof.
  split; [apply Qc_eq_bool_correct | intros ->; apply Qc_eq_bool_refl].
Qed.

(* ================================================================== *)
(** * The part of Eigen the code uses *)
(* ================================================================== *)

Module Eigen.

Local Open Scope dbl_scope.

(** ** Fixed-size 3-vectors ([Acts::Vector3D]) *)

Record Vector3D : Type := mkVector3D { vx : dbl; vy : dbl; vz : dbl }.

Definition v3_zero : Vector3D := mkVector3D d0 d0 d0.

Definition v3_add (a b : Vector3D) : Vector3D :=
  mkVector3D (vx a + vx b) (vy a + vy b) (vz a + vz b).

Definition v3_sub (a b : Vector3D) : Vector3D :=
  mkVector3D (vx a - vx b) (vy a - vy b) (vz a - vz b).

(** [s * v] and [v / s] by a scalar. *)
Definition v3_scale (s : dbl) (a : Vector3D) : Vector3D :=
  mkVector3D (s * vx a) (s * vy a) (s * vz a).

Definition v3_div (a : Vector3D) (s : dbl) : Vector3D :=
  mkVector3D (vx a / s) (vy a / s) (vz a / s).

Definition v3_squaredNorm (a : Vector3D) : dbl :=
  vx a * vx a + vy a * vy a + vz a * vz a.

Definition v3_cross (a b : Vector3D) : Vector3D :=
  mkVector3D (vy a * vz b - vz a * vy b)
             (vz a * vx b - vx a * vz b)
             (vx a * vy b - vy a * vx b).

(** [lpNorm<1>()]: the sum of the absolute values. *)
Definition v3_lpNorm1 (a : Vector3D) : dbl :=
  dabs (vx a) + dabs (vy a) + dabs (vz a).

Definition v3_finite (a : Vector3D) : bool :=
  is_finite (vx a) && is_finite (vy a) && is_finite (vz a).

Definition v3_to_list (a : Vector3D) : list dbl := [vx a; vy a; vz a].

(** ** Dense vectors and matrices, row-major *)

Definition vec : Type := list dbl.
Definition mat : Type := list (list dbl).

Fixpoint map2 {A B C : Type} (f : A -> B -> C) (l : list A) (m : list B) : list C :=
  match l, m with
  | a :: l', b :: m' => f a b :: map2 f l' m'
  | _, _ => []
  end.

Definition vadd (u v : vec) : vec := map2 dadd u v.
Definition vsub (u v : vec) : vec := map2 dsub u v.
Definition vscale (s : dbl) (v : vec) : vec := map (dmul s) v.

Definition dot (u v : vec) : dbl := dsum (map2 dmul u v).

Fixpoint transpose (m : mat) : mat :=
  match m with
  | [] => []
  | [r] => map (fun x => [x]) r
  | r :: rs => map2 cons r (transpose rs)
  end.

Definition madd (a b : mat) : mat := map2 vadd a b.
Definition msub (a b : mat) : mat := map2 vsub a b.
Definition mscale (a : mat) (s : dbl) : mat := map (map (fun x => x * s)) a.

(** Matrix product, matrix times column vector, row vector times matrix. *)
Definition mmul (a b : mat) : mat :=
  map (fun row => map (dot row) (transpose b)) a.

Definition mvmul (a : mat) (v : vec) : vec := map (fun row => dot row v) a.

Definition vmmul (v : vec) (a : mat) : vec := map (dot v) (transpose a).

(** Outer product of a column vector and a row vector. *)
Definition outer (u v : vec) : mat := map (fun x => map (dmul x) v) u.

Definition unit_row (n i : nat) : vec :=
  map (fun j => if Nat.eqb i j then d1 else d0) (seq 0 n).

Definition Identity (n : nat) : mat := map (unit_row n) (seq 0 n).

Definition Zero_vec (n : nat) : vec := repeat d0 n.

Definition Zero (rows cols : nat) : mat := repeat (Zero_vec cols) rows.

(** Coefficient access; outside the matrix the model reads zero (the C++
    code only uses indices inside the fixed sizes). *)
Definition coeff (m : mat) (i j : nat) : dbl := nth j (nth i m []) d0.

Fixpoint set_nth {A : Type} (n : nat) (x : A) (l : list A) : list A :=
  match l, n with
  | [], _ => []
  | _ :: t, O => x :: t
  | h :: t, S n' => h :: set_nth n' x t
  end.

Definition set_coeff (m : mat) (i j : nat) (x : dbl) : mat :=
  set_nth i (set_nth j x (nth i m [])) m.

(** [v.segment<3>(i) = w] *)
Definition set_segment3 (v : vec) (i : nat) (w : Vector3D) : vec :=
  set_nth (i + 2) (vz w) (set_nth (i + 1) (vy w) (set_nth i (vx w) v)).

(** [m.block<3,3>(i, j) = b] *)
Definition set_block33 (m : mat) (i j : nat) (b : mat) : mat :=
  fold_left
    (fun acc r =>
       fold_left (fun acc' c => set_coeff acc' (i + r) (j + c) (coeff b r c))
                 (seq 0 3) acc)
    (seq 0 3) m.

(** [m.topLeftCorner<r, c>()] *)
Definition topLeftCorner (r c : nat) (m : mat) : mat :=
  map (firstn c) (firstn r m).

(** ** Inverse

    For fixed sizes up to 4 Eigen inverts through cofactors and one
    division [1 / det]; the 1x1 and 2x2 cases are spelled out as in
    [compute_inverse] and [compute_inverse_size2_helper].  For larger
    fixed sizes the model uses the same adjugate formula. *)

Definition remove_nth {A : Type} (n : nat) (l : list A) : list A :=
  firstn n l ++ skipn (S n) l.

Definition minor_matrix (m : mat) (i j : nat) : mat :=
  map (remove_nth j) (remove_nth i m).

Definition alt_sign (k : nat) (x : dbl) : dbl :=
  if Nat.even k then x else - x.

(** Laplace expansion along the first row; [n] is the dimension. *)
Fixpoint determinant_n (n : nat) (m : mat) : dbl :=
  match n with
  | O => d1
  | S n' =>
      match m with
      | [] => d1
      | row :: rest =>
          dsum (map (fun j =>
                       alt_sign j (nth j row d0 * determinant_n n' (map (remove_nth j) rest)))
                    (seq 0 (S n')))
      end
  end.

Definition determinant (m : mat) : dbl := determinant_n (length m) m.

Definition cofactor (m : mat) (i j : nat) : dbl :=
  alt_sign (i + j) (determinant (minor_matrix m i j)).

Definition inverse (m : mat) : mat :=
  match m with
  | [[a]] => [[d1 / a]]
  | [[a; b]; [c; d]] =>
      let invdet := d1 / (a * d - b * c) in
      [[d * invdet; (- b) * invdet]; [(- c) * invdet; a * invdet]]
  | _ =>
      let n := length m in
      let invdet := d1 / determinant m in
      map (fun i => map (fun j => cofactor m j i * invdet) (seq 0 n)) (seq 0 n)
  end.

(** Element-wise [|a - b| <= tol] for vectors and matrices. *)
Definition vclose_abs (u v : vec) (tol : dbl) : bool :=
  Nat.eqb (length u) (length v)
  && forallb (fun p => close_abs (fst p) (snd p) tol) (combine u v).

Definition mclose_abs (a b : mat) (tol : dbl) : bool :=
  Nat.eqb (length a) (length b)
  && forallb (fun p => vclose_abs (fst p) (snd p) tol) (combine a b).

Definition diagonal_matrix (d : vec) : mat :=
  map (fun i => set_nth i (nth i d d0) (Zero_vec (length d))) (seq 0 (length d)).

(** Boolean equality of vectors and matrices (NaN is equal to nothing). *)
Fixpoint vec_eqb (u v : vec) : bool :=
  match u, v with
  | [], [] => true
  | a :: u', b :: v' => deqb a b && vec_eqb u' v'
  | _, _ => false
  end.

Fixpoint mat_eqb (a b : mat) : bool :=
  match a, b with
  | [], [] => true
  | r :: a', s :: b' => vec_eqb r s && mat_eqb a' b'
  | _, _ => false
  end.

Definition v3_eqb (a b : Vector3D) : bool :=
  deqb (vx a) (vx b) && deqb (vy a) (vy b) && deqb (vz a) (vz b).

End Eigen.

Export Eigen.

Lemma vec_eqb_eq (u v : vec) : vec_eqb u v = true -> u = v.
Proof.
  revert v. induction u as [| a u IH]; intros [| b v]; simpl; try discriminate.
  - reflexivity.
  - intros H. apply andb_prop in H as [Hab Huv].
    apply deqb_eq in Hab. apply IH in Huv. now subst.
Qed.

Lemma mat_eqb_eq (a b : mat) : mat_eqb a b = true -> a = b.
Proof.
  revert b. induction a as [| r a IH]; intros [| s b]; simpl; try discriminate.
  - reflexivity.
  - intros H. apply andb_prop in H as [Hrs Hab].
    apply vec_eqb_eq in Hrs. apply IH in Hab. now subst.
Qed.

Lemma v3_eqb_eq (a b : Vector3D) : v3_eqb a b = true -> a = b.
Proof.
  destruct a, b. unfold v3_eqb. simpl. intros H.
  apply andb_prop in H as [H Hz]. apply andb_prop in H as [Hx Hy].
  apply deqb_eq in Hx, Hy, Hz. now subst.
Qed.

(** ** Arithmetic on finite values *)

Local Open Scope dbl_scope.

Lemma Q2Qc_neq0 (q : Q) : ~ (q == 0)%Q -> Q2Qc q <> 0%Qc.
Proof.
  intros H E. apply H. apply (f_equal this) in E. simpl in E.
  rewrite <- (Qred_correct q), E. reflexivity.
Qed.

Lemma ddiv_fin (a b : Qc) : b <> 0%Qc -> Fin a / Fin b = Fin (a / b).
Proof. intros H. simpl. now rewrite Qc_eq_bool_false. Qed.

Lemma dltb_fin (a b : Qc) : dltb (Fin a) (Fin b) = true <-> (a < b)%Qc.
Proof.
  simpl. rewrite Qclt_alt. destruct (a ?= b)%Qc; split; congruence.
Qed.

Lemma dleb_fin (a b : Qc) : dleb (Fin a) (Fin b) = true <-> (a <= b)%Qc.
Proof.
  unfold dleb. rewrite orb_true_iff, dltb_fin. simpl. rewrite Qc_eq_bool_true_iff.
  split.
  - intros [H | ->]; [now apply Qclt_le_weak | apply Qcle_refl].
  - intros H. destruct (Qc_eq_dec a b) as [-> | Hne]; [now right | left].
    apply Qcle_lt_or_eq in H. destruct H; [assumption | contradiction].
Qed.


Ltac qc2q :=
  unfold Qclt, Qcle, Qcdiv, Qcmult, Qcplus, Qcinv, Qcopp, Qcminus, Q2Qc in *;
  cbn [this] in *; rewrite ?Qred_correct in *.






Lemma Fin_inj (a b : Qc) : Fin a = Fin b -> a = b.
Proof.
  intros H.
  exact (f_equal (fun d => match d with Fin q => q | _ => a end) H).
Qed.

Lemma v3_finite_inv (a : Vector3D) :
  v3_finite a = true -> exists x y z : Qc, a = mkVector3D (Fin x) (Fin y) (Fin z).
Proof.
  destruct a as [[x | | |] [y | | |] [z | | |]]; try discriminate.
  intros _. now exists x, y, z.
Qed.

(** [a + 2 (b + c) + e = a + 2 b + 2 c + e] on finite vectors. *)
Lemma v3_add_twice_expand (a b c e : Vector3D) :
  v3_finite a = true -> v3_finite b = true ->
  v3_finite c = true -> v3_finite e = true ->
  v3_add (v3_add a (v3_scale (dlit 2) (v3_add b c))) e =
  v3_add (v3_add (v3_add a (v3_scale (dlit 2) b)) (v3_scale (dlit 2) c)) e.
Proof.
  intros Ha Hb Hc He.
  apply v3_finite_inv in Ha as (a0 & a1 & a2 & ->).
  apply v3_finite_inv in Hb as (b0 & b1 & b2 & ->).
  apply v3_finite_inv in Hc as (c0 & c1 & c2 & ->).
  apply v3_finite_inv in He as (e0 & e1 & e2 & ->).
  unfold v3_add, v3_scale, dlit. cbn.
  f_equal; f_equal; ring.
Qed.

(** A finite vector divided by its exact, non-zero norm has squared
    norm one. *)
Lemma renormalized_unit_length (d : Vector3D) (n : Qc) :
  v3_finite d = true -> n <> 0%Qc ->
  Fin n * Fin n = v3_squaredNorm d ->
  v3_squaredNorm (v3_div d (Fin n)) = d1.
Proof.
  intros Hd Hn Hsq.
  apply v3_finite_inv in Hd as (x & y & z & ->).
  unfold v3_squaredNorm, v3_div in *. cbn [vx vy vz] in *.
  rewrite !ddiv_fin by assumption.
  cbn [dmul dadd] in *. apply Fin_inj in Hsq.
  unfold d1, dlit. f_equal.
  replace (x / n * (x / n) + y / n * (y / n) + z / n * (z / n))%Qc
    with ((x * x + y * y + z * z) / (n * n))%Qc by (field; assumption).
  rewrite <- Hsq. field. assumption.
Qed.

Local Close Scope dbl_scope.

(* ================================================================== *)
(** * GainMatrixUpdater *)
(* ================================================================== *)

Module GainMatrixUpdater.

Local Open Scope dbl_scope.

(** Dimension of the bound parameter vector (l0, l1, phi, theta, q/p, t). *)
Definition BoundParsDim : nat := 6.

Section Updater.

(** Reference surfaces and source links are handles for the updater. *)
Variable Surface : Type.
Variable SourceLink : Type.

(** [BoundParameters]: the parameter vector, the covariance behind the
    [covariance()] pointer (which may be null) and the reference surface.
    The constructor from a parameter vector is outside the sources read
    here; the record stores the vector it is given. *)
Record BoundParameters : Type := mkBoundParameters {
  parameters : vec;
  covariance : option mat;
  referenceSurface : Surface
}.

(** A calibrated measurement: projector [H], covariance [V] and the
    measured local vector. *)
Record Measurement : Type := mkMeasurement {
  projector : mat;
  meas_covariance : mat;
  meas_parameters : vec
}.

(** Modelled from the spec: [Measurement::residual] is declared in
    Measurement.hpp, which is not among the sources; the spec gives
    "Residual = measured vector - (projection . predicted vector)". *)
Definition residual (m : Measurement) (pars : BoundParameters) : vec :=
  vsub (meas_parameters m) (mvmul (projector m) (parameters pars)).

(** The fields of [TrackState] the updater reads and writes. *)
Record TrackState : Type := mkTrackState {
  measurement_uncalibrated : option SourceLink;
  measurement_calibrated : option Measurement;
  parameter_predicted : option BoundParameters;
  parameter_filtered : option BoundParameters;
  parameter_chi2 : dbl
}.

(** The calibrator member [m_mCalibrator]. *)
Variable m_mCalibrator : SourceLink -> BoundParameters -> Measurement.

(** [GainMatrixUpdater::operator()].  The four [assert]s are debug-build
    checks and are not part of the function's result; dereferencing an
    empty [uncalibrated], an empty [predicted] or a null covariance
    pointer is undefined, which the model reports as [None]. *)
Definition call (trackState : TrackState) : option (bool * TrackState) :=
  match measurement_uncalibrated trackState, parameter_predicted trackState with
  | Some uncalibrated, Some predicted =>
      match covariance predicted with
      | Some predicted_covariance =>
          let calibrated := m_mCalibrator uncalibrated predicted in
          let H := projector calibrated in
          let K :=
            mmul (mmul predicted_covariance (transpose H))
                 (inverse (madd (mmul (mmul H predicted_covariance) (transpose H))
                                (meas_covariance calibrated))) in
          let filtered_parameters :=
            vadd (parameters predicted) (mvmul K (residual calibrated predicted)) in
          let filtered_covariance :=
            mmul (msub (Identity BoundParsDim) (mmul K H)) predicted_covariance in
          let filtered :=
            mkBoundParameters filtered_parameters (Some filtered_covariance)
                              (referenceSurface predicted) in
          let residual_f := residual calibrated filtered in
          let chi2 :=
            dot (vmmul residual_f
                       (inverse (mmul (msub (Identity (length (meas_covariance calibrated)))
                                            (mmul H K))
                                      (meas_covariance calibrated))))
                residual_f in
          Some (true,
                mkTrackState (measurement_uncalibrated trackState)
                             (Some calibrated)
                             (parameter_predicted trackState)
                             (Some filtered)
                             chi2)
      | None => None
      end
  | _, _ => None
  end.

(** ** The Kalman formulas as the specification writes them *)

Definition innovation_covariance (H P V : mat) : mat :=
  madd (mmul (mmul H P) (transpose H)) V.

Definition gain_matrix (H P V : mat) : mat :=
  mmul (mmul P (transpose H)) (inverse (innovation_covariance H P V)).

Definition filtered_mean (m : vec) (K : mat) (r : vec) : vec :=
  vadd m (mvmul K r).

Definition filtered_cov (K H P : mat) : mat :=
  mmul (msub (Identity BoundParsDim) (mmul K H)) P.

(** Covariance of the filtered residual, [(1 - H K) V]. *)
Definition filtered_residual_covariance (H K V : mat) : mat :=
  mmul (msub (Identity (length V)) (mmul H K)) V.

(** [r^T R^-1 r] *)
Definition chi2_of (r : vec) (R : mat) : dbl :=
  dot (vmmul r (inverse R)) r.

End Updater.

(** ** The regression scenario of GainMatrixUpdaterTests.cpp *)

(** [M_PI], the double nearest to pi. *)
Definition M_PI : dbl := dlit (884279719003555 # 281474976710656).

Inductive TestSurface : Type := cylinder.

(** [MeasurementType<eLOC_0, eLOC_1>(cylinder, {}, cov, -0.1, 0.45)] *)
Definition test_meas : Measurement :=
  mkMeasurement
    [[d1; d0; d0; d0; d0; d0]; [d0; d1; d0; d0; d0; d0]]
    [[dlit 0.04; d0]; [d0; dlit 0.1]]
    [dlit (-0.1); dlit 0.45].

Definition test_covTrk : mat :=
  diagonal_matrix [dlit 0.08; dlit 0.3; d1; d1; d1; d0].

Definition test_parValues : vec :=
  [dlit 0.3; dlit 0.5; dlit 0.5 * M_PI; dlit 0.3 * M_PI; dlit 0.01; d0].

Definition test_pars : BoundParameters TestSurface :=
  mkBoundParameters test_parValues (Some test_covTrk) cylinder.

(** The source link of the test points at the measurement; the default
    calibrator hands that measurement back. *)
Definition VoidMeasurementCalibrator
  (sl : Measurement) (_ : BoundParameters TestSurface) : Measurement := sl.

Definition test_mState : TrackState TestSurface Measurement :=
  mkTrackState (Some test_meas) None (Some test_pars) None d0.

Definition test_expCov : mat :=
  diagonal_matrix
    [dlit 0.0266667; dlit 0.0750000; dlit 1.0000000; dlit 1.0000000;
     dlit 1.0000000; dlit 0.0000000].

Definition test_expPar : vec :=
  [dlit 0.0333333; dlit 0.4625000; dlit 1.5707963; dlit 0.9424778;
   dlit 0.0100000; dlit 0.0000000].

Definition test_expChi2 : dbl := dlit 1.33958.

(** ** Degenerate inputs *)

(** A prediction known exactly and a measurement without error: the
    innovation covariance [H P H^T + V] is the zero matrix. *)
Definition exact_meas : Measurement :=
  mkMeasurement
    [[d1; d0; d0; d0; d0; d0]; [d0; d1; d0; d0; d0; d0]]
    (Zero 2 2)
    [dlit (-0.1); dlit 0.45].

Definition exact_pars : BoundParameters TestSurface :=
  mkBoundParameters test_parValues (Some (Zero 6 6)) cylinder.

Definition singular_mState : TrackState TestSurface Measurement :=
  mkTrackState (Some exact_meas) None (Some exact_pars) None d0.

(** Only the measurement covariance is singular; the prediction is the
    one of the regression scenario. *)
Definition exact_meas_mState : TrackState TestSurface Measurement :=
  mkTrackState (Some exact_meas) None (Some test_pars) None d0.

(** A prediction without covariance: [covariance()] is the null
    pointer. *)
Definition uncertain_pars : BoundParameters TestSurface :=
  mkBoundParameters test_parValues None cylinder.

Definition null_covariance_mState : TrackState TestSurface Measurement :=
  mkTrackState (Some test_meas) None (Some uncertain_pars) None d0.

Definition all_nonfinite (m : mat) : bool :=
  forallb (forallb (fun x => negb (is_finite x))) m.

(** The determinant the 1x1 or 2x2 inverse divides by compares equal to
    zero. *)
Definition divides_by_zero (m : mat) : bool :=
  match m with
  | [[a]] => deqb a d0
  | [[a; b]; [c; d]] => deqb (a * d - b * c) d0
  | _ => false
  end.

Definition some_nan (v : vec) : bool := existsb is_nan v.

(** ** Properties *)

Section UpdaterProperties.

Variable Surface : Type.
Variable SourceLink : Type.
Variable m_mCalibrator : SourceLink -> BoundParameters Surface -> Measurement.

(** What one call computes, written with the formulas of the
    specification. *)
Lemma call_unfold (ts : TrackState Surface SourceLink) u pred P :
  measurement_uncalibrated ts = Some u ->
  parameter_predicted ts = Some pred ->
  covariance pred = Some P ->
  let c := m_mCalibrator u pred in
  let H := projector c in
  let V := meas_covariance c in
  let K := gain_matrix H P V in
  let filtered :=
    mkBoundParameters (filtered_mean (parameters pred) K (residual c pred))
                      (Some (filtered_cov K H P)) (referenceSurface pred) in
  call m_mCalibrator ts =
    Some (true,
          mkTrackState (Some u) (Some c) (Some pred) (Some filtered)
                       (chi2_of (residual c filtered)
                                (filtered_residual_covariance H K V))).
Proof.
  intros Hu Hp Hc. unfold call. rewrite Hu, Hp, Hc. reflexivity.
Qed.

Lemma call_result_true (ts : TrackState Surface SourceLink) b ts' :
  call m_mCalibrator ts = Some (b, ts') -> b = true.
Proof.
  unfold call.
  destruct (measurement_uncalibrated ts); [| discriminate].
  destruct (parameter_predicted ts) as [pred |]; [| discriminate].
  destruct (covariance pred); [| discriminate].
  intros E. now inversion E.
Qed.

End UpdaterProperties.

(** A 1x1 or 2x2 inverse that divides by zero has no finite entry:
    [1 / det] is an infinity, and an infinity times any value is an
    infinity or NaN. *)
Lemma inf_signed_nonfinite x s : is_finite (inf_signed x s) = false.
Proof.
  unfold inf_signed. destruct (x ?= 0)%Qc, s; reflexivity.
Qed.

Lemma times_infinity_nonfinite (x : dbl) : is_finite (x * PInf) = false.
Proof.
  destruct x as [q | | |]; try reflexivity.
  cbn [dmul]. apply inf_signed_nonfinite.
Qed.

Lemma inverse_divides_by_zero (m : mat) :
  divides_by_zero m = true -> all_nonfinite (inverse m) = true.
Proof.
  destruct m as [| [| a [| b [| ? ?]]] [| [| c [| d [| ? ?]]] [| ? ?]]];
    cbn [divides_by_zero]; try discriminate.
  - intros H. apply deqb_eq in H. subst a. reflexivity.
  - intros H. apply deqb_eq in H.
    unfold inverse. rewrite H.
    replace (d1 / d0) with PInf by reflexivity.
    unfold all_nonfinite. cbn [forallb].
    rewrite !times_infinity_nonfinite. reflexivity.
Qed.

(** C1.  For a predicted state with parameter vector [m] and covariance
    [P] and a calibrated measurement with projector [H], covariance [V]
    and residual [r = measured - H m], the updater computes the gain
    [K = P H^T (H P H^T + V)^-1] and stores the filtered parameters
    [m + K r] with the filtered covariance [(1 - K H) P]. *)
Theorem gain_matrix_update
  (Surface SourceLink : Type)
  (m_mCalibrator : SourceLink -> BoundParameters Surface -> Measurement)
  (ts : TrackState Surface SourceLink) u pred P :
  measurement_uncalibrated ts = Some u ->
  parameter_predicted ts = Some pred ->
  covariance pred = Some P ->
  let c := m_mCalibrator u pred in
  let H := projector c in
  let V := meas_covariance c in
  let m := parameters pred in
  let r := vsub (meas_parameters c) (mvmul H m) in
  let K := mmul (mmul P (transpose H))
                (inverse (madd (mmul (mmul H P) (transpose H)) V)) in
  exists ts',
    call m_mCalibrator ts = Some (true, ts') /\
    measurement_calibrated ts' = Some c /\
    parameter_filtered ts' =
      Some (mkBoundParameters
              (vadd m (mvmul K r))
              (Some (mmul (msub (Identity BoundParsDim) (mmul K H)) P))
              (referenceSurface pred)).
Proof.
  intros Hu Hp Hc c H V m r K.
  eexists. split; [apply (call_unfold m_mCalibrator ts Hu Hp Hc) |].
  split; reflexivity.
Qed.

Lemma gain_matrix_update_witness :
  measurement_uncalibrated test_mState = Some test_meas /\
  parameter_predicted test_mState = Some test_pars /\
  covariance test_pars = Some test_covTrk /\
  exists ts',
    call VoidMeasurementCalibrator test_mState = Some (true, ts') /\
    measurement_calibrated ts' = Some test_meas /\
    parameter_filtered ts' =
      Some (mkBoundParameters
              (vadd test_parValues
                    (mvmul (gain_matrix (projector test_meas) test_covTrk
                                        (meas_covariance test_meas))
                           (vsub (meas_parameters test_meas)
                                 (mvmul (projector test_meas) test_parValues))))
              (Some (mmul (msub (Identity BoundParsDim)
                                (mmul (gain_matrix (projector test_meas) test_covTrk
                                                   (meas_covariance test_meas))
                                      (projector test_meas)))
                          test_covTrk))
              cylinder).
Proof.
  repeat split.
  exact (@gain_matrix_update TestSurface Measurement VoidMeasurementCalibrator
           test_mState test_meas test_pars test_covTrk eq_refl eq_refl eq_refl).
Defined.

(** C2.  The chi-square is computed from the filtered state:
    [chi2 = r^T ((1 - H K) V)^-1 r] with [r] the residual of the filtered
    parameters; and in the regression scenario (covariance diagonal
    [0.08, 0.3, 1, 1, 1, 0], measurement [-0.1, 0.45] with covariance
    diagonal [0.04, 0.1]) the filtered parameters and covariance agree
    with the reference values within 1e-6 and the chi-square with 1.33958
    within 1e-4. *)
Theorem chi2_of_filtered_state :
  (forall (Surface SourceLink : Type)
          (m_mCalibrator : SourceLink -> BoundParameters Surface -> Measurement)
          (ts : TrackState Surface SourceLink) u pred P,
      measurement_uncalibrated ts = Some u ->
      parameter_predicted ts = Some pred ->
      covariance pred = Some P ->
      let c := m_mCalibrator u pred in
      let H := projector c in
      let V := meas_covariance c in
      let K := gain_matrix H P V in
      exists ts' filtered,
        call m_mCalibrator ts = Some (true, ts') /\
        parameter_filtered ts' = Some filtered /\
        let r := vsub (meas_parameters c) (mvmul H (parameters filtered)) in
        parameter_chi2 ts' =
          dot (vmmul r (inverse (mmul (msub (Identity (length V)) (mmul H K)) V))) r)
  /\
  (exists ts' filtered cov,
      call VoidMeasurementCalibrator test_mState = Some (true, ts') /\
      parameter_filtered ts' = Some filtered /\
      covariance filtered = Some cov /\
      vclose_abs test_expPar (parameters filtered) (dlit 1e-6) = true /\
      mclose_abs test_expCov cov (dlit 1e-6) = true /\
      close_abs test_expChi2 (parameter_chi2 ts') (dlit 1e-4) = true /\
      parameter_chi2 ts' = dlit (643 # 480)).
Proof.
  split.
  - intros Surface SourceLink cal ts u pred P Hu Hp Hc c H V K.
    eexists. eexists.
    split; [apply (call_unfold cal ts Hu Hp Hc) |].
    split; reflexivity.
  - eexists. eexists. eexists.
    split;
      [apply (@call_unfold TestSurface Measurement VoidMeasurementCalibrator
                test_mState test_meas test_pars test_covTrk eq_refl eq_refl eq_refl) |].
    split; [reflexivity |].
    split; [reflexivity |].
    split; [vm_compute; reflexivity |].
    split; [vm_compute; reflexivity |].
    split; [vm_compute; reflexivity |].
    apply deqb_eq. vm_compute. reflexivity.
Qed.

(** C10, as the code has it.  For every track state with an
    uncalibrated measurement and a predicted state that carries a
    covariance, the call returns [true], and no call ever returns
    [false].  When the predicted state carries no covariance the null
    pointer is dereferenced and the call returns nothing. *)
Theorem updater_always_returns_true
  (Surface SourceLink : Type)
  (m_mCalibrator : SourceLink -> BoundParameters Surface -> Measurement)
  (ts : TrackState Surface SourceLink) u pred :
  measurement_uncalibrated ts = Some u ->
  parameter_predicted ts = Some pred ->
  (forall P, covariance pred = Some P ->
     exists ts', call m_mCalibrator ts = Some (true, ts')) /\
  (covariance pred = None -> call m_mCalibrator ts = None) /\
  (forall b ts', call m_mCalibrator ts = Some (b, ts') -> b = true).
Proof.
  intros Hu Hp. split; [| split].
  - intros P Hc. eexists. apply (call_unfold m_mCalibrator ts Hu Hp Hc).
  - intros Hc. unfold call. now rewrite Hu, Hp, Hc.
  - intros b ts'. apply call_result_true.
Qed.

(** C6, as the code has it.  The updater makes no invertibility test and
    has no error result: for every update on a predicted state with a
    covariance, whatever the innovation covariance [H P H^T + V] and the
    measurement covariance [V] are, the call returns [true] and stores
    the filtered parameters [m + K r], the filtered covariance
    [(1 - K H) P] and the chi-square [r_f^T ((1 - H K) V)^-1 r_f] the
    unguarded formulas give.  When the determinant a 1x1 or 2x2 inverse
    divides by is zero, for the innovation covariance or for
    [(1 - H K) V], that inverse has no finite entry. *)
Theorem singular_update_unsignalled
  (Surface SourceLink : Type)
  (m_mCalibrator : SourceLink -> BoundParameters Surface -> Measurement)
  (ts : TrackState Surface SourceLink) u pred P :
  measurement_uncalibrated ts = Some u ->
  parameter_predicted ts = Some pred ->
  covariance pred = Some P ->
  let c := m_mCalibrator u pred in
  let H := projector c in
  let V := meas_covariance c in
  let m := parameters pred in
  let S := madd (mmul (mmul H P) (transpose H)) V in
  let K := mmul (mmul P (transpose H)) (inverse S) in
  let filtered :=
    mkBoundParameters (vadd m (mvmul K (residual c pred)))
                      (Some (mmul (msub (Identity BoundParsDim) (mmul K H)) P))
                      (referenceSurface pred) in
  let R := mmul (msub (Identity (length V)) (mmul H K)) V in
  let r := residual c filtered in
  call m_mCalibrator ts =
    Some (true,
          mkTrackState (Some u) (Some c) (Some pred) (Some filtered)
                       (dot (vmmul r (inverse R)) r)) /\
  (divides_by_zero S = true -> all_nonfinite (inverse S) = true) /\
  (divides_by_zero R = true -> all_nonfinite (inverse R) = true).
Proof.
  intros Hu Hp Hc c H V m S K filtered R r.
  split; [apply (call_unfold m_mCalibrator ts Hu Hp Hc) |].
  split; apply inverse_divides_by_zero.
Qed.

(** The theorem on the two degenerate inputs: an innovation covariance
    that is the zero matrix, and a measurement covariance that is. *)
Lemma singular_update_unsignalled_witness :
  (let ts := singular_mState in
   let c := exact_meas in
   let pred := exact_pars in
   let P := Zero 6 6 in
   let H := projector c in
   let V := meas_covariance c in
   let m := parameters pred in
   let S := madd (mmul (mmul H P) (transpose H)) V in
   let K := mmul (mmul P (transpose H)) (inverse S) in
   let filtered :=
     mkBoundParameters (vadd m (mvmul K (residual c pred)))
                       (Some (mmul (msub (Identity BoundParsDim) (mmul K H)) P))
                       (referenceSurface pred) in
   let R := mmul (msub (Identity (length V)) (mmul H K)) V in
   let r := residual c filtered in
   measurement_uncalibrated ts = Some c /\
   parameter_predicted ts = Some pred /\
   covariance pred = Some P /\
   divides_by_zero S = true /\
   call VoidMeasurementCalibrator ts =
     Some (true,
           mkTrackState (Some c) (Some c) (Some pred) (Some filtered)
                        (dot (vmmul r (inverse R)) r)) /\
   (divides_by_zero S = true -> all_nonfinite (inverse S) = true) /\
   (divides_by_zero R = true -> all_nonfinite (inverse R) = true)) /\
  (let ts := exact_meas_mState in
   let c := exact_meas in
   let pred := test_pars in
   let P := test_covTrk in
   let H := projector c in
   let V := meas_covariance c in
   let m := parameters pred in
   let S := madd (mmul (mmul H P) (transpose H)) V in
   let K := mmul (mmul P (transpose H)) (inverse S) in
   let filtered :=
     mkBoundParameters (vadd m (mvmul K (residual c pred)))
                       (Some (mmul (msub (Identity BoundParsDim) (mmul K H)) P))
                       (referenceSurface pred) in
   let R := mmul (msub (Identity (length V)) (mmul H K)) V in
   let r := residual c filtered in
   measurement_uncalibrated ts = Some c /\
   parameter_predicted ts = Some pred /\
   covariance pred = Some P /\
   divides_by_zero R = true /\
   call VoidMeasurementCalibrator ts =
     Some (true,
           mkTrackState (Some c) (Some c) (Some pred) (Some filtered)
                        (dot (vmmul r (inverse R)) r)) /\
   (divides_by_zero S = true -> all_nonfinite (inverse S) = true) /\
   (divides_by_zero R = true -> all_nonfinite (inverse R) = true)).
Proof.
  cbv zeta. split.
  - do 3 (split; [reflexivity |]).
    split; [vm_compute; reflexivity |].
    exact (@singular_update_unsignalled TestSurface Measurement VoidMeasurementCalibrator
             singular_mState exact_meas exact_pars (Zero 6 6) eq_refl eq_refl eq_refl).
  - do 3 (split; [reflexivity |]).
    split; [vm_compute; reflexivity |].
    exact (@singular_update_unsignalled TestSurface Measurement VoidMeasurementCalibrator
             exact_meas_mState exact_meas test_pars test_covTrk eq_refl eq_refl eq_refl).
Defined.

(** C6, the claim as stated, fails.  With a prediction known exactly and
    an error-free measurement the innovation covariance is the zero
    matrix; the call still returns [true], and the filtered parameters
    and the chi-square are NaN.  With only the measurement covariance
    singular the call returns [true] and the chi-square is NaN. *)
Lemma singular_update_counterexample :
  determinant (innovation_covariance (projector exact_meas) (Zero 6 6)
                                     (meas_covariance exact_meas)) = d0 /\
  (exists ts' filtered,
      call VoidMeasurementCalibrator singular_mState = Some (true, ts') /\
      parameter_filtered ts' = Some filtered /\
      parameters filtered = [NaN; NaN; NaN; NaN; NaN; NaN] /\
      parameter_chi2 ts' = NaN) /\
  determinant (meas_covariance exact_meas) = d0 /\
  (exists ts',
      call VoidMeasurementCalibrator exact_meas_mState = Some (true, ts') /\
      parameter_chi2 ts' = NaN).
Proof.
  split; [apply deqb_eq; vm_compute; reflexivity |].
  split.
  { eexists. eexists.
    split;
      [apply (@call_unfold TestSurface Measurement VoidMeasurementCalibrator
                singular_mState exact_meas exact_pars (Zero 6 6) eq_refl eq_refl eq_refl) |].
    split; [reflexivity |].
    split; vm_compute; reflexivity. }
  split; [apply deqb_eq; vm_compute; reflexivity |].
  eexists.
  split;
    [apply (@call_unfold TestSurface Measurement VoidMeasurementCalibrator
              exact_meas_mState exact_meas test_pars test_covTrk eq_refl eq_refl eq_refl) |].
  vm_compute; reflexivity.
Qed.

Lemma updater_always_returns_true_witness :
  measurement_uncalibrated singular_mState = Some exact_meas /\
  parameter_predicted singular_mState = Some exact_pars /\
  covariance exact_pars = Some (Zero 6 6) /\
  (forall P, covariance exact_pars = Some P ->
     exists ts', call VoidMeasurementCalibrator singular_mState = Some (true, ts')) /\
  (covariance exact_pars = None ->
     call VoidMeasurementCalibrator singular_mState = None) /\
  (forall b ts', call VoidMeasurementCalibrator singular_mState = Some (b, ts') -> b = true).
Proof.
  do 3 (split; [reflexivity |]).
  exact (@updater_always_returns_true TestSurface Measurement VoidMeasurementCalibrator
           singular_mState exact_meas exact_pars eq_refl eq_refl).
Defined.

(** C10, the claim as stated, fails.  A track state with an uncalibrated
    measurement and a predicted state whose covariance pointer is null
    meets the premise of the claim; the call dereferences the pointer
    and returns nothing, so it does not return [true]. *)
Lemma updater_always_returns_true_counterexample :
  measurement_uncalibrated null_covariance_mState = Some test_meas /\
  parameter_predicted null_covariance_mState = Some uncertain_pars /\
  covariance uncertain_pars = None /\
  call VoidMeasurementCalibrator null_covariance_mState = None /\
  ~ (forall (ts : TrackState TestSurface Measurement) u pred,
       measurement_uncalibrated ts = Some u ->
       parameter_predicted ts = Some pred ->
       exists ts', call VoidMeasurementCalibrator ts = Some (true, ts')).
Proof.
  do 4 (split; [reflexivity |]).
  intros Hall.
  destruct (Hall null_covariance_mState test_meas uncertain_pars eq_refl eq_refl)
    as [ts' Hts].
  discriminate Hts.
Qed.

End GainMatrixUpdater.

(* ================================================================== *)
(** * What the two steppers share *)
(* ================================================================== *)

Module Acts.

Local Open Scope dbl_scope.

(** [EigenStepperError] *)
Inductive EigenStepperError : Type := StepSizeStalled | StepInvalid.

(** [Acts::Result<T>] with the stepper's error code. *)
Inductive Result (T : Type) : Type :=
| Ok (value : T)
| Err (error : EigenStepperError).

Arguments Ok {T} value.
Arguments Err {T} error.

(** [NavigationDirection]: [forward = 1], [backward = -1]. *)
Inductive NavigationDirection : Type := forward | backward.

Definition navDir_value (d : NavigationDirection) : dbl :=
  match d with forward => dlit 1 | backward => dlit (-1) end.

(** [1_mm] of [Acts::UnitLiterals]: millimetres are the native length unit. *)
Definition _mm : dbl := dlit 1.

Definition s_curvilinearProjTolerance : dbl := dlit 0.999995.

Definition FreeParsDim : nat := 8.

(** libm *)
Class Libm : Type := {
  sqrt : dbl -> dbl;
  pow : dbl -> dbl -> dbl;
  hypot : dbl -> dbl -> dbl
}.


(** [norm()] and [normalized()] of a 3-vector.  [normalized()] divides
    by the norm only when the squared norm is positive and hands the
    vector back unchanged otherwise. *)
Definition v3_norm `{Libm} (a : Vector3D) : dbl := sqrt (v3_squaredNorm a).

Definition v3_normalized `{Libm} (a : Vector3D) : Vector3D :=
  let z := v3_squaredNorm a in
  if dltb d0 z then v3_div a (sqrt z) else a.

(** The surface methods covariance transport calls. *)
Class SurfaceInterface (Surface : Type) : Type := {
  (* fills [jacToLocal], returns the transposed reference frame *)
  initJacobianToLocal : Surface -> Vector3D -> Vector3D -> mat * mat;
  derivativeFactors : Surface -> Vector3D -> Vector3D -> mat -> mat -> vec;
  initJacobianToGlobal : Surface -> Vector3D -> Vector3D -> vec -> mat
}.

(** Track parameters as the steppers see them. *)
Class ParametersInterface (Surface Pars : Type) : Type := {
  position : Pars -> Vector3D;
  momentum : Pars -> Vector3D;
  charge : Pars -> dbl;
  time : Pars -> dbl;
  par_parameters : Pars -> vec;
  par_covariance : Pars -> option mat;
  globalCovariance : Pars -> mat;
  par_referenceSurface : Pars -> Surface
}.

(** Constructors of the bound and curvilinear parameters a stepper
    returns: covariance pointer, position, momentum, charge, time and,
    for bound parameters, the surface. *)
Class ParametersConstructors (Surface BoundPars CurvPars : Type) : Type := {
  BoundParameters_ctor :
    option mat -> Vector3D -> Vector3D -> dbl -> dbl -> Surface -> BoundPars;
  CurvilinearParameters_ctor :
    option mat -> Vector3D -> Vector3D -> dbl -> dbl -> CurvPars
}.

(** The operations the stepper concept names: [boundState],
    [curvilinearState], the two [update]s, the two
    [covarianceTransport]s and [step]. *)
Record StepperInterface (State PropState Surface Pars BoundState CurvState : Type)
  : Type := mkStepperInterface {
  i_boundState : State -> Surface -> bool -> BoundState * State;
  i_curvilinearState : State -> bool -> CurvState * State;
  i_update : State -> Pars -> State;
  i_update_free : State -> Vector3D -> Vector3D -> dbl -> dbl -> State;
  i_covarianceTransport : State -> bool -> State;
  i_covarianceTransport_surface : State -> Surface -> bool -> State;
  i_step : PropState -> Result dbl * PropState
}.

(** The jacobian from free to curvilinear parameters, a 6x8 matrix
    (written out in [EigenStepper::covarianceTransport] and in
    [StraightLineStepper::freeToCurvilinearJacobian]). *)
Definition freeToCurvilinearJacobian `{Libm} (dir : Vector3D) : mat :=
  let x := vx dir in
  let y := vy dir in
  let z := vz dir in
  let cosTheta := z in
  let sinTheta := sqrt (x * x + y * y) in
  let invSinTheta := d1 / sinTheta in
  let cosPhi := x * invSinTheta in
  let sinPhi := y * invSinTheta in
  let jacToCurv := Zero 6 8 in
  let jacToCurv :=
    if dltb (dabs cosTheta) s_curvilinearProjTolerance then
      let j := set_coeff jacToCurv 0 0 (- sinPhi) in
      let j := set_coeff j 0 1 cosPhi in
      let j := set_coeff j 1 0 ((- cosPhi) * cosTheta) in
      let j := set_coeff j 1 1 ((- sinPhi) * cosTheta) in
      set_coeff j 1 2 sinTheta
    else
      let c := sqrt (y * y + z * z) in
      let invC := d1 / c in
      let j := set_coeff jacToCurv 0 1 ((- z) * invC) in
      let j := set_coeff j 0 2 (y * invC) in
      let j := set_coeff j 1 0 c in
      let j := set_coeff j 1 1 ((- x) * y * invC) in
      set_coeff j 1 2 ((- x) * z * invC) in
  let j := set_coeff jacToCurv 5 3 d1 in
  let j := set_coeff j 2 4 ((- sinPhi) * invSinTheta) in
  let j := set_coeff j 2 5 (cosPhi * invSinTheta) in
  let j := set_coeff j 3 6 (- invSinTheta) in
  set_coeff j 4 7 d1.

End Acts.

Export Acts.

(* ================================================================== *)
(** * EigenStepper *)
(* ================================================================== *)

Module EigenStepper.

Local Open Scope dbl_scope.

(** The Runge-Kutta data kept between the trials of one step. *)
Record StepData : Type := mkStepData {
  B_first : Vector3D;
  B_middle : Vector3D;
  B_last : Vector3D;
  k1 : Vector3D;
  k2 : Vector3D;
  k3 : Vector3D;
  k4 : Vector3D
}.

(** [EigenStepper::State], with the members the functions below use.
    [E] is the data of the extension list.  [stepSize] is a
    [ConstrainedStep] that the code reads and assigns as a [double]. *)
Record State (E : Type) : Type := mkState {
  pos : Vector3D;
  dir : Vector3D;
  p : dbl;
  q : dbl;
  t0 : dbl;
  dt : dbl;
  navDir : NavigationDirection;
  stepSize : dbl;
  pathAccumulated : dbl;
  covTransport : bool;
  cov : mat;
  jacobian : mat;
  jacTransport : mat;
  derivative : vec;
  stepData : StepData;
  extension : E
}.

(** The propagator options [step] reads. *)
Record Options : Type := mkOptions {
  tolerance : dbl;
  stepSizeCutOff : dbl;
  mass : dbl
}.

Record PropagatorState (E : Type) : Type := mkPropagatorState {
  stepping : State E;
  options : Options
}.

(** What [finalize] may write: momentum, time, derivative vector and the
    extension's own data. *)
Record FinalizeEffect (E : Type) : Type := mkFinalizeEffect {
  fe_p : dbl;
  fe_dt : dbl;
  fe_derivative : vec;
  fe_extension : E
}.

(** The extension list, the template parameter [E] of the stepper.  Its
    header is not among the sources.  Every call takes the propagator
    state by reference and returns [bool]; the model lets
    [validExtensionForStep] and [k1] ... [k4] write the extension's own
    data and the vector they are handed, and [finalize] the members
    listed in [FinalizeEffect] and the matrix [D].

    - [ext_k1 state B_first]
    - [ext_k2 state B_middle half_h k1], [ext_k3] and [ext_k4] alike
    - [ext_finalize state h], [ext_finalizeD state h] *)
Class Extension (E : Type) : Type := {
  validExtensionForStep : PropagatorState E -> bool * E;
  ext_k1 : PropagatorState E -> Vector3D -> bool * Vector3D * E;
  ext_k2 : PropagatorState E -> Vector3D -> dbl -> Vector3D -> bool * Vector3D * E;
  ext_k3 : PropagatorState E -> Vector3D -> dbl -> Vector3D -> bool * Vector3D * E;
  ext_k4 : PropagatorState E -> Vector3D -> dbl -> Vector3D -> bool * Vector3D * E;
  ext_finalize : PropagatorState E -> dbl -> bool * FinalizeEffect E;
  ext_finalizeD : PropagatorState E -> dbl -> bool * FinalizeEffect E * mat
}.

(** The magnetic field, template parameter [B]; the field cache only
    speeds the lookup up and is left out. *)
Class MagneticField : Type := {
  bField_getField : Vector3D -> Vector3D
}.

Section Setters.

Variable E : Type.
Implicit Types (s : State E) (ps : PropagatorState E).

Definition set_pos s v :=
  mkState v (dir s) (p s) (q s) (t0 s) (dt s) (navDir s) (stepSize s)
          (pathAccumulated s) (covTransport s) (cov s) (jacobian s)
          (jacTransport s) (derivative s) (stepData s) (extension s).

Definition set_dir s v :=
  mkState (pos s) v (p s) (q s) (t0 s) (dt s) (navDir s) (stepSize s)
          (pathAccumulated s) (covTransport s) (cov s) (jacobian s)
          (jacTransport s) (derivative s) (stepData s) (extension s).

Definition set_p s v :=
  mkState (pos s) (dir s) v (q s) (t0 s) (dt s) (navDir s) (stepSize s)
          (pathAccumulated s) (covTransport s) (cov s) (jacobian s)
          (jacTransport s) (derivative s) (stepData s) (extension s).

Definition set_dt s v :=
  mkState (pos s) (dir s) (p s) (q s) (t0 s) v (navDir s) (stepSize s)
          (pathAccumulated s) (covTransport s) (cov s) (jacobian s)
          (jacTransport s) (derivative s) (stepData s) (extension s).

Definition set_stepSize s v :=
  mkState (pos s) (dir s) (p s) (q s) (t0 s) (dt s) (navDir s) v
          (pathAccumulated s) (covTransport s) (cov s) (jacobian s)
          (jacTransport s) (derivative s) (stepData s) (extension s).

Definition set_pathAccumulated s v :=
  mkState (pos s) (dir s) (p s) (q s) (t0 s) (dt s) (navDir s) (stepSize s)
          v (covTransport s) (cov s) (jacobian s)
          (jacTransport s) (derivative s) (stepData s) (extension s).

Definition set_cov s v :=
  mkState (pos s) (dir s) (p s) (q s) (t0 s) (dt s) (navDir s) (stepSize s)
          (pathAccumulated s) (covTransport s) v (jacobian s)
          (jacTransport s) (derivative s) (stepData s) (extension s).

Definition set_jacobian s v :=
  mkState (pos s) (dir s) (p s) (q s) (t0 s) (dt s) (navDir s) (stepSize s)
          (pathAccumulated s) (covTransport s) (cov s) v
          (jacTransport s) (derivative s) (stepData s) (extension s).

Definition set_jacTransport s v :=
  mkState (pos s) (dir s) (p s) (q s) (t0 s) (dt s) (navDir s) (stepSize s)
          (pathAccumulated s) (covTransport s) (cov s) (jacobian s)
          v (derivative s) (stepData s) (extension s).

Definition set_derivative s v :=
  mkState (pos s) (dir s) (p s) (q s) (t0 s) (dt s) (navDir s) (stepSize s)
          (pathAccumulated s) (covTransport s) (cov s) (jacobian s)
          (jacTransport s) v (stepData s) (extension s).

Definition set_stepData s v :=
  mkState (pos s) (dir s) (p s) (q s) (t0 s) (dt s) (navDir s) (stepSize s)
          (pathAccumulated s) (covTransport s) (cov s) (jacobian s)
          (jacTransport s) (derivative s) v (extension s).

Definition set_extension s (v : E) :=
  mkState (pos s) (dir s) (p s) (q s) (t0 s) (dt s) (navDir s) (stepSize s)
          (pathAccumulated s) (covTransport s) (cov s) (jacobian s)
          (jacTransport s) (derivative s) (stepData s) v.

Definition set_stepping ps s := mkPropagatorState s (options ps).

Definition set_B_first (sd : StepData) v :=
  mkStepData v (B_middle sd) (B_last sd) (k1 sd) (k2 sd) (k3 sd) (k4 sd).
Definition set_B_middle (sd : StepData) v :=
  mkStepData (B_first sd) v (B_last sd) (k1 sd) (k2 sd) (k3 sd) (k4 sd).
Definition set_B_last (sd : StepData) v :=
  mkStepData (B_first sd) (B_middle sd) v (k1 sd) (k2 sd) (k3 sd) (k4 sd).
Definition set_k1 (sd : StepData) v :=
  mkStepData (B_first sd) (B_middle sd) (B_last sd) v (k2 sd) (k3 sd) (k4 sd).
Definition set_k2 (sd : StepData) v :=
  mkStepData (B_first sd) (B_middle sd) (B_last sd) (k1 sd) v (k3 sd) (k4 sd).
Definition set_k3 (sd : StepData) v :=
  mkStepData (B_first sd) (B_middle sd) (B_last sd) (k1 sd) (k2 sd) v (k4 sd).
Definition set_k4 (sd : StepData) v :=
  mkStepData (B_first sd) (B_middle sd) (B_last sd) (k1 sd) (k2 sd) (k3 sd) v.

(** Writing a Runge-Kutta datum and the extension data into the
    propagator state. *)
Definition with_sd ps (f : StepData -> StepData) : PropagatorState E :=
  set_stepping ps (set_stepData (stepping ps) (f (stepData (stepping ps)))).

Definition with_ext ps (e : E) : PropagatorState E :=
  set_stepping ps (set_extension (stepping ps) e).

End Setters.

Section Stepper.

Context {libm : Libm}.
Context {E : Type} {extensionE : Extension E}.
Context {m_bField : MagneticField}.

Implicit Types (state : PropagatorState E).

(** [getField(state.stepping, pos)] *)
Definition getField (s : State E) (at_pos : Vector3D) : Vector3D :=
  bField_getField at_pos.

(** The locals of [step] the lambda captures by reference.  [h2] and
    [half_h] are uninitialised before the first trial, which writes
    them before anything reads them. *)
Record Locals : Type := mkLocals {
  error_estimate : dbl;
  h2 : dbl;
  half_h : dbl
}.

Definition Locals_init : Locals := mkLocals (dlit 0) d0 d0.

(** The error estimate of a trial with step size squared [h2]. *)
Definition error_estimate_of (h2 : dbl) (sd : StepData) : dbl :=
  dmax (h2 * v3_lpNorm1 (v3_add (v3_sub (v3_sub (k1 sd) (k2 sd)) (k3 sd)) (k4 sd)))
       (dlit 1e-20).

(** The lambda [tryRungeKuttaStep], first part: the second, third and
    last Runge-Kutta point.  The result is [false] as soon as one of
    [k2], [k3], [k4] returns [false]. *)
Definition runge_kutta_points state (h : dbl) : bool * PropagatorState E :=
  let h2 := h * h in
  let half_h := h * dlit 0.5 in
  (* Second Runge-Kutta point *)
  let pos1 :=
    v3_add (v3_add (pos (stepping state)) (v3_scale half_h (dir (stepping state))))
           (v3_scale (h2 * dlit 0.125) (k1 (stepData (stepping state)))) in
  let Bm := getField (stepping state) pos1 in
  let state := with_sd state (fun sd => set_B_middle sd Bm) in
  let '(ok2, knew2, e2) :=
    ext_k2 state Bm half_h (k1 (stepData (stepping state))) in
  let state := with_ext (with_sd state (fun sd => set_k2 sd knew2)) e2 in
  if negb ok2 then (false, state) else
  (* Third Runge-Kutta point *)
  let '(ok3, knew3, e3) :=
    ext_k3 state Bm half_h (k2 (stepData (stepping state))) in
  let state := with_ext (with_sd state (fun sd => set_k3 sd knew3)) e3 in
  if negb ok3 then (false, state) else
  (* Last Runge-Kutta point *)
  let pos2 :=
    v3_add (v3_add (pos (stepping state)) (v3_scale h (dir (stepping state))))
           (v3_scale (h2 * dlit 0.5) (k3 (stepData (stepping state)))) in
  let Bl := getField (stepping state) pos2 in
  let state := with_sd state (fun sd => set_B_last sd Bl) in
  let '(ok4, knew4, e4) :=
    ext_k4 state Bl h (k3 (stepData (stepping state))) in
  let state := with_ext (with_sd state (fun sd => set_k4 sd knew4)) e4 in
  (ok4, state).

(** The lambda [tryRungeKuttaStep]: [h2] and [half_h] are written first;
    the error estimate is written only when the three points were
    computed. *)
Definition tryRungeKuttaStep state (loc : Locals) (h : dbl)
  : bool * PropagatorState E * Locals :=
  let h2 := h * h in
  let half_h := h * dlit 0.5 in
  let '(computed, state) := runge_kutta_points state h in
  if negb computed then (false, state, mkLocals (error_estimate loc) h2 half_h) else
  (* Compute and check the local integration error estimate *)
  let err := error_estimate_of h2 (stepData (stepping state)) in
  (dleb err (tolerance (options state)), state, mkLocals err h2 half_h).

(** [stepSizeScaling] *)
Definition stepSizeScaling_of (tol err : dbl) : dbl :=
  dmin (dmax (dlit 0.25) (pow (tol / dabs (dlit 2 * err)) (dlit 0.25))) (dlit 4).

(** How the [while] loop is left. *)
Inductive LoopExit : Type :=
| Accepted      (* the trial met the tolerance *)
| UnitScaling   (* [stepSizeScaling == 1.]: break *)
| LastResort    (* [++stepAttempts == 100]: 1 mm step, break *)
| Stalled       (* return StepSizeStalled *)
| OutOfFuel.    (* not reached, see [rk_loop_exits] *)

Inductive Iteration : Type :=
| Continue (state : PropagatorState E) (loc : Locals) (stepAttempts : nat)
| Exit (how : LoopExit) (state : PropagatorState E) (loc : Locals) (stepAttempts : nat).

Definition with_stepSize state (h : dbl) : PropagatorState E :=
  set_stepping state (set_stepSize (stepping state) h).

(** One evaluation of the loop condition and, when the trial fails, of
    the loop body. *)
Definition rk_iteration state (loc : Locals) (stepAttempts : nat) : Iteration :=
  let '(ok, state, loc) := tryRungeKuttaStep state loc (stepSize (stepping state)) in
  if ok then Exit Accepted state loc stepAttempts else
  let stepSizeScaling :=
    stepSizeScaling_of (tolerance (options state)) (error_estimate loc) in
  if deqb stepSizeScaling (dlit 1) then Exit UnitScaling state loc stepAttempts else
  let state := with_stepSize state (stepSize (stepping state) * stepSizeScaling) in
  let stepAttempts := S stepAttempts in
  if Nat.eqb stepAttempts 100 then
    Exit LastResort
         (with_stepSize state (navDir_value (navDir (stepping state)) * _mm))
         loc stepAttempts
  else
  if dltb (stepSize (stepping state) * stepSize (stepping state))
          (stepSizeCutOff (options state) * stepSizeCutOff (options state))
  then Exit Stalled state loc stepAttempts
  else Continue state loc stepAttempts.

(** The [while] loop. *)
Fixpoint rk_loop (fuel : nat) state (loc : Locals) (stepAttempts : nat)
  : LoopExit * PropagatorState E * Locals * nat :=
  match fuel with
  | O => (OutOfFuel, state, loc, stepAttempts)
  | S fuel' =>
      match rk_iteration state loc stepAttempts with
      | Exit how state' loc' n' => (how, state', loc', n')
      | Continue state' loc' n' => rk_loop fuel' state' loc' n'
      end
  end.

(** The statements of [step] after the loop. *)
Definition apply_finalize (s : State E) (fe : FinalizeEffect E) : State E :=
  set_extension
    (set_derivative (set_dt (set_p s (fe_p fe)) (fe_dt fe)) (fe_derivative fe))
    (fe_extension fe).

Definition position_increment (h h2 : dbl) (d : Vector3D) (sd : StepData) : Vector3D :=
  v3_add (v3_scale h d)
         (v3_scale (h2 / dlit 6) (v3_add (v3_add (k1 sd) (k2 sd)) (k3 sd))).

Definition direction_increment (h : dbl) (sd : StepData) : Vector3D :=
  v3_scale (h / dlit 6)
           (v3_add (v3_add (k1 sd) (v3_scale (dlit 2) (v3_add (k2 sd) (k3 sd))))
                   (k4 sd)).

Definition update_track (s : State E) (h h2 : dbl) : State E :=
  let sd := stepData s in
  let s := set_pos s (v3_add (pos s) (position_increment h h2 (dir s) sd)) in
  let s := set_dir s (v3_add (dir s) (direction_increment h sd)) in
  let s := set_dir s (v3_div (dir s) (v3_norm (dir s))) in
  let s :=
    if covTransport s then
      set_derivative s
        (set_segment3 (set_segment3 (derivative s) 0 (dir s)) 4 (k4 sd))
    else s in
  set_pathAccumulated s (pathAccumulated s + h).

Definition finish_step state (loc : Locals) : Result dbl * PropagatorState E :=
  let h := stepSize (stepping state) in
  if covTransport (stepping state) then
    let '(ok, fe, D) := ext_finalizeD state h in
    let state := set_stepping state (apply_finalize (stepping state) fe) in
    if negb ok then (Err StepInvalid, state) else
    let state :=
      set_stepping state
        (set_jacTransport (stepping state) (mmul D (jacTransport (stepping state)))) in
    (Ok h, set_stepping state (update_track (stepping state) h (h2 loc)))
  else
    let '(ok, fe) := ext_finalize state h in
    let state := set_stepping state (apply_finalize (stepping state) fe) in
    if negb ok then (Err StepInvalid, state) else
    (Ok h, set_stepping state (update_track (stepping state) h (h2 loc))).

(** The statements before the loop: the state in which the loop starts,
    and [false] when the extension declines the step ([return 0.]). *)
Definition begin_step state : PropagatorState E * bool :=
  let Bf := getField (stepping state) (pos (stepping state)) in
  let state := with_sd state (fun sd => set_B_first sd Bf) in
  let '(valid, e0) := validExtensionForStep state in
  let state := with_ext state e0 in
  if negb valid then (state, false) else
  let '(ok1, knew1, e1) := ext_k1 state Bf in
  let state := with_ext (with_sd state (fun sd => set_k1 sd knew1)) e1 in
  (state, ok1).

(** [EigenStepper::step] *)
Definition step state : Result dbl * PropagatorState E :=
  let '(state, go) := begin_step state in
  if negb go then (Ok (dlit 0), state) else
  match rk_loop 100 state Locals_init 0 with
  | (Stalled, state, _, _) => (Err StepSizeStalled, state)
  | (_, state, loc, _) => finish_step state loc
  end.

(** The loop states a run of the loop passes through. *)
Inductive reaches :
  PropagatorState E -> Locals -> nat -> PropagatorState E -> Locals -> nat -> Prop :=
| reaches_here s l n : reaches s l n s l n
| reaches_next s l n s1 l1 n1 s2 l2 n2 :
    rk_iteration s l n = Continue s1 l1 n1 ->
    reaches s1 l1 n1 s2 l2 n2 ->
    reaches s l n s2 l2 n2.

(** [k] passes through the loop, as long as it is not left. *)
Fixpoint run_iterations (k : nat) state (loc : Locals) (n : nat)
  : option (PropagatorState E * Locals * nat) :=
  match k with
  | O => Some (state, loc, n)
  | S k' =>
      match rk_iteration state loc n with
      | Continue s1 l1 n1 => run_iterations k' s1 l1 n1
      | Exit _ _ _ _ => None
      end
  end.

(** Everything in the stepper state but the step size, the Runge-Kutta
    data and the extension data. *)
Definition frame_of (s : State E) :=
  (pos s, dir s, p s, q s, t0 s, dt s, navDir s, pathAccumulated s,
   covTransport s, cov s, jacobian s, jacTransport s, derivative s).

End Stepper.

(** ** Binding the state to a frame, and updating it *)

Section Binding.

Context {libm : Libm}.
Context {E : Type} {extensionE : Extension E}.
Context {m_bField : MagneticField}.
Context {Surface : Type} {surfaceI : SurfaceInterface Surface}.
Context {BoundParameters CurvilinearParameters : Type}.
Context {parsI : ParametersInterface Surface BoundParameters}.
Context {parsC : ParametersConstructors Surface BoundParameters CurvilinearParameters}.

(** The full jacobian [jacTransport - derivative * factors] and the
    covariance transported with it. *)
Definition jacFull_of (s : State E) (factors : vec) : mat :=
  msub (jacTransport s) (outer (derivative s) factors).

Definition transported (jacFull c : mat) : mat :=
  mmul (mmul jacFull c) (transpose jacFull).

(** [covarianceTransport(state, reinitialize)]: to the curvilinear frame. *)
Definition covarianceTransport (state : State E) (reinitialize : bool)
  : mat * State E :=
  let jacToCurv := freeToCurvilinearJacobian (dir state) in
  let normVec := v3_to_list (dir state) in
  let sfactors := vmmul normVec (topLeftCorner 3 FreeParsDim (jacTransport state)) in
  let jacFull := jacFull_of state sfactors in
  let state := set_cov state (transported jacFull (cov state)) in
  let state :=
    if reinitialize then set_jacTransport state (Identity FreeParsDim) else state in
  let state := set_jacobian state (mmul jacFull (jacobian state)) in
  (mmul (mmul jacToCurv (cov state)) (transpose jacToCurv), state).

(** [covarianceTransport(state, surface, reinitialize)]: to a surface. *)
Definition covarianceTransport_surface (state : State E) (surface : Surface)
  (reinitialize : bool) : mat * State E :=
  let '(jacToLocal, rframeT) := initJacobianToLocal surface (pos state) (dir state) in
  let sVec :=
    derivativeFactors surface (pos state) (dir state) rframeT (jacTransport state) in
  let jacFull := jacFull_of state sVec in
  let state := set_cov state (transported jacFull (cov state)) in
  let state :=
    if reinitialize then
      set_derivative (set_jacTransport state (Identity FreeParsDim))
                     (Zero_vec FreeParsDim)
    else state in
  let state := set_jacobian state (mmul jacFull (jacobian state)) in
  (mmul (mmul jacToLocal (cov state)) (transpose jacToLocal), state).

Definition BoundState : Type := BoundParameters * mat * dbl.
Definition CurvilinearState : Type := CurvilinearParameters * mat * dbl.

(** [boundState(state, surface, reinitialize)] *)
Definition boundState (state : State E) (surface : Surface) (reinitialize : bool)
  : BoundState * State E :=
  let '(covPtr, state) :=
    if covTransport state then
      let '(c, state') := covarianceTransport_surface state surface reinitialize in
      (Some c, state')
    else (None, state) in
  let parameters :=
    BoundParameters_ctor covPtr (pos state) (v3_scale (p state) (dir state))
                         (q state) (t0 state + dt state) surface in
  let bState := (parameters, jacobian state, pathAccumulated state) in
  let state :=
    if reinitialize then set_jacobian state (Identity FreeParsDim) else state in
  (bState, state).

(** [curvilinearState(state, reinitialize)] *)
Definition curvilinearState (state : State E) (reinitialize : bool)
  : CurvilinearState * State E :=
  let '(covPtr, state) :=
    if covTransport state then
      let '(c, state') := covarianceTransport state reinitialize in
      (Some c, state')
    else (None, state) in
  let parameters :=
    CurvilinearParameters_ctor covPtr (pos state) (v3_scale (p state) (dir state))
                               (q state) (t0 state + dt state) in
  let curvState := (parameters, jacobian state, pathAccumulated state) in
  let state :=
    if reinitialize then set_jacobian state (Identity FreeParsDim) else state in
  (curvState, state).

(** [update(state, pars)] *)
Definition update (state : State E) (pars : BoundParameters) : State E :=
  let mom := momentum pars in
  let state := set_pos state (position pars) in
  let state := set_dir state (v3_normalized mom) in
  let state := set_p state (v3_norm mom) in
  let state := set_dt state (time pars) in
  match par_covariance pars with
  | Some _ => set_cov state (globalCovariance pars)
  | None => state
  end.

(** [update(state, uposition, udirection, up, time)] *)
Definition update_free (state : State E) (uposition udirection : Vector3D)
  (up time : dbl) : State E :=
  set_dt (set_p (set_dir (set_pos state uposition) udirection) up) time.

(** The stepper as an implementation of the stepper concept.  The two
    [covarianceTransport]s of this stepper also return the transported
    covariance; the record keeps their effect on the state, the shape
    they have in the StraightLineStepper. *)
Definition Stepper_interface :
  StepperInterface (State E) (PropagatorState E) Surface BoundParameters
                   BoundState CurvilinearState :=
  {| i_boundState := boundState;
     i_curvilinearState := curvilinearState;
     i_update := update;
     i_update_free := update_free;
     i_covarianceTransport := fun s r => snd (covarianceTransport s r);
     i_covarianceTransport_surface := fun s sf r => snd (covarianceTransport_surface s sf r);
     i_step := step |}.

End Binding.

(** ** A libm, a field and an extension to run the stepper on *)

(** Square root and fourth root of a non-negative rational, rounded down
    to a multiple of 2^-32 and of 2^-16. *)
Definition sqrt_floor (x : Qc) : Qc :=
  Q2Qc (Qmake (Z.sqrt (Qnum x * 2 ^ 64 / Zpos (Qden x))) (2 ^ 32)).

Definition root4_floor (x : Qc) : Qc :=
  Q2Qc (Qmake (Z.sqrt (Z.sqrt (Qnum x * 2 ^ 64 / Zpos (Qden x)))) (2 ^ 16)).

Definition sqrt_model (a : dbl) : dbl :=
  match a with
  | Fin x => if dltb a d0 then NaN else Fin (sqrt_floor x)
  | PInf => PInf
  | NInf | NaN => NaN
  end.

(** [pow] for the one exponent the stepper uses, 0.25. *)
Definition pow_model (a b : dbl) : dbl :=
  if deqb b (dlit 0.25) then
    match a with
    | Fin x => if dltb a d0 then NaN else Fin (root4_floor x)
    | PInf | NInf => PInf
    | NaN => NaN
    end
  else NaN.

Definition hypot_model (a b : dbl) : dbl := sqrt_model (a * a + b * b).

Definition libm_model : Libm :=
  {| sqrt := sqrt_model; pow := pow_model; hypot := hypot_model |}.

(** A constant magnetic field. *)
Definition ConstantBField (B : Vector3D) : MagneticField :=
  {| bField_getField := fun _ => B |}.

(** An extension list with one extension, the Lorentz force
    [k = q/p (dir + h kprev) x B]; it accepts every step, advances the
    time by [h hypot(1, m/p)] and transports like a field-free step. *)
Definition lorentz_k (state : PropagatorState unit) (B : Vector3D) (h : dbl)
  (kprev : Vector3D) : bool * Vector3D * unit :=
  let s := stepping state in
  (true,
   v3_scale (q s / p s) (v3_cross (v3_add (dir s) (v3_scale h kprev)) B),
   tt).

Definition lorentz_finalize (state : PropagatorState unit) (h : dbl)
  : bool * FinalizeEffect unit :=
  let s := stepping state in
  (true,
   mkFinalizeEffect (p s)
     (dt s + h * hypot_model d1 (mass (options state) / p s))
     (derivative s) tt).

Definition LorentzExtension : Extension unit :=
  {| validExtensionForStep := fun _ => (true, tt);
     ext_k1 := fun state B => lorentz_k state B d0 v3_zero;
     ext_k2 := lorentz_k;
     ext_k3 := lorentz_k;
     ext_k4 := lorentz_k;
     ext_finalize := lorentz_finalize;
     ext_finalizeD := fun state h =>
       (lorentz_finalize state h,
        set_block33 (Identity FreeParsDim) 0 4 (mscale (Identity 3) h)) |}.

Definition StepData_zero : StepData :=
  mkStepData v3_zero v3_zero v3_zero v3_zero v3_zero v3_zero v3_zero.

(** A unit-charge particle of momentum 1 at the origin, flying along x
    through a field along z, with covariance transport. *)
Definition test_stepping (stepSize : dbl) : State unit :=
  mkState v3_zero (mkVector3D d1 d0 d0) (dlit 1) (dlit 1) d0 d0 forward
          stepSize d0 true (Identity FreeParsDim) (Identity FreeParsDim)
          (Identity FreeParsDim) (Zero_vec FreeParsDim) StepData_zero tt.

Definition test_field : MagneticField :=
  ConstantBField (mkVector3D d0 d0 (dlit 0.002)).

Abbreviation test_step state :=
  (@step libm_model unit LorentzExtension test_field state) (only parsing).

(** A 100 mm step with tolerance 1e-4: the first trial fails. *)
Definition test_state : PropagatorState unit :=
  mkPropagatorState (test_stepping (dlit 100))
                    (mkOptions (dlit 1e-4) (dlit 1e-4) (dlit 0.13957)).

(** A tolerance below the floor of the error estimate: every trial
    fails.  With a step size of 1 mm and a cut-off of 0.5 mm the first
    rescaled step size, 0.25 mm, is below the cut-off. *)
Definition stall_state : PropagatorState unit :=
  mkPropagatorState (test_stepping (dlit 1))
                    (mkOptions (dlit 1e-25) (dlit 0.5) (dlit 0.13957)).

(** The same with a cut-off of 4^-99 mm: the step sizes 4^-1 ... 4^-99 of
    the first 99 failed attempts are not below it, the one of the 100th,
    4^-100, is. *)
Definition last_resort_state : PropagatorState unit :=
  mkPropagatorState (test_stepping (dlit 1))
                    (mkOptions (dlit 1e-25) (dlit (1 # 4 ^ 99)) (dlit 0.13957)).

(** An extension that computes the first point, a constant [k1] along
    y, and rejects the second point of every trial. *)
Definition RejectingExtension : Extension unit :=
  {| validExtensionForStep := fun _ => (true, tt);
     ext_k1 := fun _ _ => (true, mkVector3D d0 d1 d0, tt);
     ext_k2 := fun _ _ _ _ => (false, v3_zero, tt);
     ext_k3 := fun _ _ _ _ => (false, v3_zero, tt);
     ext_k4 := fun _ _ _ _ => (false, v3_zero, tt);
     ext_finalize := lorentz_finalize;
     ext_finalizeD := fun state h =>
       (lorentz_finalize state h,
        set_block33 (Identity FreeParsDim) 0 4 (mscale (Identity 3) h)) |}.

(** A 1 mm step, tolerance and cut-off 1e-4, for the rejecting
    extension. *)
Definition rejecting_state : PropagatorState unit :=
  mkPropagatorState (test_stepping (dlit 1))
                    (mkOptions (dlit 1e-4) (dlit 1e-4) (dlit 0.13957)).

(** Abbreviations for the states the test runs pass through. *)
Abbreviation test_begin state :=
  (fst (@begin_step unit LorentzExtension test_field state)) (only parsing).

Abbreviation test_points state :=
  (snd (@runge_kutta_points unit LorentzExtension test_field state
          (stepSize (stepping state)))) (only parsing).

Abbreviation test_trial state :=
  (@tryRungeKuttaStep unit LorentzExtension test_field state Locals_init
     (stepSize (stepping state))) (only parsing).

Abbreviation test_loop state :=
  (@rk_loop libm_model unit LorentzExtension test_field 100 (test_begin state)
            Locals_init 0) (only parsing).

(** ** Properties of the adaptive loop *)

Section StepperProperties.

Context {libm : Libm}.
Context {E : Type} {extensionE : Extension E}.
Context {m_bField : MagneticField}.

Implicit Types (state : PropagatorState E).

Lemma points_frame state h ok state' :
  runge_kutta_points state h = (ok, state') ->
  frame_of (stepping state') = frame_of (stepping state) /\
  stepSize (stepping state') = stepSize (stepping state) /\
  options state' = options state /\
  k1 (stepData (stepping state')) = k1 (stepData (stepping state)).
Proof.
  unfold runge_kutta_points.
  repeat match goal with
         | |- context [let '(_, _) := ?x in _] => destruct x as [[? ?] ?]
         end.
  repeat match goal with
         | |- context [negb ?b] => destruct b; cbn [negb]
         end;
  intros Heq; inversion Heq; subst; repeat split.
Qed.

Lemma try_points_failed state loc h state1 :
  runge_kutta_points state h = (false, state1) ->
  tryRungeKuttaStep state loc h =
    (false, state1, mkLocals (error_estimate loc) (h * h) (h * dlit 0.5)).
Proof. intros H. unfold tryRungeKuttaStep. rewrite H. reflexivity. Qed.


Lemma try_frame state loc h ok state' loc' :
  tryRungeKuttaStep state loc h = (ok, state', loc') ->
  frame_of (stepping state') = frame_of (stepping state) /\
  stepSize (stepping state') = stepSize (stepping state) /\
  options state' = options state /\
  k1 (stepData (stepping state')) = k1 (stepData (stepping state)) /\
  h2 loc' = h * h.
Proof.
  unfold tryRungeKuttaStep.
  destruct (runge_kutta_points state h) as [computed st] eqn:Hp.
  apply points_frame in Hp. destruct Hp as (Hf & Hs & Ho & Hk).
  destruct computed; cbn [negb]; intros Heq; inversion Heq; subst; auto.
Qed.

(** One pass through the loop: what it leaves untouched, how the attempt
    counter moves, and what holds at each way out. *)
Lemma iteration_spec state loc n :
  match rk_iteration state loc n with
  | Continue s' l' n' =>
      frame_of (stepping s') = frame_of (stepping state) /\
      options s' = options state /\
      k1 (stepData (stepping s')) = k1 (stepData (stepping state)) /\
      n' = S n /\ n' <> 100%nat
  | Exit how s' l' n' =>
      frame_of (stepping s') = frame_of (stepping state) /\
      options s' = options state /\
      k1 (stepData (stepping s')) = k1 (stepData (stepping state)) /\
      (n' <= S n)%nat /\ how <> OutOfFuel /\
      (how = Accepted ->
         h2 l' = stepSize (stepping s') * stepSize (stepping s'))
  end.
Proof.
  unfold rk_iteration.
  destruct (tryRungeKuttaStep state loc (stepSize (stepping state)))
    as [[ok st] lc] eqn:Ht.
  apply try_frame in Ht. destruct Ht as (Hf & Hs & Ho & Hk & Hh).
  destruct ok.
  { repeat split; auto; try discriminate. intros _. now rewrite Hh, Hs. }
  destruct (deqb _ _).
  { repeat split; auto; discriminate. }
  destruct (Nat.eqb (S n) 100) eqn:Hn.
  { repeat split; auto; discriminate. }
  apply Nat.eqb_neq in Hn.
  destruct (dltb _ _).
  { repeat split; auto; discriminate. }
  repeat split; auto.
Qed.


Lemma rk_loop_frame fuel : forall state loc n how s' l' n',
  rk_loop fuel state loc n = (how, s', l', n') ->
  frame_of (stepping s') = frame_of (stepping state) /\
  options s' = options state /\
  k1 (stepData (stepping s')) = k1 (stepData (stepping state)) /\
  (how = Accepted -> h2 l' = stepSize (stepping s') * stepSize (stepping s')).
Proof.
  induction fuel as [| fuel IH]; intros state loc n how s' l' n'.
  - cbn [rk_loop]. intros Heq. inversion Heq; subst.
    repeat split; auto. discriminate.
  - cbn [rk_loop]. pose proof (iteration_spec state loc n) as Hi.
    destruct (rk_iteration state loc n) as [s1 l1 n1 | how1 s1 l1 n1].
    + destruct Hi as (Hf & Ho & Hk & _). intros Heq.
      apply IH in Heq. destruct Heq as (Hf' & Ho' & Hk' & Ha).
      repeat split; try congruence. exact Ha.
    + destruct Hi as (Hf & Ho & Hk & _ & _ & Ha).
      intros Heq. inversion Heq; subst. auto.
Qed.

Lemma begin_step_frame state state0 go :
  begin_step state = (state0, go) ->
  frame_of (stepping state0) = frame_of (stepping state) /\
  stepSize (stepping state0) = stepSize (stepping state) /\
  options state0 = options state.
Proof.
  unfold begin_step.
  destruct (validExtensionForStep _) as [valid e0].
  destruct valid; cbn [negb].
  - destruct (ext_k1 _ _) as [[ok1 kn1] e1].
    intros Heq; inversion Heq; subst; auto.
  - intros Heq; inversion Heq; subst; auto.
Qed.

(** ** Runs of the loop *)

Lemma reaches_frame s l n s' l' n' :
  reaches s l n s' l' n' ->
  frame_of (stepping s') = frame_of (stepping s) /\ options s' = options s.
Proof.
  induction 1 as [| s l n s1 l1 n1 s2 l2 n2 Hi _ IH]; [auto |].
  pose proof (iteration_spec s l n) as Hs. rewrite Hi in Hs.
  destruct Hs as (Hf & Ho & _). destruct IH as (Hf' & Ho').
  split; congruence.
Qed.

Lemma rk_loop_reaches s l n s' l' n' :
  reaches s l n s' l' n' ->
  forall fuel, (n < 100)%nat -> (100 <= fuel + n)%nat ->
  exists fuel',
    rk_loop fuel s l n = rk_loop fuel' s' l' n' /\
    (n' < 100)%nat /\ (100 <= fuel' + n')%nat.
Proof.
  induction 1 as [| s l n s1 l1 n1 s2 l2 n2 Hi _ IH]; intros fuel Hn Hfuel.
  - exists fuel. auto.
  - pose proof (iteration_spec s l n) as Hs. rewrite Hi in Hs.
    destruct Hs as (_ & _ & _ & Hn1 & Hne).
    destruct fuel as [| fuel]; [lia |].
    destruct (IH fuel) as (fuel' & Heq & Hlt & Hge); [lia | lia |].
    exists fuel'. cbn [rk_loop]. rewrite Hi. auto.
Qed.

(** A run of the loop counts its passes, and the fuel follows. *)
Lemma reaches_fuel s l n s' l' n' :
  reaches s l n s' l' n' ->
  (n <= n')%nat /\ ((n < 100)%nat -> (n' < 100)%nat) /\
  forall fuel, rk_loop (fuel + (n' - n)) s l n = rk_loop fuel s' l' n'.
Proof.
  induction 1 as [| s l n s1 l1 n1 s2 l2 n2 Hi _ IH].
  - split; [lia |]. split; [auto |]. intros fuel.
    replace (fuel + (n - n))%nat with fuel by lia. reflexivity.
  - pose proof (iteration_spec s l n) as Hs. rewrite Hi in Hs.
    destruct Hs as (_ & _ & _ & Hn1 & Hne). destruct IH as (Hle & Hlt & Hloop).
    subst n1. split; [lia |]. split; [intros; apply Hlt; lia |].
    intros fuel.
    replace (fuel + (n2 - n))%nat with (S (fuel + (n2 - S n)))%nat by lia.
    cbn [rk_loop]. rewrite Hi. apply Hloop.
Qed.


(** The loop of [step], seen from a state it has reached. *)
Lemma step_loop_from state0 s l n :
  reaches state0 Locals_init 0 s l n ->
  (n < 100)%nat /\
  rk_loop 100 state0 Locals_init 0 = rk_loop (100 - n) s l n.
Proof.
  intros Hr. destruct (reaches_fuel Hr) as (_ & Hlt & Hloop).
  assert (Hn : (n < 100)%nat) by (apply Hlt; lia).
  split; [exact Hn |].
  rewrite <- (Hloop (100 - n)%nat). f_equal. lia.
Qed.

Lemma step_after_loop state state0 :
  begin_step state = (state0, true) ->
  step state =
    match rk_loop 100 state0 Locals_init 0 with
    | (Stalled, st, _, _) => (Err StepSizeStalled, st)
    | (_, st, lc, _) => finish_step st lc
    end.
Proof. intros Hb. unfold step. rewrite Hb. reflexivity. Qed.

(** What [finish_step] returns. *)
Lemma finish_step_cases state loc :
  let h := stepSize (stepping state) in
  let finalized :=
    if covTransport (stepping state)
    then fst (fst (ext_finalizeD state h))
    else fst (ext_finalize state h) in
  (finalized = true ->
     exists state',
       finish_step state loc = (Ok h, state') /\
       stepSize (stepping state') = h /\
       pathAccumulated (stepping state') = pathAccumulated (stepping state) + h) /\
  (finalized = false ->
     exists state', finish_step state loc = (Err StepInvalid, state')).
Proof.
  cbv zeta. unfold finish_step.
  destruct (covTransport (stepping state)) eqn:Hc.
  - destruct (ext_finalizeD state _) as [[ok fe] D]. cbn [fst].
    split; intros ->; cbn [negb]; eexists; [| reflexivity].
    split; [reflexivity |].
    unfold update_track. cbn. rewrite Hc. cbn. split; reflexivity.
  - destruct (ext_finalize state _) as [ok fe]. cbn [fst].
    split; intros ->; cbn [negb]; eexists; [| reflexivity].
    split; [reflexivity |].
    unfold update_track. cbn. rewrite Hc. cbn. split; reflexivity.
Qed.

End StepperProperties.

Section StepperTheorems.

Context {libm : Libm}.
Context {E : Type} {extensionE : Extension E}.
Context {m_bField : MagneticField}.

Implicit Types (state : PropagatorState E).





Lemma update_track_spec (s : State E) (h h2v : dbl) :
  let d := v3_add (dir s) (direction_increment h (stepData s)) in
  pos (update_track s h h2v) =
    v3_add (pos s) (position_increment h h2v (dir s) (stepData s)) /\
  dir (update_track s h h2v) = v3_div d (v3_norm d) /\
  pathAccumulated (update_track s h h2v) = pathAccumulated s + h /\
  jacTransport (update_track s h h2v) = jacTransport s.
Proof.
  unfold update_track. cbn. destruct (covTransport s); cbn; auto.
Qed.

(** C4.  When the trial of step size [h] is accepted and the extension
    finalizes the step, [step] returns [h]; the position has moved by
    [h dir + h^2/6 (k1 + k2 + k3)], the direction is
    [dir + h/6 (k1 + 2 k2 + 2 k3 + k4)] divided by its norm, [h] is
    added to the accumulated path, and with covariance transport the
    transport jacobian is [D * jacTransport] for the matrix [D] the
    extension assembled. *)
Theorem accepted_step_update state state0 state1 loc1 n :
  begin_step state = (state0, true) ->
  rk_loop 100 state0 Locals_init 0 = (Accepted, state1, loc1, n) ->
  let h := stepSize (stepping state1) in
  let sd := stepData (stepping state1) in
  let s := stepping state in
  (if covTransport s
   then fst (fst (ext_finalizeD state1 h)) = true
   else fst (ext_finalize state1 h) = true) ->
  let d :=
    v3_add (dir s)
           (v3_scale (h / dlit 6)
                     (v3_add (v3_add (k1 sd) (v3_scale (dlit 2) (v3_add (k2 sd) (k3 sd))))
                             (k4 sd))) in
  exists state2,
    step state = (Ok h, state2) /\
    pos (stepping state2) =
      v3_add (pos s)
             (v3_add (v3_scale h (dir s))
                     (v3_scale (h * h / dlit 6) (v3_add (v3_add (k1 sd) (k2 sd)) (k3 sd)))) /\
    dir (stepping state2) = v3_div d (v3_norm d) /\
    pathAccumulated (stepping state2) = pathAccumulated s + h /\
    (covTransport s = true ->
       jacTransport (stepping state2) =
         mmul (snd (ext_finalizeD state1 h)) (jacTransport s)) /\
    (covTransport s = false -> jacTransport (stepping state2) = jacTransport s) /\
    (v3_finite (k1 sd) = true -> v3_finite (k2 sd) = true ->
     v3_finite (k3 sd) = true -> v3_finite (k4 sd) = true ->
     d = v3_add (dir s)
           (v3_scale (h / dlit 6)
              (v3_add (v3_add (v3_add (k1 sd) (v3_scale (dlit 2) (k2 sd)))
                              (v3_scale (dlit 2) (k3 sd)))
                      (k4 sd)))) /\
    (forall norm_d : Qc,
        v3_finite d = true -> v3_norm d = Fin norm_d -> norm_d <> 0%Qc ->
        Fin norm_d * Fin norm_d = v3_squaredNorm d ->
        v3_squaredNorm (dir (stepping state2)) = d1).
Proof.
  intros Hb Hl h sd s Hfin d. subst s.
  pose proof (begin_step_frame _ Hb) as (Hf0 & _ & _).
  pose proof (rk_loop_frame _ _ _ _ Hl) as (Hf1 & _ & _ & Hh2).
  specialize (Hh2 eq_refl). fold h in Hh2.
  assert (Hf : frame_of (stepping state1) = frame_of (stepping state)) by congruence.
  unfold frame_of in Hf.
  assert (Hpos : pos (stepping state1) = pos (stepping state)) by congruence.
  assert (Hdir : dir (stepping state1) = dir (stepping state)) by congruence.
  assert (Hpath : pathAccumulated (stepping state1) = pathAccumulated (stepping state)) by congruence.
  assert (Hcov : covTransport (stepping state1) = covTransport (stepping state)) by congruence.
  assert (Hjac : jacTransport (stepping state1) = jacTransport (stepping state)) by congruence.
  assert (Htrack : forall (fe : FinalizeEffect E) (J : mat) (st2 : State E),
             st2 = update_track (set_jacTransport (apply_finalize (stepping state1) fe) J)
                                h (h2 loc1) ->
             pos st2 =
               v3_add (pos (stepping state))
                 (v3_add (v3_scale h (dir (stepping state)))
                    (v3_scale (h * h / dlit 6)
                       (v3_add (v3_add (k1 sd) (k2 sd)) (k3 sd)))) /\
             dir st2 = v3_div d (v3_norm d) /\
             pathAccumulated st2 = pathAccumulated (stepping state) + h /\
             jacTransport st2 = J).
  { intros fe J st2 ->.
    destruct (update_track_spec
                (set_jacTransport (apply_finalize (stepping state1) fe) J) h (h2 loc1))
      as (Hp & Hd & Hpa & Hj).
    rewrite Hp, Hd, Hpa, Hj.
    cbn [pos dir pathAccumulated jacTransport stepData set_jacTransport apply_finalize
         set_extension set_derivative set_dt set_p].
    rewrite Hpos, Hdir, Hpath, Hh2. unfold position_increment, direction_increment.
    fold sd. fold d. auto. }
  assert (Halt : v3_finite (k1 sd) = true -> v3_finite (k2 sd) = true ->
                 v3_finite (k3 sd) = true -> v3_finite (k4 sd) = true ->
                 d = v3_add (dir (stepping state))
                       (v3_scale (h / dlit 6)
                          (v3_add (v3_add (v3_add (k1 sd) (v3_scale (dlit 2) (k2 sd)))
                                          (v3_scale (dlit 2) (k3 sd)))
                                  (k4 sd)))).
  { intros F1 F2 F3 F4. unfold d. now rewrite v3_add_twice_expand. }
  assert (Hunit : forall st2 : State E,
             dir st2 = v3_div d (v3_norm d) ->
             forall norm_d : Qc,
               v3_finite d = true -> v3_norm d = Fin norm_d -> norm_d <> 0%Qc ->
               Fin norm_d * Fin norm_d = v3_squaredNorm d ->
               v3_squaredNorm (dir st2) = d1).
  { intros st2 Hd norm_d Fd Hn Hn0 Hsq. rewrite Hd, Hn.
    now apply renormalized_unit_length. }
  unfold step. rewrite Hb. cbn [negb]. rewrite Hl. unfold finish_step. fold h.
  rewrite Hcov.
  destruct (covTransport (stepping state)) eqn:Hc.
  - destruct (ext_finalizeD state1 h) as [[ok fe] D]. cbn [fst snd] in *. subst ok.
    cbn [negb]. eexists. split; [reflexivity |].
    cbn [stepping set_stepping].
    destruct (Htrack fe (mmul D (jacTransport (apply_finalize (stepping state1) fe))) _ eq_refl)
      as (Hp & Hd & Hpa & Hj).
    repeat split; try assumption.
    + intros _. rewrite Hj. cbn. now rewrite Hjac.
    + discriminate.
    + now apply Hunit.
  - destruct (ext_finalize state1 h) as [ok fe]. cbn [fst snd] in *. subst ok.
    cbn [negb]. eexists. split; [reflexivity |].
    cbn [stepping set_stepping].
    assert (Hsame : apply_finalize (stepping state1) fe =
                    set_jacTransport (apply_finalize (stepping state1) fe)
                                     (jacTransport (stepping state1))) by reflexivity.
    rewrite Hsame.
    destruct (Htrack fe (jacTransport (stepping state1)) _ eq_refl)
      as (Hp & Hd & Hpa & Hj).
    repeat split; try assumption.
    + discriminate.
    + intros _. now rewrite Hj.
    + now apply Hunit.
Qed.


(** C5, as the code has it.  A trial has failed and the scaling factor
    is not one.  In an attempt other than the 100th, when the rescaled
    step size [h] has [h^2 < stepSizeCutOff^2], [step] returns the error
    [StepSizeStalled]; the state keeps the rescaled step size, and
    position, direction and accumulated path are the ones before the
    call.  In the 100th failed attempt there is no cut-off test: the
    step size is set to 1 mm in the navigation direction, the loop is
    left and the step is finished with that step size; [step] returns
    it when the extension finalizes the step and [StepInvalid]
    otherwise, never [StepSizeStalled]. *)
Theorem step_size_stalled state state0 s l n s1 l1 :
  begin_step state = (state0, true) ->
  reaches state0 Locals_init 0 s l n ->
  tryRungeKuttaStep s l (stepSize (stepping s)) = (false, s1, l1) ->
  let scaling := stepSizeScaling_of (tolerance (options s)) (error_estimate l1) in
  let h := stepSize (stepping s) * scaling in
  let cut := stepSizeCutOff (options s) in
  deqb scaling (dlit 1) = false ->
  (S n <> 100%nat ->
   dltb (h * h) (cut * cut) = true ->
     exists state',
       step state = (Err StepSizeStalled, state') /\
       stepSize (stepping state') = h /\
       pos (stepping state') = pos (stepping state) /\
       dir (stepping state') = dir (stepping state) /\
       pathAccumulated (stepping state') = pathAccumulated (stepping state)) /\
  (S n = 100%nat ->
     let mm := navDir_value (navDir (stepping state)) * _mm in
     let last := with_stepSize s1 mm in
     let finalized :=
       if covTransport (stepping state)
       then fst (fst (ext_finalizeD last mm))
       else fst (ext_finalize last mm) in
     rk_loop 100 state0 Locals_init 0 = (LastResort, last, l1, 100%nat) /\
     step state = finish_step last l1 /\
     fst (step state) <> Err StepSizeStalled /\
     (finalized = true ->
        exists state',
          step state = (Ok mm, state') /\
          stepSize (stepping state') = mm /\
          pathAccumulated (stepping state') = pathAccumulated (stepping state) + mm) /\
     (finalized = false -> fst (step state) = Err StepInvalid)).
Proof.
  intros Hb Hr Ht scaling h cut Hsc.
  pose proof (begin_step_frame _ Hb) as (Hf0 & _ & _).
  pose proof (reaches_frame Hr) as (Hf1 & _).
  pose proof (try_frame _ _ _ Ht) as (Hf2 & Hs2 & Ho2 & _ & _).
  assert (Hf : frame_of (stepping s1) = frame_of (stepping state)) by congruence.
  unfold frame_of in Hf.
  destruct (step_loop_from Hr) as (Hn & Hloop).
  split.
  - intros Hne Hcut.
    assert (Hi : rk_iteration s l n = Exit Stalled (with_stepSize s1 h) l1 (S n)).
    { unfold rk_iteration. rewrite Ht, Ho2. fold scaling. rewrite Hsc, Hs2. fold h.
      apply Nat.eqb_neq in Hne. rewrite Hne.
      change (stepSize (stepping (with_stepSize s1 h))) with h.
      change (options (with_stepSize s1 h)) with (options s1).
      rewrite Ho2. fold cut. rewrite Hcut. reflexivity. }
    exists (with_stepSize s1 h).
    rewrite (step_after_loop state Hb), Hloop.
    replace (100 - n)%nat with (S (99 - n))%nat by lia.
    cbn [rk_loop]. rewrite Hi.
    split; [reflexivity |]. split; [reflexivity |].
    change (stepping (with_stepSize s1 h)) with (set_stepSize (stepping s1) h).
    cbn [pos dir pathAccumulated set_stepSize].
    repeat split; congruence.
  - intros He mm last finalized.
    assert (Hnav : navDir (stepping s1) = navDir (stepping state)) by congruence.
    assert (Hcov : covTransport (stepping s1) = covTransport (stepping state))
      by congruence.
    assert (Hpath : pathAccumulated (stepping s1) = pathAccumulated (stepping state))
      by congruence.
    assert (Hi : rk_iteration s l n = Exit LastResort last l1 100).
    { unfold rk_iteration. rewrite Ht, Ho2. fold scaling. rewrite Hsc, He.
      cbn [Nat.eqb].
      change (navDir (stepping (with_stepSize s1 _))) with (navDir (stepping s1)).
      rewrite Hnav. reflexivity. }
    assert (Hl : rk_loop 100 state0 Locals_init 0 = (LastResort, last, l1, 100%nat)).
    { rewrite Hloop. replace (100 - n)%nat with (S (99 - n))%nat by lia.
      cbn [rk_loop]. rewrite Hi. reflexivity. }
    assert (Hstep : step state = finish_step last l1).
    { rewrite (step_after_loop state Hb), Hl. reflexivity. }
    split; [exact Hl |]. split; [exact Hstep |].
    destruct (finish_step_cases last l1) as (Hok & Herr).
    change (stepSize (stepping last)) with mm in Hok, Herr.
    change (covTransport (stepping last)) with (covTransport (stepping s1)) in Hok, Herr.
    change (pathAccumulated (stepping last)) with (pathAccumulated (stepping s1)) in Hok.
    rewrite Hcov in Hok, Herr. rewrite Hpath in Hok. fold finalized in Hok, Herr.
    rewrite Hstep.
    split; [| split].
    + destruct finalized.
      * destruct (Hok eq_refl) as (st & -> & _). discriminate.
      * destruct (Herr eq_refl) as (st & ->). discriminate.
    + exact Hok.
    + intros Hfin. destruct (Herr Hfin) as (st & ->). reflexivity.
Qed.

End StepperTheorems.

(** ** The model libm *)



Lemma pair_true (A : Type) (x : A * bool) : snd x = true -> x = (fst x, true).
Proof. destruct x as [a b]. cbn. now intros ->. Qed.


Lemma false_triple (A B : Type) (x : bool * A * B) :
  fst (fst x) = false -> x = (false, snd (fst x), snd x).
Proof. destruct x as [[a b] c]. cbn. now intros ->. Qed.

Lemma loop_result_eta (A B C : Type) (x : LoopExit * A * B * C) (how : LoopExit) :
  fst (fst (fst x)) = how -> x = (how, snd (fst (fst x)), snd (fst x), snd x).
Proof. destruct x as [[[a b] c] d]. cbn. now intros ->. Qed.

Lemma result_ok_eq (r : Result dbl) (v : dbl) :
  match r with Ok x => deqb x v | Err _ => false end = true -> r = Ok v.
Proof.
  destruct r as [x | e]; [| discriminate].
  intros H. apply deqb_eq in H. now subst.
Qed.

Lemma run_iterations_reaches (libm : Libm) (E : Type) (extensionE : Extension E)
  (m_bField : MagneticField) k :
  forall (s : PropagatorState E) l n s' l' n',
  run_iterations k s l n = Some (s', l', n') ->
  reaches s l n s' l' n'.
Proof.
  induction k as [| k IH]; intros s l n s' l' n'; cbn [run_iterations].
  - intros Heq. inversion Heq; subst. constructor.
  - destruct (rk_iteration s l n) as [s1 l1 n1 | how s1 l1 n1] eqn:Hi; [| discriminate].
    intros Heq. eapply reaches_next; [exact Hi | now apply IH].
Qed.


Lemma accepted_step_update_witness :
  let state := test_state in
  let state0 := test_begin state in
  let state1 := snd (fst (fst (test_loop state))) in
  let loc1 := snd (fst (test_loop state)) in
  let n := snd (test_loop state) in
  let h := stepSize (stepping state1) in
  let sd := stepData (stepping state1) in
  let s := stepping state in
  let d :=
    v3_add (dir s)
           (v3_scale (h / dlit 6)
                     (v3_add (v3_add (k1 sd) (v3_scale (dlit 2) (v3_add (k2 sd) (k3 sd))))
                             (k4 sd))) in
  @begin_step unit LorentzExtension test_field state = (state0, true) /\
  @rk_loop libm_model unit LorentzExtension test_field 100 state0 Locals_init 0
    = (Accepted, state1, loc1, n) /\
  fst (fst (@ext_finalizeD unit LorentzExtension state1 h)) = true /\
  exists state2,
    test_step state = (Ok h, state2) /\
    pos (stepping state2) =
      v3_add (pos s)
             (v3_add (v3_scale h (dir s))
                     (v3_scale (h * h / dlit 6) (v3_add (v3_add (k1 sd) (k2 sd)) (k3 sd)))) /\
    dir (stepping state2) = v3_div d (@v3_norm libm_model d) /\
    pathAccumulated (stepping state2) = pathAccumulated s + h /\
    (covTransport s = true ->
       jacTransport (stepping state2) =
         mmul (snd (@ext_finalizeD unit LorentzExtension state1 h)) (jacTransport s)) /\
    (covTransport s = false -> jacTransport (stepping state2) = jacTransport s) /\
    (v3_finite (k1 sd) = true -> v3_finite (k2 sd) = true ->
     v3_finite (k3 sd) = true -> v3_finite (k4 sd) = true ->
     d = v3_add (dir s)
           (v3_scale (h / dlit 6)
              (v3_add (v3_add (v3_add (k1 sd) (v3_scale (dlit 2) (k2 sd)))
                              (v3_scale (dlit 2) (k3 sd)))
                      (k4 sd)))) /\
    (forall norm_d : Qc,
        v3_finite d = true -> @v3_norm libm_model d = Fin norm_d -> norm_d <> 0%Qc ->
        Fin norm_d * Fin norm_d = v3_squaredNorm d ->
        v3_squaredNorm (dir (stepping state2)) = d1).
Proof.
  cbv zeta.
  assert (Hb : @begin_step unit LorentzExtension test_field test_state
               = (test_begin test_state, true))
    by (apply pair_true; vm_compute; reflexivity).
  assert (Hhow : fst (fst (fst (test_loop test_state))) = Accepted)
    by (vm_compute; reflexivity).
  pose proof (loop_result_eta (test_loop test_state) (how := Accepted) Hhow) as Hl.
  assert (Hfin : fst (fst (@ext_finalizeD unit LorentzExtension
                             (snd (fst (fst (test_loop test_state))))
                             (stepSize (stepping (snd (fst (fst (test_loop test_state))))))))
                 = true)
    by (vm_compute; reflexivity).
  split; [exact Hb |]. split; [exact Hl |]. split; [exact Hfin |].
  exact (@accepted_step_update libm_model unit LorentzExtension test_field
           test_state (test_begin test_state)
           (snd (fst (fst (test_loop test_state))))
           (snd (fst (test_loop test_state))) (snd (test_loop test_state))
           Hb Hl Hfin).
Defined.

(** The theorem on a run that stalls in its first attempt, and on a
    run whose 100th attempt fails. *)
Lemma step_size_stalled_witness :
  (let state := stall_state in
   let state0 := test_begin state in
   let s1 := snd (fst (test_trial state0)) in
   let l1 := snd (test_trial state0) in
   let scaling :=
     @stepSizeScaling_of libm_model (tolerance (options state0)) (error_estimate l1) in
   let h := stepSize (stepping state0) * scaling in
   let cut := stepSizeCutOff (options state0) in
   @begin_step unit LorentzExtension test_field state = (state0, true) /\
   @reaches libm_model unit LorentzExtension test_field
            state0 Locals_init 0 state0 Locals_init 0 /\
   test_trial state0 = (false, s1, l1) /\
   deqb scaling (dlit 1) = false /\
   1%nat <> 100%nat /\
   dltb (h * h) (cut * cut) = true /\
   exists state',
     test_step state = (Err StepSizeStalled, state') /\
     stepSize (stepping state') = h /\
     pos (stepping state') = pos (stepping state) /\
     dir (stepping state') = dir (stepping state) /\
     pathAccumulated (stepping state') = pathAccumulated (stepping state)) /\
  (exists (s : PropagatorState unit) (l : Locals),
     let state := rejecting_state in
     let state0 := fst (@begin_step unit RejectingExtension test_field state) in
     let trial :=
       @tryRungeKuttaStep unit RejectingExtension test_field s l (stepSize (stepping s)) in
     let s1 := snd (fst trial) in
     let l1 := snd trial in
     let scaling :=
       @stepSizeScaling_of libm_model (tolerance (options s)) (error_estimate l1) in
     let mm := navDir_value (navDir (stepping state)) * _mm in
     let last := with_stepSize s1 mm in
     let finalized :=
       if covTransport (stepping state)
       then fst (fst (@ext_finalizeD unit RejectingExtension last mm))
       else fst (@ext_finalize unit RejectingExtension last mm) in
     @begin_step unit RejectingExtension test_field state = (state0, true) /\
     @reaches libm_model unit RejectingExtension test_field state0 Locals_init 0 s l 99 /\
     trial = (false, s1, l1) /\
     deqb scaling (dlit 1) = false /\
     100%nat = 100%nat /\
     finalized = true /\
     @rk_loop libm_model unit RejectingExtension test_field 100 state0 Locals_init 0
       = (LastResort, last, l1, 100%nat) /\
     @step libm_model unit RejectingExtension test_field state
       = @finish_step libm_model unit RejectingExtension last l1 /\
     fst (@step libm_model unit RejectingExtension test_field state)
       <> Err StepSizeStalled /\
     (finalized = true ->
        exists state',
          @step libm_model unit RejectingExtension test_field state = (Ok mm, state') /\
          stepSize (stepping state') = mm /\
          pathAccumulated (stepping state') = pathAccumulated (stepping state) + mm) /\
     (finalized = false ->
        fst (@step libm_model unit RejectingExtension test_field state)
          = Err StepInvalid)).
Proof.
  split.
  - cbv zeta.
    assert (Hb : @begin_step unit LorentzExtension test_field stall_state
                 = (test_begin stall_state, true))
      by (apply pair_true; vm_compute; reflexivity).
    assert (Ht : test_trial (test_begin stall_state)
                 = (false, snd (fst (test_trial (test_begin stall_state))),
                    snd (test_trial (test_begin stall_state))))
      by (apply false_triple; vm_compute; reflexivity).
    assert (Hsc : deqb (@stepSizeScaling_of libm_model
                          (tolerance (options (test_begin stall_state)))
                          (error_estimate (snd (test_trial (test_begin stall_state)))))
                       (dlit 1) = false)
      by (vm_compute; reflexivity).
    assert (Hcut : dltb
              (stepSize (stepping (test_begin stall_state)) *
               @stepSizeScaling_of libm_model
                 (tolerance (options (test_begin stall_state)))
                 (error_estimate (snd (test_trial (test_begin stall_state)))) *
               (stepSize (stepping (test_begin stall_state)) *
                @stepSizeScaling_of libm_model
                  (tolerance (options (test_begin stall_state)))
                  (error_estimate (snd (test_trial (test_begin stall_state))))))
              (stepSizeCutOff (options (test_begin stall_state)) *
               stepSizeCutOff (options (test_begin stall_state))) = true)
      by (vm_compute; reflexivity).
    assert (Hn : 1%nat <> 100%nat) by discriminate.
    split; [exact Hb |].
    split; [apply reaches_here |].
    split; [exact Ht |].
    split; [exact Hsc |].
    split; [exact Hn |].
    split; [exact Hcut |].
    exact (proj1 (@step_size_stalled libm_model unit LorentzExtension test_field
                    stall_state (test_begin stall_state) (test_begin stall_state)
                    Locals_init 0%nat
                    (snd (fst (test_trial (test_begin stall_state))))
                    (snd (test_trial (test_begin stall_state)))
                    Hb (reaches_here _ _ _) Ht Hsc) Hn Hcut).
  - let v := eval vm_compute in
          (@run_iterations libm_model unit RejectingExtension test_field 99
             (fst (@begin_step unit RejectingExtension test_field rejecting_state))
             Locals_init 0) in
    match v with
    | Some (?s, ?l, _) => exists s, l
    end.
    cbv zeta.
    match goal with
    | |- _ /\ @reaches _ _ _ _ _ _ _ ?s ?l _ /\ _ =>
        assert (Hb : @begin_step unit RejectingExtension test_field rejecting_state
                     = (fst (@begin_step unit RejectingExtension test_field rejecting_state),
                        true))
          by (apply pair_true; vm_compute; reflexivity);
        assert (Hr : @reaches libm_model unit RejectingExtension test_field
                       (fst (@begin_step unit RejectingExtension test_field rejecting_state))
                       Locals_init 0 s l 99)
          by (apply (@run_iterations_reaches libm_model unit RejectingExtension test_field 99);
              vm_compute; reflexivity);
        assert (Ht : @tryRungeKuttaStep unit RejectingExtension test_field s l
                       (stepSize (stepping s))
                     = (false,
                        snd (fst (@tryRungeKuttaStep unit RejectingExtension test_field s l
                                    (stepSize (stepping s)))),
                        snd (@tryRungeKuttaStep unit RejectingExtension test_field s l
                               (stepSize (stepping s)))))
          by (apply false_triple; vm_compute; reflexivity);
        assert (Hsc : deqb (@stepSizeScaling_of libm_model (tolerance (options s))
                              (error_estimate
                                 (snd (@tryRungeKuttaStep unit RejectingExtension test_field
                                         s l (stepSize (stepping s))))))
                           (dlit 1) = false)
          by (vm_compute; reflexivity);
        split; [exact Hb |]; split; [exact Hr |]; split; [exact Ht |];
        split; [exact Hsc |]; split; [reflexivity |];
        split; [vm_compute; reflexivity |];
        exact (proj2 (@step_size_stalled libm_model unit RejectingExtension test_field
                        rejecting_state
                        (fst (@begin_step unit RejectingExtension test_field rejecting_state))
                        s l 99%nat
                        (snd (fst (@tryRungeKuttaStep unit RejectingExtension test_field s l
                                     (stepSize (stepping s)))))
                        (snd (@tryRungeKuttaStep unit RejectingExtension test_field s l
                                (stepSize (stepping s))))
                        Hb Hr Ht Hsc) eq_refl)
    end.
Defined.

(** C5, the claim as stated, fails in the 100th attempt.  In the run on
    [last_resort_state] 99 attempts have failed; the trial of the 100th
    fails too, the rescaled step size is 4^-100 mm and its square is
    below the square of the cut-off, 4^-99 mm.  [step] does not return
    [StepSizeStalled]: it sets the step size to 1 mm, takes the step and
    returns 1. *)
Lemma step_size_stalled_counterexample :
  exists (s : PropagatorState unit) (l : Locals),
    let trial :=
      @tryRungeKuttaStep unit LorentzExtension test_field s l (stepSize (stepping s)) in
    let scaling :=
      @stepSizeScaling_of libm_model (tolerance (options s))
                          (error_estimate (snd trial)) in
    let h := stepSize (stepping s) * scaling in
    @reaches libm_model unit LorentzExtension test_field
             (test_begin last_resort_state) Locals_init 0 s l 99 /\
    stepSize (stepping s) = dlit (1 # 4 ^ 99) /\
    fst (fst trial) = false /\
    deqb scaling (dlit 1) = false /\
    h = dlit (1 # 4 ^ 100) /\
    dltb (h * h) (stepSizeCutOff (options s) * stepSizeCutOff (options s)) = true /\
    fst (test_step last_resort_state) = Ok (dlit 1) /\
    stepSize (stepping (snd (test_step last_resort_state))) = dlit 1 /\
    pathAccumulated (stepping (snd (test_step last_resort_state))) = dlit 1.
Proof.
  let v := eval vm_compute in
        (@run_iterations libm_model unit LorentzExtension test_field 99
           (test_begin last_resort_state) Locals_init 0) in
  match v with
  | Some (?s, ?l, _) => exists s, l
  end.
  cbv zeta.
  split;
    [apply (@run_iterations_reaches libm_model unit LorentzExtension test_field 99);
     vm_compute; reflexivity |].
  split; [apply deqb_eq; vm_compute; reflexivity |].
  split; [vm_compute; reflexivity |].
  split; [vm_compute; reflexivity |].
  split; [apply deqb_eq; vm_compute; reflexivity |].
  split; [vm_compute; reflexivity |].
  split; [apply result_ok_eq; vm_compute; reflexivity |].
  split; apply deqb_eq; vm_compute; reflexivity.
Qed.

End EigenStepper.

(* ================================================================== *)
(** * StraightLineStepper *)
(* ================================================================== *)

Module StraightLineStepper.

Local Open Scope dbl_scope.

(** [StraightLineStepper::State] *)
Record State : Type := mkState {
  pos : Vector3D;
  dir : Vector3D;
  p : dbl;
  q : dbl;
  t0 : dbl;
  dt : dbl;
  navDir : NavigationDirection;
  stepSize : dbl;
  pathAccumulated : dbl;
  covTransport : bool;
  cov : mat;
  jacobian : mat;
  jacTransport : mat;
  derivative : vec;
  jacToGlobal : option mat
}.

(** The propagator option [step] reads. *)
Record Options : Type := mkOptions { mass : dbl }.

Record PropagatorState : Type := mkPropagatorState {
  stepping : State;
  options : Options
}.

Section Setters.

Implicit Types (s : State).

Definition set_pos s v :=
  mkState v (dir s) (p s) (q s) (t0 s) (dt s) (navDir s) (stepSize s)
          (pathAccumulated s) (covTransport s) (cov s) (jacobian s)
          (jacTransport s) (derivative s) (jacToGlobal s).

Definition set_dir s v :=
  mkState (pos s) v (p s) (q s) (t0 s) (dt s) (navDir s) (stepSize s)
          (pathAccumulated s) (covTransport s) (cov s) (jacobian s)
          (jacTransport s) (derivative s) (jacToGlobal s).

Definition set_p s v :=
  mkState (pos s) (dir s) v (q s) (t0 s) (dt s) (navDir s) (stepSize s)
          (pathAccumulated s) (covTransport s) (cov s) (jacobian s)
          (jacTransport s) (derivative s) (jacToGlobal s).

Definition set_dt s v :=
  mkState (pos s) (dir s) (p s) (q s) (t0 s) v (navDir s) (stepSize s)
          (pathAccumulated s) (covTransport s) (cov s) (jacobian s)
          (jacTransport s) (derivative s) (jacToGlobal s).

Definition set_pathAccumulated s v :=
  mkState (pos s) (dir s) (p s) (q s) (t0 s) (dt s) (navDir s) (stepSize s)
          v (covTransport s) (cov s) (jacobian s)
          (jacTransport s) (derivative s) (jacToGlobal s).

Definition set_cov s v :=
  mkState (pos s) (dir s) (p s) (q s) (t0 s) (dt s) (navDir s) (stepSize s)
          (pathAccumulated s) (covTransport s) v (jacobian s)
          (jacTransport s) (derivative s) (jacToGlobal s).

Definition set_jacobian s v :=
  mkState (pos s) (dir s) (p s) (q s) (t0 s) (dt s) (navDir s) (stepSize s)
          (pathAccumulated s) (covTransport s) (cov s) v
          (jacTransport s) (derivative s) (jacToGlobal s).

Definition set_jacTransport s v :=
  mkState (pos s) (dir s) (p s) (q s) (t0 s) (dt s) (navDir s) (stepSize s)
          (pathAccumulated s) (covTransport s) (cov s) (jacobian s)
          v (derivative s) (jacToGlobal s).

Definition set_derivative s v :=
  mkState (pos s) (dir s) (p s) (q s) (t0 s) (dt s) (navDir s) (stepSize s)
          (pathAccumulated s) (covTransport s) (cov s) (jacobian s)
          (jacTransport s) v (jacToGlobal s).

Definition set_stepping (ps : PropagatorState) s := mkPropagatorState s (options ps).

End Setters.

Section Stepper.

Context {libm : Libm}.
Context {Surface : Type} {surfaceI : SurfaceInterface Surface}.
Context {BoundParameters CurvilinearParameters : Type}.
Context {parsI : ParametersInterface Surface BoundParameters}.
Context {parsC : ParametersConstructors Surface BoundParameters CurvilinearParameters}.

(** The members set by both constructors. *)
Definition State_init (par : BoundParameters) (ndir : NavigationDirection)
  (ssize : dbl) : State :=
  mkState (position par)
          (v3_normalized (momentum par))
          (v3_norm (momentum par))
          (charge par)
          (time par)
          (dlit 0)
          ndir
          (navDir_value ndir * dabs ssize)
          (dlit 0)
          false
          (Zero FreeParsDim FreeParsDim)
          (Identity FreeParsDim)
          (Identity FreeParsDim)
          (Zero_vec FreeParsDim)
          None.

Definition with_covariance (s : State) (jtg : option mat) (c : mat) : State :=
  mkState (pos s) (dir s) (p s) (q s) (t0 s) (dt s) (navDir s) (stepSize s)
          (pathAccumulated s) true c (jacobian s)
          (jacTransport s) (derivative s) jtg.

(** [State::State], the constructor from parameters with a bound
    covariance. *)
Definition State_ctor (par : BoundParameters) (ndir : NavigationDirection)
  (ssize : dbl) : State :=
  let s := State_init par ndir ssize in
  match par_covariance par with
  | Some c =>
      let jacToGlobal :=
        initJacobianToGlobal (par_referenceSurface par) (position par)
                             (v3_normalized (momentum par)) (par_parameters par) in
      with_covariance s (Some jacToGlobal)
                      (mmul (mmul jacToGlobal c) (transpose jacToGlobal))
  | None => s
  end.

(** [State::State], the constructor from parameters with a free
    covariance. *)
Definition State_ctor_free (par : BoundParameters) (ndir : NavigationDirection)
  (ssize : dbl) : State :=
  let s := State_init par ndir ssize in
  match par_covariance par with
  | Some c => with_covariance s None c
  | None => s
  end.

(** [getField]: the stepper has no field. *)
Definition getField (s : State) (at_pos : Vector3D) : Vector3D :=
  mkVector3D (dlit 0) (dlit 0) (dlit 0).

Definition jacFull_of (s : State) (factors : vec) : mat :=
  msub (jacTransport s) (outer (derivative s) factors).

Definition transported (jacFull c : mat) : mat :=
  mmul (mmul jacFull c) (transpose jacFull).

(** [covarianceTransport(state, reinitialize)] *)
Definition covarianceTransport (state : State) (reinitialize : bool) : State :=
  let normVec := v3_to_list (dir state) in
  let sfactors := vmmul normVec (topLeftCorner 3 FreeParsDim (jacTransport state)) in
  let jacFull := jacFull_of state sfactors in
  let state := set_cov state (transported jacFull (cov state)) in
  let state :=
    if reinitialize then set_jacTransport state (Identity FreeParsDim) else state in
  set_jacobian state (mmul jacFull (jacobian state)).

(** [covarianceTransport(state, surface, reinitialize)].  The source
    hands [derivativeFactors] a name [rframeT] that this function does
    not declare; the model takes the frame [initJacobianToLocal] gives,
    as [boundState] computes it and as the EigenStepper does. *)
Definition covarianceTransport_surface (state : State) (surface : Surface)
  (reinitialize : bool) : State :=
  let rframeT := snd (initJacobianToLocal surface (pos state) (dir state)) in
  let sVec :=
    derivativeFactors surface (pos state) (dir state) rframeT (jacTransport state) in
  let jacFull := jacFull_of state sVec in
  let state := set_cov state (transported jacFull (cov state)) in
  let state :=
    if reinitialize then
      set_derivative (set_jacTransport state (Identity FreeParsDim))
                     (Zero_vec FreeParsDim)
    else state in
  set_jacobian state (mmul jacFull (jacobian state)).

Definition BoundState : Type := BoundParameters * mat * dbl.
Definition CurvilinearState : Type := CurvilinearParameters * mat * dbl.

(** [boundState(state, surface, reinitialize)].  The source does not
    compile as it stands: the argument of [make_unique] ends in a stray
    semicolon.  The model reads the statement without it. *)
Definition boundState (state : State) (surface : Surface) (reinitialize : bool)
  : BoundState * State :=
  let '(covPtr, jacobian_b, state) :=
    if covTransport state then
      let state := covarianceTransport_surface state surface reinitialize in
      let jacToLocal := fst (initJacobianToLocal surface (pos state) (dir state)) in
      (Some (mmul (mmul jacToLocal (cov state)) (transpose jacToLocal)),
       mmul (mmul jacToLocal (jacobian state)) (transpose jacToLocal),
       state)
    else (None, Identity 6, state) in
  let parameters :=
    BoundParameters_ctor covPtr (pos state) (v3_scale (p state) (dir state))
                         (q state) (t0 state + dt state) surface in
  let bState := (parameters, jacobian_b, pathAccumulated state) in
  let state :=
    if reinitialize then set_jacobian state (Identity FreeParsDim) else state in
  (bState, state).

(** [curvilinearState(state, reinitialize)].  The source calls
    [freeToBoundJacobian(state)], a name the class does not declare; the
    model takes the stepper's [freeToCurvilinearJacobian] for it. *)
Definition curvilinearState (state : State) (reinitialize : bool)
  : CurvilinearState * State :=
  let '(covPtr, jacobian_b, state) :=
    if covTransport state then
      let state := covarianceTransport state reinitialize in
      let jacToCurv := freeToCurvilinearJacobian (dir state) in
      (Some (mmul (mmul jacToCurv (cov state)) (transpose jacToCurv)),
       mmul (mmul jacToCurv (jacobian state)) (transpose jacToCurv),
       state)
    else (None, Identity 6, state) in
  let parameters :=
    CurvilinearParameters_ctor covPtr (pos state) (v3_scale (p state) (dir state))
                               (q state) (t0 state + dt state) in
  let curvState := (parameters, jacobian_b, pathAccumulated state) in
  let state :=
    if reinitialize then set_jacobian state (Identity FreeParsDim) else state in
  (curvState, state).

(** [update(state, pars)] *)
Definition update (state : State) (pars : BoundParameters) : State :=
  let mom := momentum pars in
  let state := set_pos state (position pars) in
  let state := set_dir state (v3_normalized mom) in
  let state := set_p state (v3_norm mom) in
  let state := set_dt state (time pars) in
  match par_covariance pars with
  | Some _ => set_cov state (globalCovariance pars)
  | None => state
  end.

(** [update(state, uposition, udirection, up, time)] *)
Definition update_free (state : State) (uposition udirection : Vector3D)
  (up time : dbl) : State :=
  set_dt (set_p (set_dir (set_pos state uposition) udirection) up) time.

(** The step transport matrix [D] of a step of size [h]; [dtdl] is the
    entry [D(3, 7)]. *)
Definition transport_D (h dtdl : dbl) : mat :=
  let D := Identity FreeParsDim in
  let D := set_block33 D 0 4 (mscale (Identity 3) h) in
  set_coeff D 3 7 dtdl.

(** [StraightLineStepper::step] *)
Definition step (state : PropagatorState) : Result dbl * PropagatorState :=
  let s := stepping state in
  let h := stepSize s in
  let m := mass (options state) in
  (* time propagates along distance as 1/b = sqrt(1 + m^2/p^2) *)
  let dtds := hypot (dlit 1) (m / p s) in
  let s := set_pos s (v3_add (pos s) (v3_scale h (dir s))) in
  let s := set_dt s (dt s + h * dtds) in
  let s :=
    if covTransport s then
      let D := transport_D h (h * m * m / (p s * dtds)) in
      let s := set_derivative s (set_nth 3 dtds (derivative s)) in
      let s := set_jacTransport s (mmul D (jacTransport s)) in
      set_derivative s (set_segment3 (derivative s) 0 (dir s))
    else s in
  let s := set_pathAccumulated s (pathAccumulated s + h) in
  (Ok h, set_stepping state s).

(** The stepper as an implementation of the stepper concept. *)
Definition Stepper_interface :
  StepperInterface State PropagatorState Surface BoundParameters
                   BoundState CurvilinearState :=
  {| i_boundState := boundState;
     i_curvilinearState := curvilinearState;
     i_update := update;
     i_update_free := update_free;
     i_covarianceTransport := covarianceTransport;
     i_covarianceTransport_surface := covarianceTransport_surface;
     i_step := step |}.

End Stepper.

(** The transport matrix of a step of finite size [h], written out. *)
Definition translation_jacobian (h dtdl : dbl) : mat :=
  let o := dlit 0 in
  let i := dlit 1 in
  [[i; o; o; o; h; o; o; o];
   [o; i; o; o; o; h; o; o];
   [o; o; i; o; o; o; h; o];
   [o; o; o; i; o; o; o; dtdl];
   [o; o; o; o; i; o; o; o];
   [o; o; o; o; o; i; o; o];
   [o; o; o; o; o; o; i; o];
   [o; o; o; o; o; o; o; i]].

(** ** Parameters to run the stepper on *)

(** Track parameters given by their global position and momentum. *)
Record TestParameters : Type := mkTestParameters {
  tp_position : Vector3D;
  tp_momentum : Vector3D;
  tp_charge : dbl;
  tp_time : dbl
}.

Definition TestParameters_interface : ParametersInterface unit TestParameters :=
  {| position := tp_position;
     momentum := tp_momentum;
     charge := tp_charge;
     time := tp_time;
     par_parameters := fun _ => Zero_vec 6;
     par_covariance := fun _ => None;
     globalCovariance := fun _ => Zero FreeParsDim FreeParsDim;
     par_referenceSurface := fun _ => tt |}.

Definition unit_surface : SurfaceInterface unit :=
  {| initJacobianToLocal := fun _ _ _ => (Zero 6 FreeParsDim, Identity 3);
     derivativeFactors := fun _ _ _ _ _ => Zero_vec FreeParsDim;
     initJacobianToGlobal := fun _ _ _ _ => Zero FreeParsDim 6 |}.

(** A particle at rest: zero momentum. *)
Definition at_rest : TestParameters :=
  mkTestParameters v3_zero v3_zero (dlit 1) (dlit 0).

(** Momentum (3, 4, 0). *)
Definition moving : TestParameters :=
  mkTestParameters v3_zero (mkVector3D (dlit 3) (dlit 4) (dlit 0)) (dlit 1) (dlit 0).

Definition test_State (par : TestParameters) : State :=
  @State_ctor EigenStepper.libm_model unit unit_surface TestParameters
              TestParameters_interface par forward (dlit 10).

Definition test_propagator_state (par : TestParameters) : PropagatorState :=
  mkPropagatorState (test_State par) (mkOptions (dlit 0.13957)).

(** ** Properties *)

Section StepperProperties.

Context {libm : Libm}.
Context {Surface : Type} {surfaceI : SurfaceInterface Surface}.
Context {BoundParameters CurvilinearParameters : Type}.
Context {parsI : ParametersInterface Surface BoundParameters}.
Context {parsC : ParametersConstructors Surface BoundParameters CurvilinearParameters}.

Lemma transport_D_finite (x : Qc) (dtdl : dbl) :
  transport_D (Fin x) dtdl = translation_jacobian (Fin x) dtdl.
Proof.
  cbv [transport_D translation_jacobian set_block33 set_coeff set_nth fold_left seq
       Identity unit_row map coeff nth mscale dmul Nat.eqb Nat.add FreeParsDim
       d0 d1 dlit].
  rewrite !Qcmult_1_l, !Qcmult_0_l. reflexivity.
Qed.

(** C8.  One call of [step] with step size [h] returns [h], moves the
    position by [h * dir], leaves the direction as it is and adds [h] to
    the accumulated path; with covariance transport the transport
    jacobian is multiplied from the left by [D], and for a finite [h]
    [D] is the identity with [h] on the diagonal of the
    position/direction block and the time entry [D(3,7)].  The step is
    taken through the same [StepperInterface] the EigenStepper
    implements. *)
Theorem straight_line_step (state : PropagatorState) :
  let s := stepping state in
  let h := stepSize s in
  let m := mass (options state) in
  let dtds := hypot (dlit 1) (m / p s) in
  let dtdl := h * m * m / (p s * dtds) in
  let r := i_step Stepper_interface state in
  fst r = Ok h /\
  pos (stepping (snd r)) = v3_add (pos s) (v3_scale h (dir s)) /\
  dir (stepping (snd r)) = dir s /\
  pathAccumulated (stepping (snd r)) = pathAccumulated s + h /\
  (covTransport s = true ->
     jacTransport (stepping (snd r)) = mmul (transport_D h dtdl) (jacTransport s)) /\
  (covTransport s = false -> jacTransport (stepping (snd r)) = jacTransport s) /\
  (forall x : Qc, h = Fin x ->
     transport_D h dtdl =
       [[d1; d0; d0; d0; h; d0; d0; d0];
        [d0; d1; d0; d0; d0; h; d0; d0];
        [d0; d0; d1; d0; d0; d0; h; d0];
        [d0; d0; d0; d1; d0; d0; d0; dtdl];
        [d0; d0; d0; d0; d1; d0; d0; d0];
        [d0; d0; d0; d0; d0; d1; d0; d0];
        [d0; d0; d0; d0; d0; d0; d1; d0];
        [d0; d0; d0; d0; d0; d0; d0; d1]]).
Proof.
  cbv zeta. cbn [i_step Stepper_interface]. unfold step.
  destruct (covTransport (stepping state)) eqn:Hc; cbn; rewrite ?Hc; cbn;
    repeat split; try reflexivity; try discriminate;
    intros x Hx; rewrite Hx; apply transport_D_finite.
Qed.

(** C7, as the code has it.  Both constructors of the stepper state
    and [EigenStepper::update] take [p] as [momentum.norm()], the square
    root of the squared norm of the momentum, and the direction as
    [momentum.normalized()]: the momentum divided by that square root
    when the squared norm is positive, the momentum itself otherwise.
    The constructors take the charge as it is, [update] leaves it
    untouched.  Nothing is clamped: for a momentum whose squared norm is
    zero, [p] is [sqrt(0)] and the direction is the momentum itself. *)
Theorem state_from_parameters (par : BoundParameters) (ndir : NavigationDirection)
  (ssize : dbl) (E : Type) (es : EigenStepper.State E) :
  let mom := momentum par in
  let z := v3_squaredNorm mom in
  let normalized := if dltb d0 z then v3_div mom (sqrt z) else mom in
  let s := State_ctor par ndir ssize in
  let sf := State_ctor_free par ndir ssize in
  let es' := EigenStepper.update es par in
  (p s = sqrt z /\ dir s = normalized /\ q s = charge par) /\
  (p sf = sqrt z /\ dir sf = normalized /\ q sf = charge par) /\
  (EigenStepper.p es' = sqrt z /\ EigenStepper.dir es' = normalized /\
   EigenStepper.q es' = EigenStepper.q es) /\
  (z = d0 ->
     p s = sqrt d0 /\ dir s = mom /\
     p sf = sqrt d0 /\ dir sf = mom /\
     EigenStepper.p es' = sqrt d0 /\ EigenStepper.dir es' = mom).
Proof.
  intros mom z normalized s sf es'.
  assert (Hs : p s = sqrt z /\ dir s = normalized /\ q s = charge par).
  { unfold s, State_ctor. destruct (par_covariance par); repeat split. }
  assert (Hf : p sf = sqrt z /\ dir sf = normalized /\ q sf = charge par).
  { unfold sf, State_ctor_free. destruct (par_covariance par); repeat split. }
  assert (He : EigenStepper.p es' = sqrt z /\ EigenStepper.dir es' = normalized /\
               EigenStepper.q es' = EigenStepper.q es).
  { unfold es', EigenStepper.update. destruct (par_covariance par); repeat split. }
  split; [exact Hs |]. split; [exact Hf |]. split; [exact He |].
  intros Hz.
  destruct Hs as (Hp & Hd & _). destruct Hf as (Hp' & Hd' & _).
  destruct He as (Hp'' & Hd'' & _).
  assert (Hn : normalized = mom).
  { unfold normalized. rewrite Hz. reflexivity. }
  rewrite Hp, Hd, Hp', Hd', Hp'', Hd'', Hn, Hz. repeat split.
Qed.

End StepperProperties.

(** C7, the claim as stated, fails: nothing is clamped.  For a particle
    at rest the constructed state has [p = 0] and a direction of length
    zero; [q / p] and [mass / p] are divisions by zero, and one step
    turns the time into an infinity.  [EigenStepper::update] stores the
    same [p] and direction. *)
Lemma state_from_parameters_counterexample :
  let s := test_State at_rest in
  let es' := @EigenStepper.update EigenStepper.libm_model unit unit TestParameters
               TestParameters_interface (EigenStepper.test_stepping (dlit 1)) at_rest in
  let after := snd (@step EigenStepper.libm_model (test_propagator_state at_rest)) in
  p s = dlit 0 /\
  dir s = v3_zero /\
  v3_squaredNorm (dir s) = dlit 0 /\
  q s / p s = PInf /\
  mass (options (test_propagator_state at_rest)) / p s = PInf /\
  dt (stepping after) = PInf /\
  EigenStepper.p es' = dlit 0 /\
  EigenStepper.dir es' = v3_zero.
Proof.
  cbv zeta.
  split; [apply deqb_eq; vm_compute; reflexivity |].
  split; [apply v3_eqb_eq; vm_compute; reflexivity |].
  split; [apply deqb_eq; vm_compute; reflexivity |].
  split; [vm_compute; reflexivity |].
  split; [vm_compute; reflexivity |].
  split; [vm_compute; reflexivity |].
  split; [apply deqb_eq; vm_compute; reflexivity |].
  apply v3_eqb_eq; vm_compute; reflexivity.
Qed.

End StraightLineStepper.

(* ================================================================== *)
(** * Finite vectors and matrices of the free-parameter size *)
(* ================================================================== *)

Local Open Scope dbl_scope.

(** A vector of [n] finite entries; a matrix of [r] rows of [c] finite
    entries. *)
Definition vec_finite (n : nat) (v : vec) : bool :=
  Nat.eqb (length v) n && forallb is_finite v.

Definition mat_finite (r c : nat) (m : mat) : bool :=
  Nat.eqb (length m) r && forallb (vec_finite c) m.

Lemma vec_finite_cons (n : nat) (a : dbl) (v : vec) :
  vec_finite (S n) (a :: v) = true ->
  (exists q : Qc, a = Fin q) /\ vec_finite n v = true.
Proof.
  unfold vec_finite. cbn [length forallb Nat.eqb].
  intros H. apply andb_prop in H as [Hl H]. apply andb_prop in H as [Ha Hv].
  split.
  - destruct a as [q | | |]; try discriminate. now exists q.
  - now rewrite Hl, Hv.
Qed.

Lemma vec_finite_nil_inv (v : vec) : vec_finite 0 v = true -> v = [].
Proof. destruct v; [reflexivity | discriminate]. Qed.

Lemma vec_finite_8 (v : vec) :
  vec_finite 8 v = true ->
  exists a0 a1 a2 a3 a4 a5 a6 a7 : Qc,
    v = [Fin a0; Fin a1; Fin a2; Fin a3; Fin a4; Fin a5; Fin a6; Fin a7].
Proof.
  intros H.
  do 8 (destruct v as [| ? v]; [discriminate H |];
        apply vec_finite_cons in H; destruct H as [[? ->] H]).
  apply vec_finite_nil_inv in H. subst v. eauto 10.
Qed.

Lemma mat_finite_cons (r c : nat) (row : vec) (m : mat) :
  mat_finite (S r) c (row :: m) = true ->
  vec_finite c row = true /\ mat_finite r c m = true.
Proof.
  unfold mat_finite. cbn [length forallb Nat.eqb].
  intros H. apply andb_prop in H as [Hl H]. apply andb_prop in H as [Ha Hv].
  split; [exact Ha | now rewrite Hl, Hv].
Qed.

Lemma mat_finite_8 (m : mat) :
  mat_finite 8 8 m = true ->
  exists r0 r1 r2 r3 r4 r5 r6 r7 : vec,
    m = [r0; r1; r2; r3; r4; r5; r6; r7] /\
    vec_finite 8 r0 = true /\ vec_finite 8 r1 = true /\
    vec_finite 8 r2 = true /\ vec_finite 8 r3 = true /\
    vec_finite 8 r4 = true /\ vec_finite 8 r5 = true /\
    vec_finite 8 r6 = true /\ vec_finite 8 r7 = true.
Proof.
  intros H.
  do 8 (destruct m as [| ? m]; [discriminate H |];
        apply mat_finite_cons in H; destruct H as [? H]).
  destruct m; [| discriminate H].
  do 8 eexists. split; [reflexivity |]. repeat split; assumption.
Qed.

(** Names the 64 entries of a finite 8x8 matrix. *)
Ltac finite_rows H :=
  apply mat_finite_8 in H;
  destruct H as (?r & ?r & ?r & ?r & ?r & ?r & ?r & ?r & -> & H);
  repeat match type of H with
         | _ /\ _ => let H1 := fresh "Hrow" in destruct H as [H1 H]
         end;
  repeat match goal with
         | Hr : vec_finite 8 _ = true |- _ =>
             apply vec_finite_8 in Hr;
             destruct Hr as (? & ? & ? & ? & ? & ? & ? & ? & ->)
         end.

(** Entry by entry, by [ring]. *)
Ltac matrix_ring :=
  cbv [mmul msub madd outer Identity Zero_vec repeat unit_row map seq transpose map2 dot dsum
       fold_left dmul dadd dsub dopp vsub vadd Nat.eqb d0 d1 dlit FreeParsDim];
  repeat match goal with
         | |- _ :: _ = _ :: _ => apply f_equal2
         | |- Fin _ = Fin _ => apply f_equal; ring
         | |- [] = [] => reflexivity
         end.

(** The full jacobian right after a reinitialisation. *)
Lemma jacFull_reinitialized (factors : vec) :
  vec_finite 8 factors = true ->
  msub (Identity FreeParsDim) (outer (Zero_vec FreeParsDim) factors)
  = Identity FreeParsDim.
Proof.
  intros H. apply vec_finite_8 in H.
  destruct H as (? & ? & ? & ? & ? & ? & ? & ? & ->).
  matrix_ring.
Qed.

Lemma mmul_Identity_l (c : mat) :
  mat_finite 8 8 c = true -> mmul (Identity FreeParsDim) c = c.
Proof. intros H. finite_rows H. matrix_ring. Qed.

Lemma mmul_Identity_r (c : mat) :
  mat_finite 8 8 c = true -> mmul c (transpose (Identity FreeParsDim)) = c.
Proof. intros H. finite_rows H. matrix_ring. Qed.

Lemma transported_Identity (c : mat) :
  mat_finite 8 8 c = true ->
  mmul (mmul (Identity FreeParsDim) c) (transpose (Identity FreeParsDim)) = c.
Proof.
  intros H. rewrite (mmul_Identity_l _ H). now apply mmul_Identity_r.
Qed.

Lemma mmul_Identity_Identity :
  mmul (Identity FreeParsDim) (Identity FreeParsDim) = Identity FreeParsDim.
Proof. apply mat_eqb_eq. vm_compute. reflexivity. Qed.

(** Values that are not finite stay so. *)
Lemma nonfinite_times_zero (a : dbl) : is_finite a = false -> a * d0 = NaN.
Proof. destruct a; try discriminate; reflexivity. Qed.

Lemma times_PInf_nonfinite (a : dbl) : is_finite (a * PInf) = false.
Proof.
  destruct a as [q | | |]; try reflexivity.
  cbn. apply GainMatrixUpdater.inf_signed_nonfinite.
Qed.

Lemma add_nonfinite_l (a b : dbl) : is_finite a = false -> is_finite (a + b) = false.
Proof. destruct a, b; try discriminate; reflexivity. Qed.

Lemma add_nonfinite_r (a b : dbl) : is_finite b = false -> is_finite (a + b) = false.
Proof. destruct a, b; try discriminate; reflexivity. Qed.

Lemma mul_nonfinite_l (a b : dbl) : is_finite a = false -> is_finite (a * b) = false.
Proof.
  destruct a, b; try discriminate; try reflexivity;
    intros _; apply GainMatrixUpdater.inf_signed_nonfinite.
Qed.

Local Close Scope dbl_scope.

(* ================================================================== *)
(** * EigenStepper: the outcomes of a step *)
(* ================================================================== *)

Module StepOutcomes.

Import EigenStepper.
Local Open Scope dbl_scope.

(** An extension that has no valid candidate for any step. *)
Definition DecliningExtension : Extension unit :=
  {| validExtensionForStep := fun _ => (false, tt);
     ext_k1 := fun state B => lorentz_k state B d0 v3_zero;
     ext_k2 := lorentz_k;
     ext_k3 := lorentz_k;
     ext_k4 := lorentz_k;
     ext_finalize := lorentz_finalize;
     ext_finalizeD := fun state h =>
       (lorentz_finalize state h,
        set_block33 (Identity FreeParsDim) 0 4 (mscale (Identity 3) h)) |}.

(** ** The variant of [step] without the attempt counter *)

Section Unbounded.

Context {libm : Libm}.
Context {E : Type} {extensionE : Extension E}.
Context {m_bField : MagneticField}.

Implicit Types (state : PropagatorState E).

(** What one pass through the loop ends in. *)
Inductive Pass : Type :=
| Again (state : PropagatorState E) (loc : Locals)
| Leave (how : LoopExit) (state : PropagatorState E) (loc : Locals).

(** One evaluation of the loop condition and, when the trial fails, of
    the loop body. *)
Definition rk_pass state (loc : Locals) : Pass :=
  let '(ok, state, loc) := tryRungeKuttaStep state loc (stepSize (stepping state)) in
  if ok then Leave Accepted state loc else
  let stepSizeScaling :=
    stepSizeScaling_of (tolerance (options state)) (error_estimate loc) in
  if deqb stepSizeScaling (dlit 1) then Leave UnitScaling state loc else
  let state := with_stepSize state (stepSize (stepping state) * stepSizeScaling) in
  if dltb (stepSize (stepping state) * stepSize (stepping state))
          (stepSizeCutOff (options state) * stepSizeCutOff (options state))
  then Leave Stalled state loc
  else Again state loc.

(** The [while] loop; [None] when it is still running after [fuel]
    passes. *)
Fixpoint rk_passes (fuel : nat) state (loc : Locals)
  : option (LoopExit * PropagatorState E * Locals) :=
  match fuel with
  | O => None
  | S fuel' =>
      match rk_pass state loc with
      | Leave how state' loc' => Some (how, state', loc')
      | Again state' loc' => rk_passes fuel' state' loc'
      end
  end.

(** The statements after the loop: the derivative is written whether or
    not covariances are transported, [k4] at offset 3. *)
Definition update_track_unbounded (s : State E) (h h2 : dbl) : State E :=
  let sd := stepData s in
  let s := set_pos s (v3_add (pos s) (position_increment h h2 (dir s) sd)) in
  let s := set_dir s (v3_add (dir s) (direction_increment h sd)) in
  let s := set_dir s (v3_div (dir s) (v3_norm (dir s))) in
  let s :=
    set_derivative s
      (set_segment3 (set_segment3 (derivative s) 0 (dir s)) 3 (k4 sd)) in
  set_pathAccumulated s (pathAccumulated s + h).

Definition finish_step_unbounded state (loc : Locals)
  : Result dbl * PropagatorState E :=
  let h := stepSize (stepping state) in
  if covTransport (stepping state) then
    let '(ok, fe, D) := ext_finalizeD state h in
    let state := set_stepping state (apply_finalize (stepping state) fe) in
    if negb ok then (Err StepInvalid, state) else
    let state :=
      set_stepping state
        (set_jacTransport (stepping state) (mmul D (jacTransport (stepping state)))) in
    (Ok h, set_stepping state (update_track_unbounded (stepping state) h (h2 loc)))
  else
    let '(ok, fe) := ext_finalize state h in
    let state := set_stepping state (apply_finalize (stepping state) fe) in
    if negb ok then (Err StepInvalid, state) else
    (Ok h, set_stepping state (update_track_unbounded (stepping state) h (h2 loc))).

(** [EigenStepper::step] without the attempt counter. *)
Definition step_unbounded (fuel : nat) state : option (Result dbl * PropagatorState E) :=
  let '(state, go) := begin_step state in
  if negb go then Some (Ok (dlit 0), state) else
  match rk_passes fuel state Locals_init with
  | None => None
  | Some (Stalled, state, _) => Some (Err StepSizeStalled, state)
  | Some (_, state, loc) => Some (finish_step_unbounded state loc)
  end.

End Unbounded.

(** ** Properties *)

Section StepProperties.

Context {libm : Libm}.
Context {E : Type} {extensionE : Extension E}.
Context {m_bField : MagneticField}.

Implicit Types (state : PropagatorState E).

Lemma finish_step_error state loc e state' :
  finish_step state loc = (Err e, state') ->
  e = StepInvalid /\
  exists fe, stepping state' = apply_finalize (stepping state) fe.
Proof.
  unfold finish_step.
  destruct (covTransport (stepping state)).
  - destruct (ext_finalizeD state _) as [[ok fe] D].
    destruct ok; cbn [negb]; intros Heq; inversion Heq; subst.
    split; [reflexivity | now exists fe].
  - destruct (ext_finalize state _) as [ok fe].
    destruct ok; cbn [negb]; intros Heq; inversion Heq; subst.
    split; [reflexivity | now exists fe].
Qed.

Lemma finish_step_ok state loc h state' :
  finish_step state loc = (Ok h, state') ->
  h = stepSize (stepping state) /\
  stepSize (stepping state') = stepSize (stepping state) /\
  pathAccumulated (stepping state') = pathAccumulated (stepping state) + h.
Proof.
  unfold finish_step.
  destruct (covTransport (stepping state)) eqn:Hc.
  - destruct (ext_finalizeD state _) as [[ok fe] D].
    destruct ok; cbn [negb]; intros Heq; inversion Heq; subst.
    unfold update_track. cbn. rewrite Hc. cbn. repeat split.
  - destruct (ext_finalize state _) as [ok fe].
    destruct ok; cbn [negb]; intros Heq; inversion Heq; subst.
    unfold update_track. cbn. rewrite Hc. cbn. repeat split.
Qed.

(** X1.  When the extension list has no valid extension for the step, or
    the first Runge-Kutta point [k1] is refused, [step] returns the step
    length 0 as a success: position, direction, momentum, time,
    accumulated path, covariance and jacobians are the ones before the
    call, and so is the step size. *)
Theorem declined_step_returns_zero state :
  snd (begin_step state) = false ->
  fst (step state) = Ok (dlit 0) /\
  frame_of (stepping (snd (step state))) = frame_of (stepping state) /\
  stepSize (stepping (snd (step state))) = stepSize (stepping state).
Proof.
  intros Hgo. unfold step.
  destruct (begin_step state) as [state0 go] eqn:Hb. cbn [snd] in Hgo. subst go.
  cbn [negb fst snd].
  pose proof (begin_step_frame _ Hb) as (Hf & Hs & _). auto.
Qed.

(** X2.  A call of [step] that returns an error, [StepSizeStalled] or
    [StepInvalid], has not moved the track: position, direction,
    accumulated path, covariance and both jacobians are the ones before
    the call. *)
Theorem failed_step_keeps_track state e state' :
  step state = (Err e, state') ->
  pos (stepping state') = pos (stepping state) /\
  dir (stepping state') = dir (stepping state) /\
  pathAccumulated (stepping state') = pathAccumulated (stepping state) /\
  cov (stepping state') = cov (stepping state) /\
  jacobian (stepping state') = jacobian (stepping state) /\
  jacTransport (stepping state') = jacTransport (stepping state).
Proof.
  unfold step.
  destruct (begin_step state) as [state0 go] eqn:Hb.
  pose proof (begin_step_frame _ Hb) as (Hf0 & _ & _).
  destruct go; cbn [negb]; [| discriminate].
  destruct (rk_loop 100 state0 Locals_init 0) as [[[how s1] l1] n1] eqn:Hl.
  pose proof (rk_loop_frame _ _ _ _ Hl) as (Hf1 & _ & _ & _).
  assert (Hf : frame_of (stepping s1) = frame_of (stepping state)) by congruence.
  unfold frame_of in Hf.
  assert (Hfin : finish_step s1 l1 = (Err e, state') ->
                 pos (stepping state') = pos (stepping state) /\
                 dir (stepping state') = dir (stepping state) /\
                 pathAccumulated (stepping state') = pathAccumulated (stepping state) /\
                 cov (stepping state') = cov (stepping state) /\
                 jacobian (stepping state') = jacobian (stepping state) /\
                 jacTransport (stepping state') = jacTransport (stepping state)).
  { intros Heq. apply finish_step_error in Heq. destruct Heq as (_ & fe & ->).
    cbn. repeat split; congruence. }
  destruct how; try exact Hfin.
  intros Heq. inversion Heq; subst. repeat split; congruence.
Qed.

(** X3.  The value a successful [step] returns is the length by which the
    accumulated path has grown, however the loop was left: when the
    extension took the step, the state's step size afterwards is the
    returned value [h] and [pathAccumulated] has grown by [h]; when the
    extension declined, the returned value is 0 and [pathAccumulated] is
    untouched. *)
Theorem step_returns_path_increment state h state' :
  step state = (Ok h, state') ->
  (snd (begin_step state) = true ->
     stepSize (stepping state') = h /\
     pathAccumulated (stepping state') = pathAccumulated (stepping state) + h) /\
  (snd (begin_step state) = false ->
     h = dlit 0 /\
     pathAccumulated (stepping state') = pathAccumulated (stepping state)).
Proof.
  unfold step.
  destruct (begin_step state) as [state0 go] eqn:Hb.
  pose proof (begin_step_frame _ Hb) as (Hf0 & _ & _).
  destruct go; cbn [negb snd].
  - destruct (rk_loop 100 state0 Locals_init 0) as [[[how s1] l1] n1] eqn:Hl.
    pose proof (rk_loop_frame _ _ _ _ Hl) as (Hf1 & _ & _ & _).
    assert (Hf : frame_of (stepping s1) = frame_of (stepping state)) by congruence.
    unfold frame_of in Hf.
    assert (Hpath : pathAccumulated (stepping s1) = pathAccumulated (stepping state))
      by congruence.
    assert (Hfin : finish_step s1 l1 = (Ok h, state') ->
              (true = true ->
               stepSize (stepping state') = h /\
               pathAccumulated (stepping state') = pathAccumulated (stepping state) + h) /\
              (true = false ->
               h = dlit 0 /\
               pathAccumulated (stepping state') = pathAccumulated (stepping state))).
    { intros Heq. apply finish_step_ok in Heq. destruct Heq as (Hh & Hs & Hp).
      split; [| discriminate]. intros _. split; congruence. }
    destruct how; try exact Hfin. discriminate.
  - intros Heq. inversion Heq; subst. split; [discriminate |].
    intros _. split; [reflexivity |]. unfold frame_of in Hf0. congruence.
Qed.

Lemma dleb_four_quarter (x : dbl) :
  dleb (dlit 4) x = true -> dmin (dmax (dlit 0.25) x) (dlit 4) = dlit 4.
Proof.
  intros H. destruct x as [q | | |]; try discriminate H; [| reflexivity].
  unfold dlit in *. apply dleb_fin in H.
  assert (Hq : dltb (Fin (Q2Qc 0.25)) (Fin q) = true).
  { apply dltb_fin. eapply Qclt_le_trans; [| exact H]. reflexivity. }
  unfold dmax. rewrite Hq. unfold dmin.
  destruct (dltb (Fin (Q2Qc 4)) (Fin q)) eqn:C; [reflexivity |].
  f_equal. apply Qcle_antisym; [| exact H].
  apply Qcnot_lt_le. intros Hlt. apply dltb_fin in Hlt. congruence.
Qed.

(** X4.  The factor the step size is rescaled with,
    [min(max(0.25, pow(tol / |2 err|, 0.25)), 4)], lies in [0.25, 4] for
    every tolerance and every error estimate, whatever [pow] returns: a
    NaN from [pow] gives the factor 0.25, an infinity the factor 4. *)
Theorem scaling_factor_range (tol err : dbl) :
  dleb (dlit 0.25) (stepSizeScaling_of tol err) = true /\
  dleb (stepSizeScaling_of tol err) (dlit 4) = true.
Proof.
  unfold stepSizeScaling_of.
  generalize (pow (tol / dabs (dlit 2 * err)) (dlit 0.25)). intros x.
  unfold dmax. destruct (dltb (dlit 0.25) x) eqn:Hlo.
  - unfold dmin. destruct (dltb (dlit 4) x) eqn:Hhi.
    + split; reflexivity.
    + split; [unfold dleb; now rewrite Hlo |].
      destruct x as [q | | |]; try discriminate.
      unfold dlit in *. apply dleb_fin. apply Qcnot_lt_le. intros Hlt.
      apply dltb_fin in Hlt. congruence.
  - split; reflexivity.
Qed.

Lemma scaling_without_estimate (t : Qc) :
  (0 < t)%Qc ->
  dleb (dlit 4) (pow PInf (dlit 0.25)) = true ->
  stepSizeScaling_of (Fin t) (dlit 0) = dlit 4.
Proof.
  intros Ht Hpow. unfold stepSizeScaling_of.
  assert (Hr : Fin t / dabs (dlit 2 * dlit 0) = PInf).
  { replace (dabs (dlit 2 * dlit 0)) with (Fin 0%Qc)
      by (symmetry; apply deqb_eq; vm_compute; reflexivity).
    cbn [ddiv]. rewrite Qc_eq_bool_refl. unfold inf_signed.
    destruct (t ?= 0)%Qc eqn:C; try reflexivity.
    - apply Qceq_alt in C. subst t. discriminate Ht.
    - apply Qclt_alt in C. exfalso.
      apply (Qclt_not_le _ _ C). now apply Qclt_le_weak. }
  rewrite Hr. now apply dleb_four_quarter.
Qed.

(** X5.  A trial that the extension rejects at [k2], [k3] or [k4] leaves
    the error estimate as it was.  When no estimate has been computed
    yet (it is still 0) and the tolerance is positive, the scaling is
    computed from [tol / 0], an infinity: the factor is 4, and the loop
    repeats the trial with four times the step size. *)
Theorem rejected_trial_enlarges_step state state1 loc (t : Qc) n :
  let h := stepSize (stepping state) in
  runge_kutta_points state h = (false, state1) ->
  error_estimate loc = dlit 0 ->
  tolerance (options state) = Fin t -> (0 < t)%Qc ->
  dleb (dlit 4) (pow PInf (dlit 0.25)) = true ->
  S n <> 100%nat ->
  dltb (h * dlit 4 * (h * dlit 4))
       (stepSizeCutOff (options state) * stepSizeCutOff (options state)) = false ->
  rk_iteration state loc n =
    Continue (with_stepSize state1 (h * dlit 4))
             (mkLocals (dlit 0) (h * h) (h * dlit 0.5)) (S n).
Proof.
  intros h Hp Herr Htol Ht Hpow Hn Hcut.
  pose proof (points_frame _ _ Hp) as (_ & Hs & Ho & _).
  unfold rk_iteration. fold h.
  rewrite (try_points_failed state loc h Hp). rewrite Herr.
  cbn [error_estimate]. rewrite Ho, Htol.
  rewrite (scaling_without_estimate Ht Hpow).
  replace (deqb (dlit 4) (dlit 1)) with false by (symmetry; vm_compute; reflexivity).
  apply Nat.eqb_neq in Hn. rewrite Hn.
  rewrite Hs. fold h.
  change (stepSize (stepping (with_stepSize state1 (h * dlit 4)))) with (h * dlit 4).
  change (options (with_stepSize state1 (h * dlit 4))) with (options state1).
  rewrite Ho, Hcut. reflexivity.
Qed.

(** X6.  In the 100th failed attempt the step size is set to 1 mm in the
    navigation direction and the loop is left without a trial of that
    size.  The step is then taken with what the last failed trial left
    behind: the position moves by [h dir + tried^2 / 6 (k1 + k2 + k3)],
    where [h] is the 1 mm step, [tried] the step size of the failed
    trial and [k2], [k3] its Runge-Kutta points; [step] returns [h] and
    adds [h] to the accumulated path. *)
Theorem last_resort_step state state0 s l s1 l1 :
  begin_step state = (state0, true) ->
  reaches state0 Locals_init 0 s l 99 ->
  let tried := stepSize (stepping s) in
  tryRungeKuttaStep s l tried = (false, s1, l1) ->
  deqb (stepSizeScaling_of (tolerance (options s)) (error_estimate l1)) (dlit 1) = false ->
  let h := navDir_value (navDir (stepping state)) * _mm in
  let sd := stepData (stepping s1) in
  let s2 := with_stepSize s1 h in
  (if covTransport (stepping state)
   then fst (fst (ext_finalizeD s2 h)) = true
   else fst (ext_finalize s2 h) = true) ->
  exists state',
    step state = (Ok h, state') /\
    stepSize (stepping state') = h /\
    pathAccumulated (stepping state') = pathAccumulated (stepping state) + h /\
    pos (stepping state') =
      v3_add (pos (stepping state))
             (v3_add (v3_scale h (dir (stepping state)))
                     (v3_scale (tried * tried / dlit 6)
                               (v3_add (v3_add (k1 sd) (k2 sd)) (k3 sd)))).
Proof.
  intros Hb Hr tried Ht Hsc h sd s2 Hfin.
  pose proof (begin_step_frame _ Hb) as (Hf0 & _ & _).
  pose proof (reaches_frame Hr) as (Hf1 & _).
  pose proof (try_frame _ _ _ Ht) as (Hf2 & Hs2 & Ho2 & _ & Hh2).
  assert (Hf : frame_of (stepping s1) = frame_of (stepping state)) by congruence.
  unfold frame_of in Hf.
  assert (Hnav : navDir (stepping s1) = navDir (stepping state)) by congruence.
  assert (Hpos : pos (stepping s1) = pos (stepping state)) by congruence.
  assert (Hdir : dir (stepping s1) = dir (stepping state)) by congruence.
  assert (Hpath : pathAccumulated (stepping s1) = pathAccumulated (stepping state))
    by congruence.
  assert (Hcov : covTransport (stepping s1) = covTransport (stepping state))
    by congruence.
  assert (Hi : rk_iteration s l 99 = Exit LastResort s2 l1 100).
  { unfold rk_iteration. fold tried. rewrite Ht, Ho2, Hsc.
    cbn [Nat.eqb].
    change (navDir (stepping (with_stepSize s1 _))) with (navDir (stepping s1)).
    rewrite Hnav. reflexivity. }
  destruct (rk_loop_reaches Hr 100) as (fuel' & Heq & Hlt & Hge); [lia | lia |].
  destruct fuel' as [| fuel']; [lia |].
  assert (Hlast : rk_loop (S fuel') s l 99 = (LastResort, s2, l1, 100%nat)).
  { cbn [rk_loop]. now rewrite Hi. }
  rewrite Hlast in Heq.
  unfold step. rewrite Hb. cbn [negb]. rewrite Heq.
  unfold finish_step.
  change (stepSize (stepping s2)) with h.
  change (covTransport (stepping s2)) with (covTransport (stepping s1)).
  rewrite Hcov.
  destruct (covTransport (stepping state)) eqn:Hc.
  - destruct (ext_finalizeD s2 h) as [[ok fe] D]. cbn [fst] in Hfin. subst ok.
    cbn [negb]. eexists. split; [reflexivity |].
    unfold update_track. cbn. rewrite Hcov. cbn.
    rewrite Hpos, Hdir, Hpath, Hh2. repeat split.
  - destruct (ext_finalize s2 h) as [ok fe]. cbn [fst] in Hfin. subst ok.
    cbn [negb]. eexists. split; [reflexivity |].
    unfold update_track. cbn. rewrite Hcov. cbn.
    rewrite Hpos, Hdir, Hpath, Hh2. repeat split.
Qed.

Lemma rk_passes_rejecting (t c : Qc) :
  (forall state h, fst (runge_kutta_points state h) = false) ->
  (0 < t)%Qc ->
  dleb (dlit 4) (pow PInf (dlit 0.25)) = true ->
  forall fuel state loc (x : Qc),
    error_estimate loc = dlit 0 ->
    tolerance (options state) = Fin t ->
    stepSizeCutOff (options state) = Fin c ->
    stepSize (stepping state) = Fin x ->
    (c * c <= x * x)%Qc ->
    rk_passes fuel state loc = None.
Proof.
  intros Hrej Ht Hpow.
  induction fuel as [| fuel IH]; intros state loc x Herr Htol Hcut Hx Hle;
    [reflexivity |].
  cbn [rk_passes]. unfold rk_pass.
  destruct (runge_kutta_points state (stepSize (stepping state))) as [ok state1] eqn:Hp.
  pose proof (Hrej state (stepSize (stepping state))) as Hf.
  rewrite Hp in Hf. cbn [fst] in Hf. subst ok.
  pose proof (points_frame _ _ Hp) as (_ & Hs & Ho & _).
  rewrite (try_points_failed state loc _ Hp). rewrite Herr.
  cbn [error_estimate]. rewrite Ho, Htol.
  rewrite (scaling_without_estimate Ht Hpow).
  replace (deqb (dlit 4) (dlit 1)) with false by (symmetry; vm_compute; reflexivity).
  rewrite Hs, Hx.
  change (stepSize (stepping (with_stepSize state1 (Fin x * dlit 4))))
    with (Fin x * dlit 4).
  change (options (with_stepSize state1 (Fin x * dlit 4))) with (options state1).
  rewrite Ho, Hcut.
  unfold dlit. cbn [dmul].
  assert (Hgrow : (c * c <= x * Q2Qc 4 * (x * Q2Qc 4))%Qc).
  { clear - Hle. qc2q. nra. }
  assert (Hnot : dltb (Fin (x * Q2Qc 4 * (x * Q2Qc 4))) (Fin (c * c)) = false).
  { destruct (dltb _ _) eqn:C; [| reflexivity].
    apply dltb_fin in C. exfalso. exact (Qcle_not_lt _ _ Hgrow C). }
  rewrite Hnot.
  apply (IH _ _ (x * Q2Qc 4)%Qc).
  - reflexivity.
  - cbn. now rewrite Ho.
  - cbn. now rewrite Ho.
  - reflexivity.
  - exact Hgrow.
Qed.

(** X7.  The variant of [step] without the attempt counter does not
    return when the extension rejects every trial: with a positive
    tolerance and a step size not below the cut-off, every failed trial
    multiplies the step size by 4, the cut-off is never reached, and
    after any number of passes the loop is still running. *)
Theorem unbounded_step_does_not_return state (t c x : Qc) :
  snd (begin_step state) = true ->
  (forall s h, fst (runge_kutta_points s h) = false) ->
  tolerance (options state) = Fin t ->
  (0 < t)%Qc ->
  dleb (dlit 4) (pow PInf (dlit 0.25)) = true ->
  stepSizeCutOff (options state) = Fin c ->
  stepSize (stepping state) = Fin x ->
  (c * c <= x * x)%Qc ->
  forall fuel, step_unbounded fuel state = None.
Proof.
  intros Hgo Hrej Htol Ht Hpow Hcut Hx Hle fuel.
  unfold step_unbounded.
  destruct (begin_step state) as [state0 go] eqn:Hb. cbn [snd] in Hgo. subst go.
  cbn [negb].
  pose proof (begin_step_frame _ Hb) as (_ & Hs & Ho).
  assert (Hnone : rk_passes fuel state0 Locals_init = None).
  { apply (@rk_passes_rejecting t c Hrej Ht Hpow fuel state0 Locals_init x);
      try reflexivity; congruence. }
  now rewrite Hnone.
Qed.

End StepProperties.

Lemma result_err_pair (A : Type) (x : Result dbl * A) (e : EigenStepperError) :
  fst x = Err e -> x = (Err e, snd x).
Proof. destruct x as [r a]. cbn. now intros ->. Qed.

Lemma result_ok_pair (A : Type) (x : Result dbl * A) (v : dbl) :
  fst x = Ok v -> x = (Ok v, snd x).
Proof. destruct x as [r a]. cbn. now intros ->. Qed.

Lemma declined_step_returns_zero_witness :
  snd (@begin_step unit DecliningExtension test_field test_state) = false /\
  fst (@step libm_model unit DecliningExtension test_field test_state) = Ok (dlit 0) /\
  frame_of (stepping (snd (@step libm_model unit DecliningExtension test_field test_state)))
    = frame_of (stepping test_state) /\
  stepSize (stepping (snd (@step libm_model unit DecliningExtension test_field test_state)))
    = stepSize (stepping test_state).
Proof.
  assert (H : snd (@begin_step unit DecliningExtension test_field test_state) = false)
    by (vm_compute; reflexivity).
  split; [exact H |].
  exact (@declined_step_returns_zero libm_model unit DecliningExtension test_field
           test_state H).
Defined.

Lemma failed_step_keeps_track_witness :
  test_step stall_state = (Err StepSizeStalled, snd (test_step stall_state)) /\
  pos (stepping (snd (test_step stall_state))) = pos (stepping stall_state) /\
  dir (stepping (snd (test_step stall_state))) = dir (stepping stall_state) /\
  pathAccumulated (stepping (snd (test_step stall_state)))
    = pathAccumulated (stepping stall_state) /\
  cov (stepping (snd (test_step stall_state))) = cov (stepping stall_state) /\
  jacobian (stepping (snd (test_step stall_state))) = jacobian (stepping stall_state) /\
  jacTransport (stepping (snd (test_step stall_state)))
    = jacTransport (stepping stall_state).
Proof.
  assert (H : test_step stall_state = (Err StepSizeStalled, snd (test_step stall_state)))
    by (apply result_err_pair; vm_compute; reflexivity).
  split; [exact H |].
  exact (@failed_step_keeps_track libm_model unit LorentzExtension test_field
           stall_state StepSizeStalled (snd (test_step stall_state)) H).
Defined.

Lemma step_returns_path_increment_witness :
  test_step test_state
    = (Ok (stepSize (stepping (snd (test_step test_state)))), snd (test_step test_state)) /\
  (snd (@begin_step unit LorentzExtension test_field test_state) = true ->
     stepSize (stepping (snd (test_step test_state)))
       = stepSize (stepping (snd (test_step test_state))) /\
     pathAccumulated (stepping (snd (test_step test_state)))
       = pathAccumulated (stepping test_state)
         + stepSize (stepping (snd (test_step test_state)))) /\
  (snd (@begin_step unit LorentzExtension test_field test_state) = false ->
     stepSize (stepping (snd (test_step test_state))) = dlit 0 /\
     pathAccumulated (stepping (snd (test_step test_state)))
       = pathAccumulated (stepping test_state)).
Proof.
  assert (H : test_step test_state
              = (Ok (stepSize (stepping (snd (test_step test_state)))),
                 snd (test_step test_state)))
    by (apply result_ok_pair; vm_compute; reflexivity).
  split; [exact H |].
  exact (@step_returns_path_increment libm_model unit LorentzExtension test_field
           test_state (stepSize (stepping (snd (test_step test_state))))
           (snd (test_step test_state)) H).
Defined.

Lemma rejected_trial_enlarges_step_witness :
  let state := fst (@begin_step unit RejectingExtension test_field rejecting_state) in
  let h := stepSize (stepping state) in
  let state1 := snd (@runge_kutta_points unit RejectingExtension test_field state h) in
  @runge_kutta_points unit RejectingExtension test_field state h = (false, state1) /\
  error_estimate Locals_init = dlit 0 /\
  tolerance (options state) = Fin (Q2Qc 1e-4) /\
  (0 < Q2Qc 1e-4)%Qc /\
  dleb (dlit 4) (pow_model PInf (dlit 0.25)) = true /\
  1%nat <> 100%nat /\
  dltb (h * dlit 4 * (h * dlit 4))
       (stepSizeCutOff (options state) * stepSizeCutOff (options state)) = false /\
  @rk_iteration libm_model unit RejectingExtension test_field state Locals_init 0 =
    Continue (with_stepSize state1 (h * dlit 4))
             (mkLocals (dlit 0) (h * h) (h * dlit 0.5)) 1.
Proof.
  cbv zeta.
  assert (Hp : @runge_kutta_points unit RejectingExtension test_field
                 (fst (@begin_step unit RejectingExtension test_field rejecting_state))
                 (stepSize (stepping
                    (fst (@begin_step unit RejectingExtension test_field rejecting_state))))
               = (false,
                  snd (@runge_kutta_points unit RejectingExtension test_field
                         (fst (@begin_step unit RejectingExtension test_field rejecting_state))
                         (stepSize (stepping
                            (fst (@begin_step unit RejectingExtension test_field
                                    rejecting_state)))))))
    by (vm_compute; reflexivity).
  assert (He : error_estimate Locals_init = dlit 0) by reflexivity.
  assert (Htol : tolerance (options
                   (fst (@begin_step unit RejectingExtension test_field rejecting_state)))
                 = Fin (Q2Qc 1e-4)) by reflexivity.
  assert (Ht : (0 < Q2Qc 1e-4)%Qc) by reflexivity.
  assert (Hpow : dleb (dlit 4) (pow_model PInf (dlit 0.25)) = true)
    by (vm_compute; reflexivity).
  assert (Hn : 1%nat <> 100%nat) by discriminate.
  assert (Hcut :
    dltb (stepSize (stepping
            (fst (@begin_step unit RejectingExtension test_field rejecting_state)))
          * dlit 4 *
          (stepSize (stepping
             (fst (@begin_step unit RejectingExtension test_field rejecting_state)))
           * dlit 4))
         (stepSizeCutOff (options
            (fst (@begin_step unit RejectingExtension test_field rejecting_state)))
          * stepSizeCutOff (options
              (fst (@begin_step unit RejectingExtension test_field rejecting_state))))
    = false) by (vm_compute; reflexivity).
  split; [exact Hp |]. split; [exact He |]. split; [exact Htol |].
  split; [exact Ht |]. split; [exact Hpow |]. split; [exact Hn |].
  split; [exact Hcut |].
  exact (@rejected_trial_enlarges_step libm_model unit RejectingExtension test_field
           (fst (@begin_step unit RejectingExtension test_field rejecting_state))
           (snd (@runge_kutta_points unit RejectingExtension test_field
                   (fst (@begin_step unit RejectingExtension test_field rejecting_state))
                   (stepSize (stepping
                      (fst (@begin_step unit RejectingExtension test_field
                              rejecting_state))))))
           Locals_init (Q2Qc 1e-4) 0%nat Hp He Htol Ht Hpow Hn Hcut).
Defined.

Lemma last_resort_step_witness :
  exists (s : PropagatorState unit) (l : Locals),
    let state := rejecting_state in
    let state0 := fst (@begin_step unit RejectingExtension test_field state) in
    let tried := stepSize (stepping s) in
    let trial := @tryRungeKuttaStep unit RejectingExtension test_field s l tried in
    let s1 := snd (fst trial) in
    let l1 := snd trial in
    let h := navDir_value (navDir (stepping state)) * _mm in
    let sd := stepData (stepping s1) in
    let s2 := with_stepSize s1 h in
    @begin_step unit RejectingExtension test_field state = (state0, true) /\
    @reaches libm_model unit RejectingExtension test_field state0 Locals_init 0 s l 99 /\
    trial = (false, s1, l1) /\
    deqb (@stepSizeScaling_of libm_model (tolerance (options s)) (error_estimate l1))
         (dlit 1) = false /\
    fst (fst (@ext_finalizeD unit RejectingExtension s2 h)) = true /\
    exists state',
      @step libm_model unit RejectingExtension test_field state = (Ok h, state') /\
      stepSize (stepping state') = h /\
      pathAccumulated (stepping state') = pathAccumulated (stepping state) + h /\
      pos (stepping state') =
        v3_add (pos (stepping state))
               (v3_add (v3_scale h (dir (stepping state)))
                       (v3_scale (tried * tried / dlit 6)
                                 (v3_add (v3_add (k1 sd) (k2 sd)) (k3 sd)))).
Proof.
  let v := eval vm_compute in
        (@run_iterations libm_model unit RejectingExtension test_field 99
           (fst (@begin_step unit RejectingExtension test_field rejecting_state))
           Locals_init 0) in
  match v with
  | Some (?s, ?l, _) => exists s, l
  end.
  cbv zeta.
  match goal with
  | |- _ /\ @reaches _ _ _ _ _ _ _ ?s ?l _ /\ _ =>
      assert (Hb : @begin_step unit RejectingExtension test_field rejecting_state
                   = (fst (@begin_step unit RejectingExtension test_field rejecting_state),
                      true))
        by (apply pair_true; vm_compute; reflexivity);
      assert (Hr : @reaches libm_model unit RejectingExtension test_field
                     (fst (@begin_step unit RejectingExtension test_field rejecting_state))
                     Locals_init 0 s l 99)
        by (apply (@run_iterations_reaches libm_model unit RejectingExtension test_field 99);
            vm_compute; reflexivity);
      assert (Ht : @tryRungeKuttaStep unit RejectingExtension test_field s l
                     (stepSize (stepping s))
                   = (false,
                      snd (fst (@tryRungeKuttaStep unit RejectingExtension test_field s l
                                  (stepSize (stepping s)))),
                      snd (@tryRungeKuttaStep unit RejectingExtension test_field s l
                             (stepSize (stepping s)))))
        by (apply false_triple; vm_compute; reflexivity);
      assert (Hsc : deqb (@stepSizeScaling_of libm_model (tolerance (options s))
                            (error_estimate
                               (snd (@tryRungeKuttaStep unit RejectingExtension test_field
                                       s l (stepSize (stepping s))))))
                         (dlit 1) = false)
        by (vm_compute; reflexivity);
      assert (Hfin : fst (fst (@ext_finalizeD unit RejectingExtension
                                 (with_stepSize
                                    (snd (fst (@tryRungeKuttaStep unit RejectingExtension
                                                 test_field s l (stepSize (stepping s)))))
                                    (navDir_value (navDir (stepping rejecting_state)) * _mm))
                                 (navDir_value (navDir (stepping rejecting_state)) * _mm)))
                     = true)
        by (vm_compute; reflexivity);
      split; [exact Hb |]; split; [exact Hr |]; split; [exact Ht |];
      split; [exact Hsc |]; split; [exact Hfin |];
      exact (@last_resort_step libm_model unit RejectingExtension test_field
               rejecting_state
               (fst (@begin_step unit RejectingExtension test_field rejecting_state))
               s l
               (snd (fst (@tryRungeKuttaStep unit RejectingExtension test_field s l
                            (stepSize (stepping s)))))
               (snd (@tryRungeKuttaStep unit RejectingExtension test_field s l
                       (stepSize (stepping s))))
               Hb Hr Ht Hsc Hfin)
  end.
Defined.

Lemma unbounded_step_does_not_return_witness :
  snd (@begin_step unit RejectingExtension test_field rejecting_state) = true /\
  (forall s h, fst (@runge_kutta_points unit RejectingExtension test_field s h) = false) /\
  tolerance (options rejecting_state) = Fin (Q2Qc 1e-4) /\
  (0 < Q2Qc 1e-4)%Qc /\
  dleb (dlit 4) (pow_model PInf (dlit 0.25)) = true /\
  stepSizeCutOff (options rejecting_state) = Fin (Q2Qc 1e-4) /\
  stepSize (stepping rejecting_state) = Fin (Q2Qc 1) /\
  (Q2Qc 1e-4 * Q2Qc 1e-4 <= Q2Qc 1 * Q2Qc 1)%Qc /\
  forall fuel,
    @step_unbounded libm_model unit RejectingExtension test_field fuel rejecting_state
    = None.
Proof.
  assert (H1 : snd (@begin_step unit RejectingExtension test_field rejecting_state) = true)
    by (vm_compute; reflexivity).
  assert (H2 : forall s h,
             fst (@runge_kutta_points unit RejectingExtension test_field s h) = false)
    by (intros s h; reflexivity).
  assert (H3 : tolerance (options rejecting_state) = Fin (Q2Qc 1e-4)) by reflexivity.
  assert (H4 : (0 < Q2Qc 1e-4)%Qc) by reflexivity.
  assert (H5 : dleb (dlit 4) (pow_model PInf (dlit 0.25)) = true)
    by (vm_compute; reflexivity).
  assert (H6 : stepSizeCutOff (options rejecting_state) = Fin (Q2Qc 1e-4)) by reflexivity.
  assert (H7 : stepSize (stepping rejecting_state) = Fin (Q2Qc 1)) by reflexivity.
  assert (H8 : (Q2Qc 1e-4 * Q2Qc 1e-4 <= Q2Qc 1 * Q2Qc 1)%Qc) by (vm_compute; discriminate).
  split; [exact H1 |]. split; [exact H2 |]. split; [exact H3 |]. split; [exact H4 |].
  split; [exact H5 |]. split; [exact H6 |]. split; [exact H7 |]. split; [exact H8 |].
  exact (@unbounded_step_does_not_return libm_model unit RejectingExtension test_field
           rejecting_state (Q2Qc 1e-4) (Q2Qc 1e-4) (Q2Qc 1) H1 H2 H3 H4 H5 H6 H7 H8).
Defined.

End StepOutcomes.

(* ================================================================== *)
(** * StraightLineStepper: laws of the step *)
(* ================================================================== *)

Module StraightLineSteps.

Import StraightLineStepper.
Local Open Scope dbl_scope.

(** A moving particle without mass, with a covariance to transport. *)
Definition massless : PropagatorState :=
  mkPropagatorState (with_covariance (test_State moving) None (Identity FreeParsDim))
                    (mkOptions (dlit 0)).

(** ** Properties *)

Lemma dmul_1_r (a : dbl) : a * dlit 1 = a.
Proof.
  destruct a as [x | | |]; try reflexivity.
  unfold dlit. cbn [dmul]. f_equal. ring.
Qed.









Section StepLaws.

Context {libm : Libm}.
Context {Surface : Type} {surfaceI : SurfaceInterface Surface}.
Context {BoundParameters CurvilinearParameters : Type}.
Context {parsI : ParametersInterface Surface BoundParameters}.
Context {parsC : ParametersConstructors Surface BoundParameters CurvilinearParameters}.


(** [step], written out on the members of the state. *)
Lemma step_written_out pos dir p q t0 dt navDir h path covT cov jac jacT der jtg m :
  step (mkPropagatorState
          (mkState pos dir p q t0 dt navDir h path covT cov jac jacT der jtg)
          (mkOptions m)) =
  (Ok h,
   mkPropagatorState
     (mkState (v3_add pos (v3_scale h dir)) dir p q t0
        (dt + h * hypot (dlit 1) (m / p)) navDir h (path + h) covT cov jac
        (if covT
         then mmul (transport_D h (h * m * m / (p * hypot (dlit 1) (m / p)))) jacT
         else jacT)
        (if covT
         then set_segment3 (set_nth 3 (hypot (dlit 1) (m / p)) der) 0 dir
         else der)
        jtg)
     (mkOptions m)).
Proof. destruct covT; reflexivity. Qed.

(** X10.  For a particle without mass and with non-zero momentum the
    time advances by the step size itself (when [hypot(1, 0) = 1]), the
    starting time [t0] is untouched, and with covariance transport the
    step's transport matrix has no time entry: [D(3, 7) = 0]. *)
Theorem massless_step_time (state : PropagatorState) (pp : Qc) :
  let s := stepping state in
  mass (options state) = dlit 0 ->
  p s = Fin pp ->
  pp <> 0%Qc ->
  hypot (dlit 1) (dlit 0) = dlit 1 ->
  let s' := stepping (snd (step state)) in
  dt s' = dt s + stepSize s /\
  t0 s' = t0 s /\
  (covTransport s = true ->
   forall h : Qc, stepSize s = Fin h ->
     jacTransport s' = mmul (translation_jacobian (Fin h) (dlit 0)) (jacTransport s)).
Proof.
  destruct state as [s opts].
  destruct s as [pos dir p q t0 dt navDir stepSize pathAccumulated covTransport
                 cov jacobian jacTransport derivative jacToGlobal].
  destruct opts as [mass].
  cbn [stepping options StraightLineStepper.p StraightLineStepper.mass].
  intros -> -> Hne Hhyp.
  rewrite step_written_out. cbn [snd stepping StraightLineStepper.dt StraightLineStepper.t0
    StraightLineStepper.stepSize StraightLineStepper.covTransport
    StraightLineStepper.jacTransport].
  assert (Hz : dlit 0 / Fin pp = dlit 0).
  { unfold dlit. rewrite ddiv_fin by assumption. f_equal. field. assumption. }
  rewrite Hz, Hhyp, dmul_1_r.
  split; [reflexivity |]. split; [reflexivity |].
  intros -> h ->.
  rewrite transport_D_finite. do 2 f_equal.
  rewrite dmul_1_r. unfold dlit. cbn [dmul]. rewrite ddiv_fin by assumption.
  f_equal. field. assumption.
Qed.

End StepLaws.


Lemma massless_step_time_witness :
  let state := massless in
  let s := stepping state in
  let s' := stepping (snd (@step EigenStepper.libm_model state)) in
  mass (options state) = dlit 0 /\
  p s = Fin (Q2Qc 5) /\
  Q2Qc 5 <> 0%Qc /\
  EigenStepper.hypot_model (dlit 1) (dlit 0) = dlit 1 /\
  dt s' = dt s + stepSize s /\
  t0 s' = t0 s /\
  (covTransport s = true ->
   forall h : Qc, stepSize s = Fin h ->
     jacTransport s' = mmul (translation_jacobian (Fin h) (dlit 0)) (jacTransport s)).
Proof.
  cbv zeta.
  assert (H1 : mass (options massless) = dlit 0) by reflexivity.
  assert (H2 : p (stepping massless) = Fin (Q2Qc 5))
    by (apply deqb_eq; vm_compute; reflexivity).
  assert (H3 : Q2Qc 5 <> 0%Qc) by discriminate.
  assert (H4 : EigenStepper.hypot_model (dlit 1) (dlit 0) = dlit 1)
    by (apply deqb_eq; vm_compute; reflexivity).
  split; [exact H1 |]. split; [exact H2 |]. split; [exact H3 |]. split; [exact H4 |].
  exact (@massless_step_time EigenStepper.libm_model massless (Q2Qc 5) H1 H2 H3 H4).
Defined.

End StraightLineSteps.

(* ================================================================== *)
(** * Binding a stepper state to a frame *)
(* ================================================================== *)

Module BoundStates.

Local Open Scope dbl_scope.

(** ** Parameters and a surface to bind states to *)

(** Bound parameters that store what their constructor is given. *)
Record BoundTrack : Type := mkBoundTrack {
  bt_covariance : option mat;
  bt_position : Vector3D;
  bt_momentum : Vector3D;
  bt_charge : dbl;
  bt_time : dbl
}.

Definition BoundTrack_constructors : ParametersConstructors unit BoundTrack BoundTrack :=
  {| BoundParameters_ctor := fun c x m q t _ => mkBoundTrack c x m q t;
     CurvilinearParameters_ctor := mkBoundTrack |}.

(** A stepper state flying along z. *)
Definition along_z : EigenStepper.State unit :=
  EigenStepper.mkState v3_zero (mkVector3D d0 d0 d1) (dlit 1) (dlit 1) d0 d0 forward
    (dlit 1) d0 true (Identity FreeParsDim) (Identity FreeParsDim)
    (Identity FreeParsDim) (Zero_vec FreeParsDim) EigenStepper.StepData_zero tt.

(** A plane through the origin with its normal along x, to bind states
    to: the local coordinates are y and z, the reference frame has the
    normal as its third axis, and the derivative factors are
    [normal * jac.topLeftCorner<3, 8>() / (normal * dir)]. *)
Definition plane_yz : SurfaceInterface unit :=
  {| initJacobianToLocal := fun _ _ _ =>
       ([[d0; d1; d0; d0; d0; d0; d0; d0];
         [d0; d0; d1; d0; d0; d0; d0; d0];
         [d0; d0; d0; d0; d0; d1; d0; d0];
         [d0; d0; d0; d0; d0; d0; d1; d0];
         [d0; d0; d0; d0; d0; d0; d0; d1];
         [d0; d0; d0; d1; d0; d0; d0; d0]],
        [[d0; d1; d0]; [d0; d0; d1]; [d1; d0; d0]]);
     derivativeFactors := fun _ _ dir rframeT jac =>
       let normal := nth 2 rframeT [] in
       map (fun x => x / dot normal (v3_to_list dir))
           (vmmul normal (topLeftCorner 3 FreeParsDim jac));
     initJacobianToGlobal := fun _ _ _ _ => Zero FreeParsDim 6 |}.

(** A state after 2 mm of flight along x since its last
    reinitialisation: the transport jacobian and the derivative are
    those of a straight flight, and the covariance is not the
    identity. *)
Definition in_flight : EigenStepper.State unit :=
  EigenStepper.mkState (mkVector3D (dlit 2) d0 d0) (mkVector3D d1 d0 d0) (dlit 1) (dlit 1)
    d0 (dlit 2) forward (dlit 1) (dlit 2) true
    (diagonal_matrix [dlit 1; dlit 2; dlit 3; dlit 4; dlit 5; dlit 6; dlit 7; dlit 8])
    (Identity FreeParsDim)
    (StraightLineStepper.translation_jacobian (dlit 2) (dlit 1))
    [d1; d0; d0; d1; d0; d0; d0; d0]
    EigenStepper.StepData_zero tt.

(** ** Properties *)

Section Binding.

Context {libm : Libm}.
Context {E : Type}.
Context {Surface : Type} {surfaceI : SurfaceInterface Surface}.
Context {BoundParameters CurvilinearParameters : Type}.
Context {parsI : ParametersInterface Surface BoundParameters}.
Context {parsC : ParametersConstructors Surface BoundParameters CurvilinearParameters}.

(** [covarianceTransport(state, surface, true)], written out. *)
Lemma covarianceTransport_surface_reinitialize
  pos dir p q t0 dt navDir stepSize pathAccumulated covTransport
  cov jacobian jacTransport derivative stepData (extension : E) (surface : Surface) :
  let jacToLocal := fst (initJacobianToLocal surface pos dir) in
  let rframeT := snd (initJacobianToLocal surface pos dir) in
  let jacFull :=
    msub jacTransport
         (outer derivative (derivativeFactors surface pos dir rframeT jacTransport)) in
  let cov1 := mmul (mmul jacFull cov) (transpose jacFull) in
  EigenStepper.covarianceTransport_surface
    (EigenStepper.mkState pos dir p q t0 dt navDir stepSize pathAccumulated covTransport
       cov jacobian jacTransport derivative stepData extension) surface true =
  (mmul (mmul jacToLocal cov1) (transpose jacToLocal),
   EigenStepper.mkState pos dir p q t0 dt navDir stepSize pathAccumulated covTransport
     cov1 (mmul jacFull jacobian) (Identity FreeParsDim) (Zero_vec FreeParsDim)
     stepData extension).
Proof.
  cbv zeta. unfold EigenStepper.covarianceTransport_surface.
  cbn [EigenStepper.pos EigenStepper.dir].
  destruct (initJacobianToLocal surface pos dir) as [jacToLocal rframeT].
  reflexivity.
Qed.

(** X11.  [boundState] with [reinitialize = true] is idempotent: a second
    call on the same surface, with no step in between, leaves the state
    as the first call left it and returns the same bound parameters
    (covariance included), the same path length and the identity as
    jacobian, provided the transported covariance is finite and the
    surface's derivative factors are. *)
Theorem boundState_reinitialize_idempotent
  (state : EigenStepper.State E) (surface : Surface) :
  let first := EigenStepper.boundState state surface true in
  let state1 := snd first in
  let second := EigenStepper.boundState state1 surface true in
  (EigenStepper.covTransport state = true ->
     mat_finite 8 8 (EigenStepper.cov state1) = true /\
     vec_finite 8
       (derivativeFactors surface (EigenStepper.pos state) (EigenStepper.dir state)
          (snd (initJacobianToLocal surface (EigenStepper.pos state)
                  (EigenStepper.dir state)))
          (Identity FreeParsDim)) = true) ->
  snd second = state1 /\
  fst (fst (fst second)) = fst (fst (fst first)) /\
  snd (fst (fst second)) = Identity FreeParsDim /\
  snd (fst second) = snd (fst first).
Proof.
  destruct state as [pos dir p q t0 dt navDir stepSize pathAccumulated covTransport
                     cov jacobian jacTransport derivative stepData extension].
  destruct covTransport.
  - intros first.
    assert (Hfirst : exists cov1 jac1,
      first =
      (BoundParameters_ctor
         (Some (mmul (mmul (fst (initJacobianToLocal surface pos dir)) cov1)
                     (transpose (fst (initJacobianToLocal surface pos dir)))))
         pos (v3_scale p dir) q (t0 + dt) surface,
       jac1, pathAccumulated,
       EigenStepper.mkState pos dir p q t0 dt navDir stepSize pathAccumulated true
         cov1 (Identity FreeParsDim) (Identity FreeParsDim) (Zero_vec FreeParsDim)
         stepData extension)).
    { do 2 eexists. unfold first, EigenStepper.boundState.
      cbn [EigenStepper.covTransport].
      rewrite covarianceTransport_surface_reinitialize. reflexivity. }
    destruct Hfirst as (cov1 & jac1 & ->).
    cbn [fst snd EigenStepper.cov EigenStepper.covTransport EigenStepper.pos
         EigenStepper.dir].
    intros Hfin. destruct (Hfin eq_refl) as [Hc Hv]. clear Hfin.
    unfold EigenStepper.boundState. cbn [EigenStepper.covTransport].
    rewrite covarianceTransport_surface_reinitialize.
    rewrite (jacFull_reinitialized _ Hv), (transported_Identity _ Hc),
      mmul_Identity_Identity.
    repeat split.
  - intros first state1 second _. repeat split.
Qed.

(** The parameters [boundState] builds. *)
Lemma boundState_parameters (state : EigenStepper.State E) (surface : Surface)
  (reinitialize : bool) :
  exists covPtr,
    fst (fst (fst (EigenStepper.boundState state surface reinitialize))) =
    BoundParameters_ctor covPtr (EigenStepper.pos state)
      (v3_scale (EigenStepper.p state) (EigenStepper.dir state))
      (EigenStepper.q state) (EigenStepper.t0 state + EigenStepper.dt state) surface /\
    (EigenStepper.covTransport state = false -> covPtr = None).
Proof.
  unfold EigenStepper.boundState, EigenStepper.covarianceTransport_surface.
  destruct (EigenStepper.covTransport state).
  - destruct (initJacobianToLocal surface _ _) as [jacToLocal rframeT].
    destruct reinitialize; eexists; (split; [reflexivity | discriminate]).
  - eexists; split; reflexivity.
Qed.

(** X12.  [update(state, pars)] followed by [boundState]: the bound
    parameters built carry the position of [pars], the momentum
    [p * dir] with [p] the norm and [dir] the normalised momentum of
    [pars], the charge of the state, which [update] does not touch, and
    the time [t0 + pars.time()]: [update] writes the time of the
    parameters into [dt] and leaves [t0] as it is.  Without covariance
    transport they carry no covariance. *)
Theorem update_then_boundState
  (state : EigenStepper.State E) (pars : BoundParameters) (surface : Surface)
  (reinitialize : bool) :
  let mom := momentum pars in
  let bound :=
    fst (fst (fst (EigenStepper.boundState (EigenStepper.update state pars)
                     surface reinitialize))) in
  exists covPtr,
    bound =
      BoundParameters_ctor covPtr (position pars)
        (v3_scale (v3_norm mom) (v3_normalized mom))
        (EigenStepper.q state) (EigenStepper.t0 state + time pars) surface /\
    (EigenStepper.covTransport state = false -> covPtr = None).
Proof.
  intros mom bound.
  destruct (boundState_parameters (EigenStepper.update state pars) surface reinitialize)
    as (covPtr & Hb & Hnone).
  exists covPtr. unfold bound. rewrite Hb. clear Hb.
  unfold EigenStepper.update in *. fold mom in Hnone |- *.
  destruct (par_covariance pars);
    cbn [EigenStepper.pos EigenStepper.dir EigenStepper.p EigenStepper.covTransport
         EigenStepper.q EigenStepper.t0 EigenStepper.dt EigenStepper.set_cov
         EigenStepper.set_dt EigenStepper.set_p EigenStepper.set_dir EigenStepper.set_pos]
      in *;
    split; [reflexivity | exact Hnone | reflexivity | exact Hnone].
Qed.

End Binding.

Section CurvilinearFrame.

Context {libm : Libm}.
Context {E : Type}.

(** With [sinTheta = 0] the rows of [jacToCurv] for phi and theta hold
    no finite derivative. *)
Lemma jacToCurv_rows (d : Vector3D) :
  sqrt (vx d * vx d + vy d * vy d) = dlit 0 ->
  exists e00 e01 e02 e10 e11 e12 a b,
    is_finite a = false /\ is_finite b = false /\
    freeToCurvilinearJacobian d =
      [[e00; e01; e02; d0; d0; d0; d0; d0];
       [e10; e11; e12; d0; d0; d0; d0; d0];
       [d0; d0; d0; d0; a; b; d0; d0];
       [d0; d0; d0; d0; d0; d0; NInf; d0];
       [d0; d0; d0; d0; d0; d0; d0; d1];
       [d0; d0; d0; d1; d0; d0; d0; d0]].
Proof.
  intros Hs. unfold freeToCurvilinearJacobian. rewrite Hs.
  replace (d1 / dlit 0) with PInf by reflexivity.
  destruct (dltb (dabs (vz d)) s_curvilinearProjTolerance);
    cbv [set_coeff set_nth nth Zero Zero_vec repeat];
    do 6 eexists;
    exists ((- (vy d * PInf)) * PInf), (vx d * PInf * PInf);
    (split; [apply times_PInf_nonfinite |]);
    (split; [apply times_PInf_nonfinite |]);
    reflexivity.
Qed.

(** X13.  For a direction along the z axis, [sinTheta = 0], the jacobian
    to curvilinear parameters is not finite: only the rows of the local
    coordinates are guarded by the test on [cosTheta].  The entries
    (2,4) and (2,5) are not finite, (3,6) is minus infinity, and the
    covariance [covarianceTransport] returns has NaN as variance of phi
    and of theta, whenever the transported global covariance is
    finite. *)
Theorem curvilinear_covariance_along_z (state : EigenStepper.State E)
  (reinitialize : bool) :
  let d := EigenStepper.dir state in
  sqrt (vx d * vx d + vy d * vy d) = dlit 0 ->
  let result := EigenStepper.covarianceTransport state reinitialize in
  mat_finite 8 8 (EigenStepper.cov (snd result)) = true ->
  is_finite (coeff (freeToCurvilinearJacobian d) 2 4) = false /\
  is_finite (coeff (freeToCurvilinearJacobian d) 2 5) = false /\
  coeff (freeToCurvilinearJacobian d) 3 6 = NInf /\
  coeff (fst result) 2 2 = NaN /\
  coeff (fst result) 3 3 = NaN.
Proof.
  intros d Hs result Hfin.
  destruct (jacToCurv_rows d Hs)
    as (e00 & e01 & e02 & e10 & e11 & e12 & a & b & Ha & Hb & HJ).
  assert (Hres : fst result =
                 mmul (mmul (freeToCurvilinearJacobian d)
                            (EigenStepper.cov (snd result)))
                      (transpose (freeToCurvilinearJacobian d))).
  { unfold result, EigenStepper.covarianceTransport. fold d.
    destruct reinitialize; reflexivity. }
  rewrite Hres, HJ. clear Hres HJ.
  generalize dependent (EigenStepper.cov (snd result)). intros c Hc.
  finite_rows Hc.
  cbv [coeff nth mmul map transpose map2].
  split; [exact Ha |]. split; [exact Hb |]. split; [reflexivity |].
  split.
  - cbv [dot dsum map2 fold_left].
    match goal with
    | |- context [?x * d0 + _] =>
        replace (x * d0) with NaN;
        [reflexivity | symmetry; apply nonfinite_times_zero]
    end.
    do 2 apply add_nonfinite_l. apply add_nonfinite_r.
    now apply mul_nonfinite_l.
  - cbv [dot dsum map2 fold_left].
    match goal with
    | |- context [?x * d0 + _] =>
        replace (x * d0) with NaN;
        [reflexivity | symmetry; apply nonfinite_times_zero]
    end.
    apply add_nonfinite_l. apply add_nonfinite_r.
    now apply mul_nonfinite_l.
Qed.

End CurvilinearFrame.

(** The theorem on a state in flight, which the first call changes:
    it transports the covariance and resets the transport jacobian and
    the derivative. *)
Lemma boundState_reinitialize_idempotent_witness :
  let state := in_flight in
  let first :=
    @EigenStepper.boundState unit unit plane_yz
       BoundTrack BoundTrack BoundTrack_constructors state tt true in
  let state1 := snd first in
  let second :=
    @EigenStepper.boundState unit unit plane_yz
       BoundTrack BoundTrack BoundTrack_constructors state1 tt true in
  (EigenStepper.covTransport state = true ->
     mat_finite 8 8 (EigenStepper.cov state1) = true /\
     vec_finite 8
       (@derivativeFactors unit plane_yz tt
          (EigenStepper.pos state) (EigenStepper.dir state)
          (snd (@initJacobianToLocal unit plane_yz tt
                  (EigenStepper.pos state) (EigenStepper.dir state)))
          (Identity FreeParsDim)) = true) /\
  mat_eqb (EigenStepper.cov state1) (EigenStepper.cov state) = false /\
  mat_eqb (EigenStepper.jacTransport state1) (EigenStepper.jacTransport state) = false /\
  vec_eqb (EigenStepper.derivative state1) (EigenStepper.derivative state) = false /\
  snd second = state1 /\
  fst (fst (fst second)) = fst (fst (fst first)) /\
  snd (fst (fst second)) = Identity FreeParsDim /\
  snd (fst second) = snd (fst first).
Proof.
  cbv zeta.
  assert (H : EigenStepper.covTransport in_flight = true ->
     mat_finite 8 8
       (EigenStepper.cov
          (snd (@EigenStepper.boundState unit unit plane_yz
                  BoundTrack BoundTrack BoundTrack_constructors
                  in_flight tt true))) = true /\
     vec_finite 8
       (@derivativeFactors unit plane_yz tt
          (EigenStepper.pos in_flight)
          (EigenStepper.dir in_flight)
          (snd (@initJacobianToLocal unit plane_yz tt
                  (EigenStepper.pos in_flight)
                  (EigenStepper.dir in_flight)))
          (Identity FreeParsDim)) = true)
    by (intros _; split; vm_compute; reflexivity).
  split; [exact H |].
  split; [vm_compute; reflexivity |].
  split; [vm_compute; reflexivity |].
  split; [vm_compute; reflexivity |].
  exact (@boundState_reinitialize_idempotent unit unit plane_yz
           BoundTrack BoundTrack BoundTrack_constructors
           in_flight tt H).
Defined.

Lemma curvilinear_covariance_along_z_witness :
  let d := EigenStepper.dir along_z in
  let result := @EigenStepper.covarianceTransport EigenStepper.libm_model unit along_z false in
  @sqrt EigenStepper.libm_model (vx d * vx d + vy d * vy d) = dlit 0 /\
  mat_finite 8 8 (EigenStepper.cov (snd result)) = true /\
  is_finite (coeff (@freeToCurvilinearJacobian EigenStepper.libm_model d) 2 4) = false /\
  is_finite (coeff (@freeToCurvilinearJacobian EigenStepper.libm_model d) 2 5) = false /\
  coeff (@freeToCurvilinearJacobian EigenStepper.libm_model d) 3 6 = NInf /\
  coeff (fst result) 2 2 = NaN /\
  coeff (fst result) 3 3 = NaN.
Proof.
  cbv zeta.
  assert (H1 : @sqrt EigenStepper.libm_model
                 (vx (EigenStepper.dir along_z) * vx (EigenStepper.dir along_z)
                  + vy (EigenStepper.dir along_z) * vy (EigenStepper.dir along_z))
               = dlit 0)
    by (apply deqb_eq; vm_compute; reflexivity).
  assert (H2 : mat_finite 8 8
                 (EigenStepper.cov
                    (snd (@EigenStepper.covarianceTransport EigenStepper.libm_model unit
                            along_z false))) = true)
    by (vm_compute; reflexivity).
  split; [exact H1 |]. split; [exact H2 |].
  exact (@curvilinear_covariance_along_z EigenStepper.libm_model unit along_z false H1 H2).
Defined.

End BoundStates.

(* ================================================================== *)
(** * RiddersPropagator: numerical derivatives and the linear fit *)
(* ================================================================== *)

Module RiddersPropagator.

Local Open Scope dbl_scope.

(** [eTHETA], the index of the polar angle among the bound parameters. *)
Definition eTHETA : nat := 3.

(** A vector divided by a scalar, coefficient by coefficient. *)
Definition vdiv (v : vec) (s : dbl) : vec := map (fun x => x / s) v.

(** The treatment of theta in [wiggleDimension]: the deviation [h] a
    polar angle [current_theta] is varied by. *)
Definition theta_deviation (current_theta h : dbl) : dbl :=
  let h :=
    if dltb GainMatrixUpdater.M_PI (current_theta + h)
    then GainMatrixUpdater.M_PI - current_theta else h in
  let h := if dltb (current_theta + h) (dlit 0) then - current_theta else h in
  h.

Section Wiggle.

(** The start parameters with [get<par>()] and [set<par>()], and the
    propagation to the target: the parameter vector at the end, or
    nothing when the propagation result holds no value. *)
Variable Parameters : Type.
Variable get : nat -> Parameters -> dbl.
Variable set : nat -> Parameters -> dbl -> Parameters.
Variable propagate : Parameters -> option vec.

(** The loop of [wiggleDimension] over the deviations; [derivatives] is
    the storage of the results. *)
Fixpoint wiggle_loop (startPars : Parameters) (param : nat) (nominal : vec)
  (deviations : list dbl) (derivatives : list vec) : option (list vec) :=
  match deviations with
  | [] => Some derivatives
  | h :: rest =>
      let tp := startPars in
      (* Treatment for theta *)
      let h := if Nat.eqb param eTHETA then theta_deviation (get eTHETA tp) h else h in
      (* Modify start parameter and propagate *)
      if Nat.ltb 5 param then Some [] else
      let tp := set param tp (get param tp + h) in
      match propagate tp with
      | None => None
      | Some r =>
          (* Collect the slope *)
          wiggle_loop startPars param nominal rest
                      (derivatives ++ [vdiv (vsub r nominal) h])
      end
  end.

(** [wiggleDimension] *)
Definition wiggleDimension (deviations : list dbl) (startPars : Parameters)
  (param : nat) (nominal : vec) : option (list vec) :=
  wiggle_loop startPars param nominal deviations [].

End Wiggle.

(** The sums [A], [B], [C], [D] of [fitLinear]; [values.at(i)] throws
    when there are fewer values than deviations. *)
Fixpoint fit_sums (values : list vec) (h : list dbl) (acc : vec * dbl * vec * dbl)
  {struct h} : option (vec * dbl * vec * dbl) :=
  match h with
  | [] => Some acc
  | hi :: h' =>
      match values with
      | [] => None
      | v :: values' =>
          let '(A, B, C, D) := acc in
          fit_sums values' h' (vadd A (vscale hi v), B + hi, vadd C v, D + hi * hi)
      end
  end.

(** [fitLinear]: the intercept of the straight line fitted to the
    points [(h_i, values_i)]. *)
Definition fitLinear (values : list vec) (h : list dbl) : option vec :=
  let N := dlit (inject_Z (Z.of_nat (length h))) in
  match fit_sums values h (Zero_vec 6, dlit 0, Zero_vec 6, dlit 0) with
  | None => None
  | Some (A, B, C, D) =>
      let b := vdiv (vsub (vscale N A) (vscale B C)) (N * D - B * B) in
      let a := vdiv (vsub C (vscale B b)) N in
      Some a
  end.

(** ** Parameters and a propagation to run the functions on *)

(** Bound parameter vectors as parameters, and a propagation that hands
    the start parameters back. *)
Definition vector_get (i : nat) (p : vec) : dbl := nth i p d0.

Definition vector_set (i : nat) (p : vec) (x : dbl) : vec := set_nth i x p.

Definition identity_propagation (p : vec) : option vec := Some p.

(** A track at the pole [theta = pi]. *)
Definition at_pole : vec := [d0; d0; d0; GainMatrixUpdater.M_PI; dlit 0.01; d0].

(** ** Properties *)

Definition no_finite_entry (v : vec) : bool := forallb (fun x => negb (is_finite x)) v.

Lemma div_by_zero_nonfinite (x : dbl) : is_finite (x / Fin 0%Qc) = false.
Proof.
  destruct x as [q | | |]; try reflexivity.
  cbn [ddiv]. rewrite Qc_eq_bool_refl. apply GainMatrixUpdater.inf_signed_nonfinite.
Qed.

Lemma vdiv_by_zero (v : vec) : no_finite_entry (vdiv v (Fin 0%Qc)) = true.
Proof.
  induction v as [| x v IH]; [reflexivity |].
  cbn [vdiv map no_finite_entry forallb].
  rewrite div_by_zero_nonfinite. exact IH.
Qed.

(** At the poles the treatment of theta turns a deviation that leads
    out of [0, pi] into zero. *)
Lemma theta_deviation_at_pi (h : dbl) :
  dltb GainMatrixUpdater.M_PI (GainMatrixUpdater.M_PI + h) = true ->
  theta_deviation GainMatrixUpdater.M_PI h = Fin 0%Qc.
Proof.
  intros Hh. unfold theta_deviation. rewrite Hh.
  replace (GainMatrixUpdater.M_PI - GainMatrixUpdater.M_PI) with (Fin 0%Qc)
    by (symmetry; apply deqb_eq; vm_compute; reflexivity).
  replace (dltb (GainMatrixUpdater.M_PI + Fin 0%Qc) (dlit 0)) with false
    by (symmetry; vm_compute; reflexivity).
  reflexivity.
Qed.

Lemma theta_deviation_at_zero (h : dbl) :
  dltb (dlit 0 + h) (dlit 0) = true ->
  theta_deviation (dlit 0) h = Fin 0%Qc.
Proof.
  intros Hh. unfold theta_deviation.
  assert (Hhi : dltb GainMatrixUpdater.M_PI (dlit 0 + h) = false).
  { destruct h as [x | | |]; try discriminate Hh; [| reflexivity].
    unfold dlit in *. cbn [dadd] in *. apply dltb_fin in Hh.
    destruct (dltb GainMatrixUpdater.M_PI (Fin (Q2Qc 0 + x))) eqn:C; [| reflexivity].
    unfold GainMatrixUpdater.M_PI, dlit in C. apply dltb_fin in C.
    exfalso.
    assert (Hpi : (0 < Q2Qc (884279719003555 # 281474976710656))%Qc) by reflexivity.
    qc2q. lra. }
  rewrite Hhi, Hh. apply deqb_eq. vm_compute. reflexivity.
Qed.

Section WiggleProperties.

Variable Parameters : Type.
Variable get : nat -> Parameters -> dbl.
Variable set : nat -> Parameters -> dbl -> Parameters.
Variable propagate : Parameters -> option vec.

Lemma wiggle_loop_zero_deviation (startPars : Parameters) (nominal : vec)
  (hs : list dbl) :
  Forall (fun h => theta_deviation (get eTHETA startPars) h = Fin 0%Qc) hs ->
  (forall tp, propagate tp <> None) ->
  forall acc, Forall (fun d => no_finite_entry d = true) acc ->
  exists derivatives,
    wiggle_loop get set propagate startPars eTHETA nominal hs acc
      = Some derivatives /\
    length derivatives = (length acc + length hs)%nat /\
    Forall (fun d => no_finite_entry d = true) derivatives.
Proof.
  intros Hzero Hprop.
  induction hs as [| h hs IH]; intros acc Hacc.
  - exists acc. cbn. split; [reflexivity |]. split; [lia | exact Hacc].
  - inversion Hzero as [| ? ? Hh Hrest]; subst.
    cbn [wiggle_loop]. cbn [Nat.eqb eTHETA Nat.ltb Nat.leb].
    change 3%nat with eTHETA. rewrite Hh.
    destruct (propagate _) as [r |] eqn:Hr; [| now apply Hprop in Hr].
    destruct (IH Hrest (acc ++ [vdiv (vsub r nominal) (Fin 0%Qc)]))
      as (ds & Hds & Hlen & Hall).
    { apply Forall_app. split; [exact Hacc |].
      constructor; [apply vdiv_by_zero | constructor]. }
    exists ds. split; [exact Hds |]. split; [| exact Hall].
    rewrite Hlen, length_app. cbn. lia.
Qed.

(** X15.  At a pole the numerical derivative with respect to theta
    divides by zero: for a track with [theta = pi] and deviations for
    which the test [current_theta + h > M_PI] succeeds, or [theta = 0]
    and deviations for which [current_theta + h < 0] does, every
    deviation is corrected to zero, and every slope [(r - nominal) / h]
    that [wiggleDimension] returns has no finite entry, whatever the
    propagation returns. *)
Theorem wiggle_theta_at_pole (deviations : list dbl) (startPars : Parameters)
  (nominal : vec) :
  let current_theta := get eTHETA startPars in
  (current_theta = GainMatrixUpdater.M_PI /\
   Forall (fun h => dltb GainMatrixUpdater.M_PI (current_theta + h) = true) deviations) \/
  (current_theta = dlit 0 /\
   Forall (fun h => dltb (current_theta + h) (dlit 0) = true) deviations) ->
  (forall tp, propagate tp <> None) ->
  Forall (fun h => theta_deviation current_theta h = Fin 0%Qc) deviations /\
  exists derivatives,
    wiggleDimension get set propagate deviations startPars eTHETA nominal
      = Some derivatives /\
    length derivatives = length deviations /\
    Forall (fun d => no_finite_entry d = true) derivatives.
Proof.
  intros current_theta Hpole Hprop.
  assert (Hzero : Forall (fun h => theta_deviation current_theta h = Fin 0%Qc)
                         deviations).
  { destruct Hpole as [[Ht Hs] | [Ht Hs]]; rewrite Ht in *;
      (eapply Forall_impl; [| exact Hs]); cbv beta; intros h Hh.
    - now apply theta_deviation_at_pi.
    - now apply theta_deviation_at_zero. }
  split; [exact Hzero |].
  destruct (@wiggle_loop_zero_deviation startPars nominal deviations Hzero Hprop []
              (Forall_nil _))
    as (ds & H1 & H2 & H3).
  exists ds. auto.
Qed.

End WiggleProperties.

(** ** [fitLinear] *)

Lemma fit_sums_short (h : list dbl) : forall (values : list vec) acc,
  (length values < length h)%nat -> fit_sums values h acc = None.
Proof.
  induction h as [| hi h IH]; intros values acc Hlen.
  - cbn in Hlen. lia.
  - destruct values as [| v values]; [reflexivity |].
    cbn [fit_sums]. destruct acc as [[[A B] C] D].
    apply IH. cbn in Hlen. lia.
Qed.

Lemma fit_sums_surplus (h : list dbl) : forall (values extra : list vec) acc,
  length values = length h ->
  fit_sums (values ++ extra) h acc = fit_sums values h acc.
Proof.
  induction h as [| hi h IH]; intros values extra acc Hlen.
  - reflexivity.
  - destruct values as [| v values]; [discriminate Hlen |].
    cbn [app fit_sums]. destruct acc as [[[A B] C] D].
    apply IH. cbn in Hlen. lia.
Qed.

(** X17.  [fitLinear] reads one value for each deviation: with fewer
    values than deviations [values.at(i)] throws and there is no
    result; with as many values as deviations there is a result, and
    further values are not read. *)
Theorem fitLinear_number_of_values (values extra : list vec) (h : list dbl) :
  ((length values < length h)%nat -> fitLinear values h = None) /\
  (length values = length h ->
   fitLinear values h <> None /\
   fitLinear (values ++ extra) h = fitLinear values h).
Proof.
  split.
  - intros Hlen. unfold fitLinear. now rewrite fit_sums_short.
  - intros Hlen. split.
    + unfold fitLinear.
      assert (Hs : forall acc, fit_sums values h acc <> None).
      { clear extra. revert values Hlen.
        induction h as [| hi h IH]; intros values Hlen acc; [discriminate |].
        destruct values as [| v values]; [discriminate Hlen |].
        cbn [fit_sums]. destruct acc as [[[A B] C] D].
        apply IH. cbn in Hlen. lia. }
      specialize (Hs (Zero_vec 6, dlit 0, Zero_vec 6, dlit 0)).
      destruct (fit_sums values h _) as [[[[A B] C] D] |]; [discriminate | congruence].
    + unfold fitLinear. now rewrite fit_sums_surplus.
Qed.

(** X18.  With a single deviation, or none, the denominator
    [N D - B B] of [fitLinear] is zero and the fit returns NaN in every
    component, for all finite values. *)
Theorem fitLinear_single_deviation (v0 v1 v2 v3 v4 v5 h : Qc) :
  fitLinear [[Fin v0; Fin v1; Fin v2; Fin v3; Fin v4; Fin v5]] [Fin h]
  = Some [NaN; NaN; NaN; NaN; NaN; NaN] /\
  fitLinear [] [] = Some [NaN; NaN; NaN; NaN; NaN; NaN].
Proof.
  split; [| reflexivity].
  unfold fitLinear.
  cbn [fit_sums length Z.of_nat Zero_vec repeat vadd vscale map map2 dmul dadd d0 dlit].
  unfold dlit.
  cbn [vscale vsub vdiv map map2 dmul dsub dadd dopp].
  assert (Hden : forall x : Qc,
             (Q2Qc (inject_Z (Z.pos (Pos.of_succ_nat 0))) * (Q2Qc 0 + h * x)
              + - ((Q2Qc 0 + h) * (Q2Qc 0 + x)))%Qc = 0%Qc).
  { intros x. change (Q2Qc (inject_Z (Z.pos (Pos.of_succ_nat 0)))) with 1%Qc. ring. }
  rewrite !Hden.
  cbn [ddiv]. rewrite Qc_eq_bool_refl. reflexivity.
Qed.

Lemma wiggle_theta_at_pole_witness :
  let deviations := [dlit 1e-4; dlit 2e-4] in
  let current_theta := vector_get eTHETA at_pole in
  ((current_theta = GainMatrixUpdater.M_PI /\
    Forall (fun h => dltb GainMatrixUpdater.M_PI (current_theta + h) = true) deviations) \/
   (current_theta = dlit 0 /\
    Forall (fun h => dltb (current_theta + h) (dlit 0) = true) deviations)) /\
  (forall tp, identity_propagation tp <> None) /\
  Forall (fun h => theta_deviation current_theta h = Fin 0%Qc) deviations /\
  exists derivatives,
    wiggleDimension vector_get vector_set identity_propagation
      deviations at_pole eTHETA at_pole = Some derivatives /\
    length derivatives = length deviations /\
    Forall (fun d => no_finite_entry d = true) derivatives.
Proof.
  cbv zeta.
  assert (H1 : (vector_get eTHETA at_pole = GainMatrixUpdater.M_PI /\
                Forall (fun h => dltb GainMatrixUpdater.M_PI
                                      (vector_get eTHETA at_pole + h) = true)
                       [dlit 1e-4; dlit 2e-4]) \/
               (vector_get eTHETA at_pole = dlit 0 /\
                Forall (fun h => dltb (vector_get eTHETA at_pole + h) (dlit 0) = true)
                       [dlit 1e-4; dlit 2e-4])).
  { left. split; [reflexivity |]. repeat constructor. }
  assert (H2 : forall tp, identity_propagation tp <> None) by (intros tp; discriminate).
  split; [exact H1 |]. split; [exact H2 |].
  exact (@wiggle_theta_at_pole vec vector_get vector_set identity_propagation
           [dlit 1e-4; dlit 2e-4] at_pole at_pole H1 H2).
Defined.

End RiddersPropagator.
